(** * Listing image scraper: a shallow embedding of [listing_image_scraper.py]

    The development follows the Python module function by function:
    string helpers ([sanitize_filename], [normalize_image_url]), the
    image downloader ([download_image]), the two site extractors
    ([scrape_ebay_listing], [scrape_swappa_listing]) and the orchestrator
    ([process_listing]).  A second part embeds the Streamlit front end
    [listing_image_scraper_ui.py]: the validation and the reading of the
    addresses, the wrappers [custom_download_image] and
    [custom_process_listing], and the run [process_urls_thread].

    Conventions of the embedding.
    - A Python [str] is a [string]: a sequence of 8-bit characters, that is
      of code points below 256.  On that range [\d] is [0-9], [\s] is the
      set listed in [is_space] and [.] is every character but line feed.
    - A Python [int] is a [Z].
    - A Python [dict] keeps insertion order, and the code relies on it, so it
      is an association list ([pydict]).
    - Code that performs I/O runs in the monad [M]: a world (files on disk,
      the statistics counters, the trace of I/O calls) is threaded through,
      and an exception is a [Raise] result.  What the outside world answers
      (HTTP responses, I/O faults, the clock) is read from an environment
      [Env]; the HTML parser is used through the interface [BS4].
    - Logging calls, the random pacing delay and the random choice of a
      [User-Agent] header do not influence control flow and are left out. *)

From Stdlib Require Import String Ascii List ZArith Bool Lia DecimalString.
From stdpp Require Import gmap strings.
Import ListNotations.
Local Open Scope string_scope.
Local Open Scope Z_scope.

(** ** Python string primitives *)

Module Py.

(** The character with code [n]. *)
Definition chr (n : nat) : ascii := ascii_of_nat n.

Definition ord (c : ascii) : nat := nat_of_ascii c.

Definition between (lo hi : nat) (c : ascii) : bool :=
  (lo <=? ord c)%nat && (ord c <=? hi)%nat.

Definition is_digit (c : ascii) : bool := between 48 57 c.
Definition is_upper (c : ascii) : bool := between 65 90 c.
Definition is_lower (c : ascii) : bool := between 97 122 c.

(** [str.isspace] on one character, which is also the class [\s] of [re]:
    tab to carriage return, the four separators 28-31, space, NEL and the
    no-break space. *)
Definition is_space (c : ascii) : bool :=
  between 9 13 c || between 28 32 c || (ord c =? 133)%nat || (ord c =? 160)%nat.

Definition newline : ascii := Eval cbv in chr 10.
Definition dquote : ascii := Eval cbv in chr 34.

Definition is_newline (c : ascii) : bool := Ascii.eqb c newline.

(** [c in s] for a one-character [c]. *)
Fixpoint char_in (c : ascii) (s : string) : bool :=
  match s with
  | EmptyString => false
  | String d s' => Ascii.eqb c d || char_in c s'
  end.

(** [''.join(c for c in s if p(c))] *)
Fixpoint filter (p : ascii -> bool) (s : string) : string :=
  match s with
  | EmptyString => EmptyString
  | String c s' => if p c then String c (filter p s') else filter p s'
  end.

Fixpoint forallb (p : ascii -> bool) (s : string) : bool :=
  match s with
  | EmptyString => true
  | String c s' => p c && forallb p s'
  end.

(** [s.startswith(p)] *)
Definition startswith (s p : string) : bool := String.prefix p s.

(** [s.endswith(p)] *)
Definition endswith (s p : string) : bool :=
  (String.length p <=? String.length s)%nat
  && String.eqb (substring (String.length s - String.length p) (String.length p) s) p.

(** [needle in hay] *)
Fixpoint contains (needle hay : string) : bool :=
  String.prefix needle hay
  || match hay with
     | EmptyString => false
     | String _ hay' => contains needle hay'
     end.

(** [s[:n]] for [n >= 0] *)
Definition take (n : nat) (s : string) : string := substring 0 n s.

Fixpoint drop (n : nat) (s : string) : string :=
  match n, s with
  | O, _ => s
  | S _, EmptyString => EmptyString
  | S k, String _ s' => drop k s'
  end.

(** The scan of [s.replace(old, new)] for a non-empty [old]: [skip]
    counts the characters of the current occurrence still to pass over. *)
Fixpoint replace_scan (old new : string) (skip : nat) (s : string) : string :=
  match s with
  | EmptyString => EmptyString
  | String c s' =>
      match skip with
      | S k => replace_scan old new k s'
      | O =>
          if String.prefix old s
          then new ++ replace_scan old new (String.length old - 1) s'
          else String c (replace_scan old new O s')
      end
  end.

(** [s.replace(old, new)]; with an empty [old] Python puts [new] before
    every character and at the end. *)
Definition replace (old new s : string) : string :=
  match old with
  | EmptyString =>
      new ++ (fix between_chars (t : string) : string :=
                match t with
                | EmptyString => EmptyString
                | String c t' => String c (new ++ between_chars t')
                end) s
  | String _ _ => replace_scan old new O s
  end.

(** [s.lower()] on code points below 256: the ASCII capitals and the
    Latin-1 capitals 192-222 (but the multiplication sign 215) move up
    by 32. *)
Definition lower_char (c : ascii) : ascii :=
  if is_upper c || (between 192 222 c && negb (ord c =? 215)%nat)
  then chr (ord c + 32) else c.

Fixpoint lower (s : string) : string :=
  match s with
  | EmptyString => EmptyString
  | String c s' => String (lower_char c) (lower s')
  end.

Fixpoint lstrip (s : string) : string :=
  match s with
  | EmptyString => EmptyString
  | String c s' => if is_space c then lstrip s' else s
  end.

(** [s.rstrip()]: a character is kept when it is no space or when
    something is kept after it. *)
Fixpoint rstrip (s : string) : string :=
  match s with
  | EmptyString => EmptyString
  | String c s' =>
      match rstrip s' with
      | EmptyString => if is_space c then EmptyString else String c EmptyString
      | t => String c t
      end
  end.

(** [s.strip()] *)
Definition strip (s : string) : string := rstrip (lstrip s).

(** [s.split(sep)[0]] for a one-character [sep]: the text before the
    first [sep], all of [s] when there is none. *)
Fixpoint split_head (sep : ascii) (s : string) : string :=
  match s with
  | EmptyString => EmptyString
  | String c s' => if Ascii.eqb c sep then EmptyString else String c (split_head sep s')
  end.

(** [str(n)] for an integer. *)
Definition str_of_int (n : Z) : string := NilZero.string_of_int (Z.to_int n).

(** [string.ascii_letters] and [string.digits] *)
Definition ascii_lowercase : string := "abcdefghijklmnopqrstuvwxyz".
Definition ascii_uppercase : string := "ABCDEFGHIJKLMNOPQRSTUVWXYZ".
Definition ascii_letters : string := ascii_lowercase ++ ascii_uppercase.
Definition digits : string := "0123456789".

(** [os.path.join(a, b)] of [posixpath]. *)
Definition path_join (a b : string) : string :=
  if startswith b "/" then b
  else if String.eqb a "" || endswith a "/" then a ++ b
  else a ++ "/" ++ b.

(** Truth value of a string and of a list: empty is false. *)
Definition truthy_str (s : string) : bool := negb (String.eqb s "").
Definition truthy_list {A} (l : list A) : bool :=
  match l with [] => false | _ :: _ => true end.

End Py.

(** ** The two scanning functions of [re] the program uses

    [re.sub] and [re.findall] walk the subject from left to right; at each
    position the pattern either matches a stretch that starts there or the
    scan moves one character on.  A pattern is given by its matcher: the
    length of the match at the head of the remaining text (and, for
    [findall], the text of its group).  None of the program's patterns
    matches the empty string, so the rule for empty matches is not
    needed. *)

Module Re.

(** [re.sub(pattern, repl, s)], where [repl] has no group reference. *)
Fixpoint sub_scan (m : string -> option nat) (repl : string)
    (skip : nat) (s : string) : string :=
  match s with
  | EmptyString => EmptyString
  | String c s' =>
      match skip with
      | S k => sub_scan m repl k s'
      | O =>
          match m s with
          | Some (S n) => repl ++ sub_scan m repl n s'
          | _ => String c (sub_scan m repl O s')
          end
      end
  end.

Definition sub (m : string -> option nat) (repl s : string) : string :=
  sub_scan m repl O s.

(** [re.findall(pattern, s)] for a pattern with one group. *)
Fixpoint findall_scan (m : string -> option (nat * string))
    (skip : nat) (s : string) : list string :=
  match s with
  | EmptyString => []
  | String _ s' =>
      match skip with
      | S k => findall_scan m k s'
      | O =>
          match m s with
          | Some (S n, g) => g :: findall_scan m n s'
          | _ => findall_scan m O s'
          end
      end
  end.

Definition findall (m : string -> option (nat * string)) (s : string) : list string :=
  findall_scan m O s.

(** Length of the longest prefix whose characters satisfy [p]: what a
    greedy [p*] consumes. *)
Fixpoint span (p : ascii -> bool) (s : string) : nat :=
  match s with
  | EmptyString => O
  | String c s' => if p c then S (span p s') else O
  end.

(** [s-l\d+]: the literal [s-l], then one or more digits, greedily. *)
Definition size_token (s : string) : option nat :=
  if String.prefix "s-l" s then
    match span Py.is_digit (Py.drop 3 s) with
    | O => None
    | S d => Some (3 + S d)%nat
    end
  else None.

(** [\?.*$]: a question mark, then every character up to the next line
    feed; [$] holds at the end of the text and just before a line feed
    that is the last character.  A shorter [.*] stops before a character
    that is no line feed, where [$] fails, so the greedy choice decides. *)
Definition query_tail (s : string) : option nat :=
  match s with
  | String "?" r =>
      let k := span (fun c => negb (Py.is_newline c)) r in
      match Py.drop k r with
      | EmptyString => Some (S k)
      | String c EmptyString => if Py.is_newline c then Some (S k) else None
      | _ => None
      end
  | _ => None
  end.

(** The pattern of method 1 of the eBay extractor: the key [imageUrl]
    between double quotes, [\s*], a colon, [\s*], a double quote, the
    group (one or more characters that are no double quote) and a closing
    double quote.  The group is the longest stretch without a quote;
    it must be non-empty and a quote must follow.  The characters that
    follow each greedy star or plus are outside its class, so no shorter
    choice can succeed. *)
Definition image_url_field (s : string) : option (nat * string) :=
  let key := String Py.dquote ("imageUrl" ++ String Py.dquote "") in
  if String.prefix key s then
    let r1 := Py.drop 10 s in
    let w1 := span Py.is_space r1 in
    match Py.drop w1 r1 with
    | String ":" r2 =>
        let w2 := span Py.is_space r2 in
        match Py.drop w2 r2 with
        | String q r3 =>
            if Ascii.eqb q Py.dquote then
              let g := span (fun c => negb (Ascii.eqb c Py.dquote)) r3 in
              match g, Py.drop g r3 with
              | S _, String q' _ =>
                  if Ascii.eqb q' Py.dquote
                  then Some ((10 + w1 + 1 + w2 + 1 + g + 1)%nat, Py.take g r3)
                  else None
              | _, _ => None
              end
            else None
        | EmptyString => None
        end
    | _ => None
    end
  else None.

End Re.

(** ** [sanitize_filename] and [normalize_image_url] *)

Definition valid_chars : string := "-_.() " ++ Py.ascii_letters ++ Py.digits.

Definition sanitize_filename (name : string) : string :=
  let sanitized := Py.filter (fun c => Py.char_in c valid_chars) name in
  let sanitized := Py.replace " " "_" sanitized in
  if (100 <? String.length sanitized)%nat
  then Py.take 97 sanitized ++ "..."
  else sanitized.

Definition normalize_image_url (url : string) : string :=
  let url := Re.sub Re.size_token "s-l1600" url in
  let url := Re.sub Re.query_tail "" url in
  url.

(** ** Python dictionaries, in insertion order *)

Section PyDict.
Context {V : Type}.

Definition pydict : Type := list (string * V).

(** [k in d] *)
Fixpoint pydict_contains (d : pydict) (k : string) : bool :=
  match d with
  | [] => false
  | (k', _) :: d' => String.eqb k' k || pydict_contains d' k
  end.

(** [d[k] = v]: a present key keeps its place and takes the new value, a
    new key goes to the end. *)
Fixpoint pydict_set (d : pydict) (k : string) (v : V) : pydict :=
  match d with
  | [] => [(k, v)]
  | (k', v') :: d' =>
      if String.eqb k' k then (k', v) :: d' else (k', v') :: pydict_set d' k v
  end.

(** [list(d.values())] *)
Definition pydict_values (d : pydict) : list V := map snd d.

Definition pydict_keys (d : pydict) : list string := map fst d.

End PyDict.
Arguments pydict : clear implicits.

(** The block [# Normalize and deduplicate image URLs] of both extractors:
    the loop body, and the loop followed by [list(normalized_urls.values())]. *)
Definition dedup_step (normalized_urls : pydict string) (url : string) : pydict string :=
  let norm_url := normalize_image_url url in
  if negb (pydict_contains normalized_urls norm_url)
  then pydict_set normalized_urls norm_url url
  else normalized_urls.

Definition dedup_image_urls (image_urls : list string) : list string :=
  let normalized_urls := fold_left dedup_step image_urls [] in
  pydict_values normalized_urls.

(** ** The world, exceptions and the monad of effects *)

(** The statistics dictionary [stats]. *)
Record Stats := mkStats {
  successful_listings : Z;
  failed_listings : Z;
  successful_images : Z;
  failed_images : Z
}.

(** The I/O calls the program makes, as they are recorded in the trace. *)
Inductive Event :=
| EvGet (url : string) (stream : bool)      (* session.get *)
| EvExists (path : string)                  (* os.path.exists *)
| EvMakedirs (path : string)                (* os.makedirs *)
| EvWriteText (path content : string)       (* open(path, 'w') and write *)
| EvOpenWrite (path : string)               (* open(path, 'wb') *)
| EvReadBody (path : string)                (* response.iter_content, written to path *)
| EvImageOpen (path : string)               (* Image.open and convert *)
| EvImageSave (path : string)               (* img.save(path, 'JPEG') *)
| EvRemove (path : string).                 (* os.remove *)

Record World := mkWorld {
  files : gset string;      (* the paths that exist, directories included *)
  stats : Stats;
  trace : list Event        (* oldest call first *)
}.

(** An exception, with its message. *)
Inductive Exn := Exception (msg : string).

Inductive result (A : Type) :=
| Ok (a : A)
| Raise (e : Exn).
Arguments Ok {A} a.
Arguments Raise {A} e.

(** A computation changes the world and returns or raises; the world it
    leaves is kept in both cases, as the effects of a Python call are when
    it raises. *)
Definition M (A : Type) : Type := World -> result A * World.

Definition ret {A} (a : A) : M A := fun w => (Ok a, w).

Definition raise {A} (e : Exn) : M A := fun w => (Raise e, w).

Definition bind {A B} (m : M A) (k : A -> M B) : M B :=
  fun w =>
    match m w with
    | (Ok a, w') => k a w'
    | (Raise e, w') => (Raise e, w')
    end.

(** [try: body / except Exception: handler] *)
Definition try_except {A} (body : M A) (handler : Exn -> M A) : M A :=
  fun w =>
    match body w with
    | (Ok a, w') => (Ok a, w')
    | (Raise e, w') => handler e w'
    end.

(** A pure library call that may raise. *)
Definition lift {A} (r : result A) : M A := fun w => (r, w).

Declare Scope py_scope.
Delimit Scope py_scope with py.
Notation "x <- m ;; k" := (bind m (fun x => k))
  (at level 20, m at level 99, k at level 200, only parsing) : py_scope.
Notation "m ;; k" := (bind m (fun _ => k))
  (at level 100, k at level 200, only parsing, right associativity) : py_scope.
Local Open Scope py_scope.

(** [for x in xs: body(x)], results dropped. *)
Fixpoint for_each {A} (xs : list A) (body : A -> M unit) : M unit :=
  match xs with
  | [] => ret tt
  | x :: xs' => body x ;; for_each xs' body
  end.

(** [enumerate(xs)], counting from [i]. *)
Fixpoint enumerate_from {A} (i : Z) (xs : list A) : list (Z * A) :=
  match xs with
  | [] => []
  | x :: xs' => (i, x) :: enumerate_from (i + 1) xs'
  end.

Definition enumerate {A} (xs : list A) : list (Z * A) := enumerate_from 0 xs.

(** [stats[key] += 1] for each of the four keys. *)
Definition update_stats (f : Stats -> Stats) : M unit :=
  fun w => (Ok tt, mkWorld (files w) (f (stats w)) (trace w)).

Definition incr_successful_listings : M unit :=
  update_stats (fun s => mkStats (successful_listings s + 1) (failed_listings s)
                                 (successful_images s) (failed_images s)).
Definition incr_failed_listings : M unit :=
  update_stats (fun s => mkStats (successful_listings s) (failed_listings s + 1)
                                 (successful_images s) (failed_images s)).
Definition incr_successful_images : M unit :=
  update_stats (fun s => mkStats (successful_listings s) (failed_listings s)
                                 (successful_images s + 1) (failed_images s)).
Definition incr_failed_images : M unit :=
  update_stats (fun s => mkStats (successful_listings s) (failed_listings s)
                                 (successful_images s) (failed_images s + 1)).

(** An HTTP response as the program reads it. *)
Record Response := mkResponse {
  status_code : Z;
  content_type_header : option string;   (* headers.get('Content-Type') *)
  text : string;                         (* response.text *)
  body_error : option Exn                (* raised while the body is streamed *)
}.

(** The HTTP status codes [raise_for_status] raises on. *)
Definition error_status (response : Response) : bool :=
  (400 <=? status_code response) && (status_code response <? 600).

(** [response.headers.get('Content-Type', '')] *)
Definition content_type (response : Response) : string :=
  match content_type_header response with
  | Some v => v
  | None => ""
  end.

(** What the outside world answers.  Every answer may depend on the calls
    made so far (the trace). *)
Record Env := mkEnv {
  (** [session.get]: a response, or the exception of a connection error,
      of a timeout or of exhausted retries. *)
  http_get : list Event -> string -> result Response;
  (** The exception a file-system or image call raises, if any. *)
  io_fault : list Event -> Event -> option Exn;
  (** Whether a failed [img.save] leaves a file behind. *)
  save_leaves_file : list Event -> string -> bool;
  (** [int(time.time())] *)
  unix_time : list Event -> Z;
  (** [os.path.expanduser('~')] *)
  home_dir : string;
  (** [urlparse(url).netloc], [urlparse(url).scheme] and [urljoin]; each
      may raise [ValueError]. *)
  url_netloc : string -> result string;
  url_scheme : string -> result string;
  urljoin : string -> string -> result string
}.

(** The part of BeautifulSoup the extractors use. *)
Class BS4 (Soup Tag : Type) := {
  (** [BeautifulSoup(text, 'html.parser')] *)
  parse_html : string -> result Soup;
  (** [soup.select(selector)] and [soup.select_one(selector)] *)
  select : Soup -> string -> list Tag;
  select_one : Soup -> string -> option Tag;
  (** [soup.find_all('script', type='text/javascript')] *)
  find_all_scripts : Soup -> list Tag;
  (** [tag.select(selector)] *)
  tag_select : Tag -> string -> list Tag;
  (** [tag.get(attribute)]: [None] when the attribute is absent *)
  tag_get : Tag -> string -> option string;
  (** [tag.text] and [tag.string] *)
  tag_text : Tag -> string;
  tag_string : Tag -> option string
}.

(** [tag.get(attribute, default)] *)
Definition tag_get_default `{BS4 Soup Tag} (t : Tag) (attribute default : string) : string :=
  match tag_get t attribute with
  | Some v => v
  | None => default
  end.

(** [[f(x) for x in xs]] where [f] may raise. *)
Fixpoint map_m {A B} (f : A -> M B) (xs : list A) : M (list B) :=
  match xs with
  | [] => ret []
  | x :: xs' => y <- f x ;; ys <- map_m f xs' ;; ret (y :: ys)
  end.

(** The selector [meta[property=...]] of the social-preview image; the
    value [og:image] stands between double quotes. *)
Definition og_image_selector : string :=
  "meta[property=" ++ String Py.dquote ("og:image" ++ String Py.dquote "]").

(** ** The program *)

Section Program.
Context (env : Env) {Soup Tag : Type} {bs : BS4 Soup Tag}.

(** *** I/O primitives *)

Definition record (ev : Event) (w : World) : World :=
  mkWorld (files w) (stats w) (trace w ++ [ev])%list.

Definition set_files (fs : gset string) (w : World) : World :=
  mkWorld fs (stats w) (trace w).

(** A file-system or image call: it is recorded, then it raises what the
    environment says or has its effect on the set of files. *)
Definition io (ev : Event) (effect : gset string -> gset string) : M unit :=
  fun w =>
    match io_fault env (trace w) ev with
    | Some e => (Raise e, record ev w)
    | None => (Ok tt, record ev (set_files (effect (files w)) w))
    end.

(** [session.get(url, headers=headers, stream=stream, timeout=15)] *)
Definition session_get (url : string) (stream : bool) : M Response :=
  fun w => (http_get env (trace w) url, record (EvGet url stream) w).

(** [response.raise_for_status()] *)
Definition raise_for_status (response : Response) : M unit :=
  if error_status response
  then raise (Exception "HTTPError")
  else ret tt.

(** [os.path.exists(path)]: never raises. *)
Definition os_path_exists (path : string) : M bool :=
  fun w => (Ok (bool_decide (path ∈ files w)), record (EvExists path) w).

(** [os.makedirs(path)], with or without [exist_ok]; whether it raises
    is the environment's answer. *)
Definition os_makedirs (path : string) : M unit :=
  io (EvMakedirs path) (fun fs => {[path]} ∪ fs).

(** [with open(path, 'w') as f: f.write(content)] *)
Definition write_text (path content : string) : M unit :=
  io (EvWriteText path content) (fun fs => {[path]} ∪ fs).

(** [with open(file_path, 'wb') as f: for chunk in
    response.iter_content(chunk_size=8192): f.write(chunk)]: the file
    exists once it is opened, also when streaming fails later. *)
Definition save_body (response : Response) (file_path : string) : M unit :=
  io (EvOpenWrite file_path) (fun fs => {[file_path]} ∪ fs) ;;
  io (EvReadBody file_path) (fun fs => fs) ;;
  match body_error response with
  | Some e => raise e
  | None => ret tt
  end.

(** [img = Image.open(file_path)] and the conversion to RGB. *)
Definition image_open (file_path : string) : M unit :=
  io (EvImageOpen file_path) (fun fs => fs).

(** [img.save(jpg_path, 'JPEG', quality=95)] *)
Definition image_save (jpg_path : string) : M unit :=
  fun w =>
    let ev := EvImageSave jpg_path in
    match io_fault env (trace w) ev with
    | Some e =>
        (Raise e,
         record ev (if save_leaves_file env (trace w) jpg_path
                    then set_files ({[jpg_path]} ∪ files w) w else w))
    | None => (Ok tt, record ev (set_files ({[jpg_path]} ∪ files w) w))
    end.

(** [os.remove(path)] *)
Definition os_remove (path : string) : M unit :=
  io (EvRemove path) (fun fs => fs ∖ {[path]}).

(** [int(time.time())] *)
Definition time_now : M Z :=
  fun w => (Ok (unix_time env (trace w)), w).

(** *** [create_folder] *)

Definition create_folder (folder_name : string) : M string :=
  let folder_name := sanitize_filename folder_name in
  let base_dir := Py.path_join (home_dir env) "listing_images" in
  present <- os_path_exists base_dir ;;
  (if negb present then os_makedirs base_dir else ret tt) ;;
  let folder_path := Py.path_join base_dir folder_name in
  os_makedirs folder_path ;;
  ret folder_path.

(** *** [download_image] *)

(** The extension chosen from the content type. *)
Definition extension_of (content_type : string) : string :=
  if Py.contains "image/jpeg" content_type || Py.contains "image/jpg" content_type
  then ".jpg"
  else if Py.contains "image/png" content_type then ".png"
  else if Py.contains "image/webp" content_type then ".webp"
  else if Py.contains "image/gif" content_type then ".gif"
  else ".jpg".

(** [os.path.join(folder_path, f"{filename}_{index}{ext}")] *)
Definition target_path (folder_path filename : string) (index : Z) (ext : string) : string :=
  Py.path_join folder_path (filename ++ "_" ++ Py.str_of_int index ++ ext).

(** The inner [try] of the conversion to JPEG; its [except] only logs. *)
Definition convert_to_jpg (folder_path filename : string) (index : Z)
    (file_path : string) : M unit :=
  try_except
    (image_open file_path ;;
     let jpg_path := target_path folder_path filename index ".jpg" in
     image_save jpg_path ;;
     os_remove file_path)
    (fun _ => ret tt).

Definition download_image (url folder_path filename : string) (index : Z) : M bool :=
  try_except
    (response <- session_get url true ;;
     raise_for_status response ;;
     let content_type := content_type response in
     if negb (Py.startswith content_type "image/") then
       incr_failed_images ;;
       ret false
     else
       let ext := extension_of content_type in
       let file_path := target_path folder_path filename index ext in
       present <- os_path_exists file_path ;;
       if present then
         ret true
       else
         save_body response file_path ;;
         (if negb (String.eqb ext ".jpg")
          then convert_to_jpg folder_path filename index file_path
          else ret tt) ;;
         incr_successful_images ;;
         ret true)
    (fun _ =>
       incr_failed_images ;;
       ret false).

(** *** The extractors *)

(** The title of an eBay page; [now] is read when both selectors fail. *)
Definition ebay_title (soup : Soup) (now : Z) : string :=
  match select_one soup "h1.x-item-title__mainTitle span" with
  | Some title_elem => Py.strip (tag_text title_elem)
  | None =>
      match select_one soup "title" with
      | Some title_elem => Py.strip (Py.split_head "|" (tag_text title_elem))
      | None => "eBay_Item_" ++ Py.str_of_int now
      end
  end.

(** Method 1: the [imageUrl] fields of the scripts. *)
Definition ebay_method1 (soup : Soup) (image_urls : list string) : list string :=
  fold_left
    (fun image_urls script =>
       match tag_string script with
       | Some text =>
           if Py.truthy_str text && Py.contains "imageUrl" text
           then (image_urls ++ Re.findall Re.image_url_field text)%list
           else image_urls
       | None => image_urls
       end)
    (find_all_scripts soup) image_urls.

(** The [src] attributes of [imgs] that are not empty, each passed
    through [fix]. *)
Definition append_srcs (attribute : string) (fix_url : string -> string)
    (keep : string -> bool) (imgs : list Tag) (image_urls : list string) : list string :=
  fold_left
    (fun image_urls img =>
       let src := tag_get_default img attribute "" in
       if Py.truthy_str src && keep src
       then (image_urls ++ [fix_url src])%list
       else image_urls)
    imgs image_urls.

Definition full_size (src : string) : string :=
  Py.replace "s-l400" "s-l1600"
    (Py.replace "s-l300" "s-l1600" (Py.replace "s-l64" "s-l1600" src)).

(** Method 2: the image carousel. *)
Definition ebay_method2 (soup : Soup) (image_urls : list string) : list string :=
  append_srcs "src" full_size (fun _ => true)
    (select soup "div.ux-image-carousel-item img") image_urls.

(** Method 3 of both sites: the [og:image] meta tag. *)
Definition og_image_method (soup : Soup) (image_urls : list string) : list string :=
  match select_one soup og_image_selector with
  | Some meta_og_image =>
      match tag_get meta_og_image "content" with
      | Some content =>
          if Py.truthy_str content then (image_urls ++ [content])%list else image_urls
      | None => image_urls
      end
  | None => image_urls
  end.

(** Method 4 of both sites: every image of the main content area. *)
Definition content_area_method (area_selector : string) (soup : Soup)
    (image_urls : list string) : list string :=
  match select_one soup area_selector with
  | Some content_area =>
      append_srcs "src" (fun src => src) (fun _ => true)
        (tag_select content_area "img") image_urls
  | None => image_urls
  end.

(** [if not image_urls: method] *)
Definition unless_found (method : list string -> list string)
    (image_urls : list string) : list string :=
  if negb (Py.truthy_list image_urls) then method image_urls else image_urls.

(** The block [# Extract images] of [scrape_ebay_listing]. *)
Definition ebay_extract_images (soup : Soup) : list string :=
  let image_urls := [] in
  let image_urls := ebay_method1 soup image_urls in
  let image_urls := unless_found (ebay_method2 soup) image_urls in
  let image_urls := unless_found (og_image_method soup) image_urls in
  let image_urls := unless_found (content_area_method "div#vi_main_img_fs" soup) image_urls in
  image_urls.

Definition scrape_ebay_listing (url : string) : M (option string * list string) :=
  try_except
    (response <- session_get url false ;;
     raise_for_status response ;;
     soup <- lift (parse_html (text response)) ;;
     now <- time_now ;;
     let title := ebay_title soup now in
     let image_urls := ebay_extract_images soup in
     let image_urls := dedup_image_urls image_urls in
     ret (Some title, image_urls))
    (fun _ => ret (None, [])).

Definition swappa_title (soup : Soup) (now : Z) : string :=
  match select_one soup "h1.listing_title" with
  | Some title_elem => Py.strip (tag_text title_elem)
  | None =>
      match select_one soup "title" with
      | Some title_elem => Py.strip (Py.split_head "|" (tag_text title_elem))
      | None => "Swappa_Item_" ++ Py.str_of_int now
      end
  end.

(** Method 1: the product gallery. *)
Definition swappa_method1 (soup : Soup) (image_urls : list string) : list string :=
  append_srcs "src" (fun src => src) (fun _ => true)
    (select soup "img.product-gallery__slide-image") image_urls.

(** Method 2: lazily loaded images whose address names a product or a
    listing. *)
Definition swappa_method2 (soup : Soup) (image_urls : list string) : list string :=
  append_srcs "data-src" (fun src => src)
    (fun src => Py.contains "product" (Py.lower src) || Py.contains "listing" (Py.lower src))
    (select soup "img[data-src]") image_urls.

(** The block [# Extract images] of [scrape_swappa_listing]. *)
Definition swappa_extract_images (soup : Soup) : list string :=
  let image_urls := [] in
  let image_urls := swappa_method1 soup image_urls in
  let image_urls := unless_found (swappa_method2 soup) image_urls in
  let image_urls := unless_found (og_image_method soup) image_urls in
  let image_urls := unless_found (content_area_method "div.listing_content" soup) image_urls in
  image_urls.

(** The deduplication loop of [scrape_swappa_listing] is written
    [for url in image_urls], which rebinds the parameter [url]: after a
    loop over a non-empty list, [url] is the last candidate, and the base
    address is computed from it. *)
Definition url_after_loop (url : string) (image_urls : list string) : string :=
  List.last image_urls url.

Definition scrape_swappa_listing (url : string) : M (option string * list string) :=
  try_except
    (response <- session_get url false ;;
     raise_for_status response ;;
     soup <- lift (parse_html (text response)) ;;
     now <- time_now ;;
     let title := swappa_title soup now in
     let image_urls := swappa_extract_images soup in
     let url := url_after_loop url image_urls in
     let image_urls := dedup_image_urls image_urls in
     scheme <- lift (url_scheme env url) ;;
     netloc <- lift (url_netloc env url) ;;
     let base_url := scheme ++ "://" ++ netloc in
     image_urls <- map_m (fun img_url => lift (urljoin env base_url img_url)) image_urls ;;
     ret (Some title, image_urls))
    (fun _ => ret (None, [])).

(** *** [process_listing] *)

(** The loop [for i, img_url in enumerate(image_urls)]. *)
Definition download_all (image_urls : list string) (folder_path filename_base : string)
    : M unit :=
  for_each (enumerate image_urls)
    (fun '(i, img_url) =>
       download_image img_url folder_path filename_base (i + 1) ;;
       ret tt).

(** What follows the extraction: the check of its result, the folder,
    the provenance file and the downloads. *)
Definition process_extracted (url : string) (extracted : option string * list string)
    : M bool :=
  let '(title, image_urls) := extracted in
  match title with
  | Some title =>
      if negb (Py.truthy_str title) || negb (Py.truthy_list image_urls) then
        incr_failed_listings ;;
        ret false
      else
        folder_path <- create_folder title ;;
        write_text (Py.path_join folder_path "source_url.txt") url ;;
        let filename_base := sanitize_filename title in
        download_all image_urls folder_path filename_base ;;
        incr_successful_listings ;;
        ret true
  | None =>
      incr_failed_listings ;;
      ret false
  end.

Definition process_listing (url : string) : M bool :=
  try_except
    (netloc <- lift (url_netloc env url) ;;
     let domain := Py.lower netloc in
     if Py.contains "ebay" domain then
       extracted <- scrape_ebay_listing url ;;
       process_extracted url extracted
     else if Py.contains "swappa" domain then
       extracted <- scrape_swappa_listing url ;;
       process_extracted url extracted
     else
       incr_failed_listings ;;
       ret false)
    (fun _ =>
       incr_failed_listings ;;
       ret false).

End Program.

(** ** Notions the statements use *)

(** The character class [[A-Za-z0-9_.()-]]. *)
Definition allowed_char (c : ascii) : bool :=
  Py.is_upper c || Py.is_lower c || Py.is_digit c || Py.char_in c "_.()-".

(** A text without line feed; every URL is one. *)
Definition no_newline (s : string) : bool :=
  Py.forallb (fun c => negb (Py.is_newline c)) s.

(** A non-empty run of digits: the variable part of a size token. *)
Definition is_digits (d : string) : bool :=
  Py.forallb Py.is_digit d && negb (String.eqb d "").

(** A trailing query string: nothing, or a question mark and what follows. *)
Definition is_query (q : string) : bool :=
  String.eqb q "" || Py.startswith q "?".

(** After the specification: a stable, order-preserving deduplication by
    normalized address, where the first-seen address of a key is kept and
    later ones are discarded.  [seen] holds the keys met so far. *)
Fixpoint keep_first (seen : list string) (urls : list string) : list string :=
  match urls with
  | [] => []
  | u :: urls' =>
      if existsb (String.eqb (normalize_image_url u)) seen
      then keep_first seen urls'
      else u :: keep_first (normalize_image_url u :: seen) urls'
  end.

(** After the specification: strategies are attempted in fixed priority
    order, stopping at the first that yields at least one address, and are
    not merged.  Each element is what one strategy yields alone. *)
Fixpoint first_yielding (strategies : list (list string)) : list string :=
  match strategies with
  | [] => []
  | found :: others =>
      match found with
      | [] => first_yielding others
      | _ :: _ => found
      end
  end.

(** The path a file-system or image event is about. *)
Definition event_path (ev : Event) : option string :=
  match ev with
  | EvGet _ _ => None
  | EvExists p | EvMakedirs p | EvWriteText p _ | EvOpenWrite p
  | EvReadBody p | EvImageOpen p | EvImageSave p | EvRemove p => Some p
  end.

(** The network requests of a trace, in order. *)
Fixpoint requests (tr : list Event) : list string :=
  match tr with
  | [] => []
  | EvGet url _ :: tr' => url :: requests tr'
  | _ :: tr' => requests tr'
  end.

(** The extensions [download_image] can give a file. *)
Definition extensions : list string := [".jpg"; ".png"; ".webp"; ".gif"].

(** An event on a target file of the image of that [index]. *)
Definition on_target (folder_path filename : string) (index : Z) (ev : Event) : Prop :=
  exists ext,
    In ext extensions
    /\ event_path ev = Some (target_path folder_path filename index ext).

(** The events of one call of [download_image]: one request for [url], then
    only calls on target files of that [index]. *)
Definition call_events (url folder_path filename : string) (index : Z)
    (evs : list Event) : Prop :=
  exists rest,
    evs = EvGet url true :: rest
    /\ Forall (on_target folder_path filename index) rest.

(** The listing page cannot be had: the request raises, the status is an
    error, or the parser raises. *)
Definition page_unavailable (env : Env) `{BS4 Soup Tag} (url : string) (w : World) : Prop :=
  match http_get env (trace w) url with
  | Raise _ => True
  | Ok response =>
      error_status response = true
      \/ exists e, parse_html (text response) = Raise e
  end.

(** The extractor [process_listing] chooses for [url] returns [extracted]
    and leaves the world [w']. *)
Definition extracts (env : Env) `{BS4 Soup Tag} (url : string) (w : World)
    (extracted : option string * list string) (w' : World) : Prop :=
  exists netloc,
    url_netloc env url = Ok netloc
    /\ ((Py.contains "ebay" (Py.lower netloc) = true
         /\ scrape_ebay_listing env url w = (Ok extracted, w'))
        \/ (Py.contains "ebay" (Py.lower netloc) = false
            /\ Py.contains "swappa" (Py.lower netloc) = true
            /\ scrape_swappa_listing env url w = (Ok extracted, w'))).

(** What each strategy of a site yields alone, in the order of the code. *)
Definition ebay_strategies `{BS4 Soup Tag} (soup : Soup) : list (list string) :=
  [ebay_method1 soup []; ebay_method2 soup []; og_image_method soup [];
   content_area_method "div#vi_main_img_fs" soup []].

Definition swappa_strategies `{BS4 Soup Tag} (soup : Soup) : list (list string) :=
  [swappa_method1 soup []; swappa_method2 soup []; og_image_method soup [];
   content_area_method "div.listing_content" soup []].

(** The map of a text, character by character. *)
Fixpoint map_chars (f : ascii -> ascii) (s : string) : string :=
  match s with
  | EmptyString => EmptyString
  | String c s' => String (f c) (map_chars f s')
  end.

(** A character that ends a size token and starts none of its inner
    characters: no digit, no hyphen, no [l]. *)
Definition token_stop (c : ascii) : bool :=
  negb (Py.is_digit c) && negb (Ascii.eqb "-" c) && negb (Ascii.eqb "l" c).

(** The two listing counters are the same in [s] and [s']. *)
Definition listing_counters_kept (s s' : Stats) : Prop :=
  successful_listings s' = successful_listings s
  /\ failed_listings s' = failed_listings s.

(** [m] always returns, it never raises. *)
Definition returns {A} (m : M A) : Prop :=
  forall w, exists a, fst (m w) = Ok a.

(** [m] only adds events of [Q] to the trace, and takes the counters to
    counters related by [R]; this whether it returns or raises. *)
Definition frames (R : Stats -> Stats -> Prop) (Q : Event -> Prop) {A} (m : M A)
    : Prop :=
  forall w, exists evs,
    trace (snd (m w)) = (trace w ++ evs)%list
    /\ Forall Q evs
    /\ R (stats w) (stats (snd (m w))).

(** The listing counters after [process_extracted], by its result. *)
Definition listing_outcome (w : World) (r : result bool) (w' : World) : Prop :=
  match r with
  | Ok true =>
      successful_listings (stats w') = successful_listings (stats w) + 1
      /\ failed_listings (stats w') = failed_listings (stats w)
  | Ok false =>
      successful_listings (stats w') = successful_listings (stats w)
      /\ failed_listings (stats w') = failed_listings (stats w) + 1
  | Raise _ => listing_counters_kept (stats w) (stats w')
  end.

(** ** Fixtures: a small page model and environment to run the program on *)

Module Fixture.

Record tag := mkTag {
  attrs : list (string * string);
  inner_text : string;
  inner_string : option string;
  imgs : list (list (string * string))    (* the images below the tag *)
}.

Record page := mkPage {
  by_selector : list (string * list tag);
  scripts : list tag
}.

Fixpoint assoc {A} (k : string) (l : list (string * A)) : option A :=
  match l with
  | [] => None
  | (k', a) :: l' => if String.eqb k' k then Some a else assoc k l'
  end.

Definition matches (p : page) (selector : string) : list tag :=
  match assoc selector (by_selector p) with
  | Some ts => ts
  | None => []
  end.

Definition img_tag (a : list (string * string)) : tag := mkTag a "" None [].

#[export] Instance bs (parser : string -> result page) : BS4 page tag := {|
  parse_html := parser;
  select := matches;
  select_one := fun p selector => head (matches p selector);
  find_all_scripts := scripts;
  tag_select := fun t _ => map img_tag (imgs t);
  tag_get := fun t a => assoc a (attrs t);
  tag_text := inner_text;
  tag_string := inner_string
|}.

(** Addresses of the form [https://host/path]. *)
Definition netloc_of (url : string) : result string :=
  if Py.startswith url "https://"
  then Ok (Py.split_head "/" (Py.drop 8 url))
  else Ok "".

Definition scheme_of (url : string) : result string :=
  if Py.startswith url "https://" then Ok "https" else Ok "".

Definition join (base url : string) : result string :=
  if Py.startswith url "http" then Ok url else Ok (base ++ url).

Definition env (net : string -> result Response) (fault : Event -> option Exn) : Env :=
  mkEnv (fun _ => net) (fun _ => fault) (fun _ _ => false)
        (fun _ => 1700000000) "/home/user" netloc_of scheme_of join.

Definition no_fault (_ : Event) : option Exn := None.

Definition empty_stats : Stats := mkStats 0 0 0 0.

Definition world (fs : gset string) : World := mkWorld fs empty_stats [].

Definition image_response (content_type : string) : Response :=
  mkResponse 200 (Some content_type) "" None.

Definition html_response (body : string) : Response :=
  mkResponse 200 (Some "text/html") body None.

(** One image address answers with a JPEG, one with an HTML error page,
    one with a PNG, the two listing pages with their HTML; anything else
    cannot be reached. *)
Definition net (url : string) : result Response :=
  if String.eqb url "https://i.ebayimg.com/images/g/a/s-l1600.jpg"
  then Ok (image_response "image/jpeg")
  else if String.eqb url "https://i.ebayimg.com/images/g/b/s-l1600.jpg"
  then Ok (html_response "blocked")
  else if String.eqb url "https://i.ebayimg.com/images/g/c/s-l1600.png"
  then Ok (image_response "image/png")
  else if String.eqb url "https://www.ebay.com/itm/1"
  then Ok (html_response "<html>listing 1</html>")
  else if String.eqb url "https://swappa.com/listing/view/LABC123"
  then Ok (html_response "<html>listing 2</html>")
  else Raise (Exception "ConnectionError").

(** The listing page: a title and a carousel of three thumbnails, two of
    them of the same image. *)
Definition listing : page :=
  mkPage
    [("h1.x-item-title__mainTitle span", [mkTag [] " Blue Phone (64GB) " None []]);
     ("div.ux-image-carousel-item img",
      [img_tag [("src", "https://i.ebayimg.com/images/g/a/s-l64.jpg")];
       img_tag [("src", "https://i.ebayimg.com/images/g/a/s-l300.jpg?set=1")];
       img_tag [("src", "https://i.ebayimg.com/images/g/b/s-l400.jpg")]]);
     (og_image_selector, [mkTag [("content", "https://i.ebayimg.com/og.jpg")] "" None []])]
    [].

(** A Swappa listing whose gallery gives a path without host. *)
Definition swappa_listing : page :=
  mkPage
    [("h1.listing_title", [mkTag [] "Green Phone" None []]);
     ("img.product-gallery__slide-image", [img_tag [("src", "/media/a.jpg")]])]
    [].

Definition parser (html : string) : result page :=
  if String.eqb html "<html>listing 1</html>" then Ok listing
  else if String.eqb html "<html>listing 2</html>" then Ok swappa_listing
  else Raise (Exception "ParserError").

Definition repeat_char (c : ascii) (n : nat) : string :=
  string_of_list_ascii (repeat c n).

(** A server whose JPEG breaks off while it is streamed, and an image
    library that cannot open what was downloaded. *)
Definition truncated_response : Response :=
  mkResponse 200 (Some "image/jpeg") "" (Some (Exception "ChunkedEncodingError")).

Definition truncating_net (url : string) : result Response :=
  if String.eqb url "https://i.ebayimg.com/images/g/t/s-l1600.jpg"
  then Ok truncated_response
  else net url.

Definition truncating_env : Env := env truncating_net no_fault.

Definition cannot_open (ev : Event) : option Exn :=
  match ev with
  | EvImageOpen _ => Some (Exception "UnidentifiedImageError")
  | _ => None
  end.

Definition cannot_open_env : Env := env net cannot_open.

(** A disk on which no directory can be made. *)
Definition read_only (ev : Event) : option Exn :=
  match ev with
  | EvMakedirs _ => Some (Exception "PermissionError")
  | _ => None
  end.

Definition read_only_env : Env := env net read_only.

(** The run of the fixture listing and the worlds it goes through. *)
Definition run_env : Env := env net no_fault.
Definition run_bs : BS4 page tag := bs parser.
Definition listing_url : string := "https://www.ebay.com/itm/1".
Definition listing_title : string := "Blue Phone (64GB)".
Definition listing_images : list string :=
  ["https://i.ebayimg.com/images/g/a/s-l1600.jpg";
   "https://i.ebayimg.com/images/g/b/s-l1600.jpg"].
Definition listing_folder : string := "/home/user/listing_images/Blue_Phone_(64GB)".
Definition extracted_world : World :=
  snd (scrape_ebay_listing run_env (bs := run_bs) listing_url (world ∅)).
Definition folder_world : World :=
  snd (create_folder run_env listing_title extracted_world).
Definition provenance_world : World :=
  snd (write_text run_env (Py.path_join listing_folder "source_url.txt")
         listing_url folder_world).

End Fixture.

(** ** Further notions *)

(** The answer to the request for an image is turned down: the request
    raises, the status is an error, or the content type is no image type. *)
Definition response_rejected (env : Env) (url : string) (w : World) : Prop :=
  match http_get env (trace w) url with
  | Raise _ => True
  | Ok response =>
      error_status response = true
      \/ Py.startswith (content_type response) "image/" = false
  end.

(** A response that [download_image] accepts and whose body streams to the
    end. *)
Definition good_image (response : Response) : Prop :=
  error_status response = false
  /\ Py.startswith (content_type response) "image/" = true
  /\ body_error response = None.

(** The events of a download that writes the file [target], and of one that
    then converts it to [jpg]. *)
Definition download_trace (url target : string) : list Event :=
  [EvGet url true; EvExists target; EvOpenWrite target; EvReadBody target].

Definition convert_trace (target jpg : string) : list Event :=
  [EvImageOpen target; EvImageSave jpg; EvRemove target].

(** What [process_listing] asks of an extraction before it goes on: a
    title and a list of addresses, neither empty. *)
Definition usable_extraction (extracted : option string * list string) : bool :=
  match fst extracted with
  | Some title => Py.truthy_str title && Py.truthy_list (snd extracted)
  | None => false
  end.

(** The directory [create_folder] puts the listing folders in. *)
Definition listing_root (env : Env) : string :=
  Py.path_join (home_dir env) "listing_images".

(** An event about a path is about a path that starts with [dir]. *)
Definition under (dir : string) (ev : Event) : Prop :=
  match event_path ev with
  | Some path => Py.startswith path dir = true
  | None => True
  end.

(** No condition on the counters. *)
Definition any_stats (s s' : Stats) : Prop := True.

(** The folder and its provenance file cannot be written: [create_folder]
    raises, or the write of [source_url.txt] does; [w'] is the world then. *)
Definition setup_fails (env : Env) (url title : string) (w w' : World) : Prop :=
  (exists e, create_folder env title w = (Raise e, w'))
  \/ (exists e folder_path w2,
        create_folder env title w = (Ok folder_path, w2)
        /\ write_text env (Py.path_join folder_path "source_url.txt") url w2
           = (Raise e, w')).

(** The number of image downloads requested in a run of events: the
    requests made with [stream=True]. *)
Fixpoint image_requests (evs : list Event) : Z :=
  match evs with
  | [] => 0
  | EvGet _ true :: evs' => 1 + image_requests evs'
  | _ :: evs' => image_requests evs'
  end.

(** The image counters have not gone down, and together they have gone up
    by [n] at most. *)
Definition images_within (n : Z) (s s' : Stats) : Prop :=
  successful_images s <= successful_images s'
  /\ failed_images s <= failed_images s'
  /\ successful_images s' + failed_images s'
     <= successful_images s + failed_images s + n.

(** [m] counts no more images than it requests. *)
Definition accounted {A} (m : M A) : Prop :=
  forall w, exists evs,
    trace (snd (m w)) = (trace w ++ evs)%list
    /\ images_within (image_requests evs) (stats w) (stats (snd (m w))).

(** * The Streamlit front end: [listing_image_scraper_ui.py]

    The front end loads the scraper module afresh, wraps two of its
    functions and runs the listings one after the other in a worker
    thread.  Its state is the object [st.session_state], here the record
    [Session] beside the world of the scraper.  The log messages, the
    start time and the progress fraction are for display only and are
    left out. *)

(** ** Helpers without state *)

(** [re.match(r'^https?://', url)]: the optional [s] is tried first, and
    left out when what follows is not [://]. *)
Definition http_scheme (url : string) : bool :=
  String.prefix "http" url
  && (let rest := Py.drop 4 url in
      String.prefix "s://" rest || String.prefix "://" rest).

(** One turn of the loop of [validate_urls]. *)
Definition validate_step (acc : list string * list string) (url : string)
    : list string * list string :=
  let '(valid_urls, invalid_urls) := acc in
  let url := Py.strip url in
  if negb (Py.truthy_str url) then acc
  else if negb (http_scheme url) then
    (valid_urls, (invalid_urls ++ [(url ++ " - Invalid URL format")%string])%list)
  else if negb (Py.contains "ebay" (Py.lower url))
          && negb (Py.contains "swappa" (Py.lower url)) then
    (valid_urls,
     (invalid_urls
      ++ [(url ++ " - Unsupported site (only eBay and Swappa are supported)")%string])%list)
  else ((valid_urls ++ [url])%list, invalid_urls).

Definition validate_urls (urls : list string) : list string * list string :=
  fold_left validate_step urls ([], []).

(** [s.split(sep)] for a one-character [sep]. *)
Fixpoint str_split (sep : ascii) (s : string) : list string :=
  match s with
  | EmptyString => [EmptyString]
  | String c s' =>
      if Ascii.eqb c sep then EmptyString :: str_split sep s'
      else match str_split sep s' with
           | [] => [String c EmptyString]
           | piece :: pieces => String c piece :: pieces
           end
  end.

(** [[line.strip() for line in lines if line.strip()]] *)
Definition stripped_lines (lines : list string) : list string :=
  map Py.strip (List.filter (fun line => Py.truthy_str (Py.strip line)) lines).

(** [read_urls_from_file]; [decoded] is what
    [file.getvalue().decode("utf-8")] returns or raises. *)
Definition read_urls_from_file (decoded : result string) : list string :=
  match decoded with
  | Ok content => stripped_lines (str_split Py.newline content)
  | Raise _ => []
  end.

(** [f"{n:02d}"] *)
Definition format_02d (n : Z) : string :=
  let digits := Py.str_of_int n in
  if (String.length digits <? 2)%nat then "0" ++ digits else digits.

(** [get_elapsed_time]; [elapsed] is [None] when the start time is not
    set, and else the value of [int(time.time() - start_time)]. *)
Definition get_elapsed_time (elapsed : option Z) : string :=
  match elapsed with
  | Some elapsed =>
      let '(minutes, seconds) := (elapsed / 60, elapsed mod 60) in
      let '(hours, minutes) := (minutes / 60, minutes mod 60) in
      format_02d hours ++ ":" ++ format_02d minutes ++ ":" ++ format_02d seconds
  | None => "00:00:00"
  end.

(** A line the validation lets through, once stripped. *)
Definition acceptable (url : string) : bool :=
  Py.truthy_str url
  && http_scheme url
  && (Py.contains "ebay" (Py.lower url) || Py.contains "swappa" (Py.lower url)).

(** A line of a file of addresses: no space at either end, not empty, no
    line feed. *)
Definition clean_line (line : string) : bool :=
  String.eqb (Py.strip line) line && Py.truthy_str line && no_newline line.


(** The text of one line feed, the separator of the lines of a file. *)
Definition line_feed : string := String Py.newline EmptyString.


(** ** The session state *)

(** One dictionary of [st.session_state.processed_listings]. *)
Record Entry := mkEntry {
  entry_url : string;
  entry_title : option string;
  entry_status : string;
  entry_images_found : Z;
  entry_images_downloaded : Z;
  entry_error : option string
}.

Record Session := mkSession {
  total_urls : Z;
  processed_urls : Z;
  scraping_in_progress : bool;
  scraping_complete : bool;
  current_url : option string;
  current_title : option string;
  current_images_found : Z;
  current_images_downloaded : Z;
  session_stats : Stats;                (* st.session_state.stats *)
  processed_listings : list Entry
}.

(** The state the front end works on: its session and the world of the
    scraper module it has loaded, [listing_scraper.stats] included. *)
Record UIState := mkUIState {
  session : Session;
  scraper : World
}.

(** A computation of the front end; an exception leaves the state as it
    is when it is raised. *)
Definition UI (A : Type) : Type := UIState -> result A * UIState.

Definition ui_ret {A} (a : A) : UI A := fun u => (Ok a, u).

Definition ui_bind {A B} (m : UI A) (k : A -> UI B) : UI B :=
  fun u =>
    match m u with
    | (Ok a, u') => k a u'
    | (Raise e, u') => (Raise e, u')
    end.

Definition ui_try_except {A} (body : UI A) (handler : Exn -> UI A) : UI A :=
  fun u =>
    match body u with
    | (Ok a, u') => (Ok a, u')
    | (Raise e, u') => handler e u'
    end.

(** A call into the scraper module. *)
Definition in_scraper {A} (m : M A) : UI A :=
  fun u =>
    let '(r, w) := m (scraper u) in
    (r, mkUIState (session u) w).

(** Assignments to attributes of [st.session_state]. *)
Definition update_session (f : Session -> Session) : UI unit :=
  fun u => (Ok tt, mkUIState (f (session u)) (scraper u)).

Declare Scope ui_scope.
Delimit Scope ui_scope with ui.
Notation "x <- m ;; k" := (ui_bind m (fun x => k))
  (at level 20, m at level 99, k at level 200, only parsing) : ui_scope.
Notation "m ;; k" := (ui_bind m (fun _ => k))
  (at level 100, k at level 200, only parsing, right associativity) : ui_scope.
Local Open Scope ui_scope.

Fixpoint ui_for_each {A} (xs : list A) (body : A -> UI unit) : UI unit :=
  match xs with
  | [] => ui_ret tt
  | x :: xs' => body x ;; ui_for_each xs' body
  end.

(** *** The assignments *)

(** [current_url = url], [current_title = None], [current_images_found = 0],
    [current_images_downloaded = 0] *)
Definition start_listing (url : string) (s : Session) : Session :=
  mkSession (total_urls s) (processed_urls s) (scraping_in_progress s)
    (scraping_complete s) (Some url) None 0 0 (session_stats s) (processed_listings s).

(** [current_title = title] *)
Definition set_current_title (title : option string) (s : Session) : Session :=
  mkSession (total_urls s) (processed_urls s) (scraping_in_progress s)
    (scraping_complete s) (current_url s) title (current_images_found s)
    (current_images_downloaded s) (session_stats s) (processed_listings s).

(** [current_images_found = n] *)
Definition set_current_images_found (n : Z) (s : Session) : Session :=
  mkSession (total_urls s) (processed_urls s) (scraping_in_progress s)
    (scraping_complete s) (current_url s) (current_title s) n
    (current_images_downloaded s) (session_stats s) (processed_listings s).

Definition set_session_stats (st : Stats) (s : Session) : Session :=
  mkSession (total_urls s) (processed_urls s) (scraping_in_progress s)
    (scraping_complete s) (current_url s) (current_title s) (current_images_found s)
    (current_images_downloaded s) st (processed_listings s).

(** [current_images_downloaded += 1] and [stats['successful_images'] += 1] *)
Definition count_downloaded (s : Session) : Session :=
  let st := session_stats s in
  mkSession (total_urls s) (processed_urls s) (scraping_in_progress s)
    (scraping_complete s) (current_url s) (current_title s) (current_images_found s)
    (current_images_downloaded s + 1)
    (mkStats (successful_listings st) (failed_listings st)
       (successful_images st + 1) (failed_images st))
    (processed_listings s).

(** [stats['failed_images'] += 1] *)
Definition count_failed_image (s : Session) : Session :=
  let st := session_stats s in
  set_session_stats
    (mkStats (successful_listings st) (failed_listings st)
       (successful_images st) (failed_images st + 1)) s.

(** [stats['successful_listings'] += 1] and [stats['failed_listings'] += 1] *)
Definition count_successful_listing (s : Session) : Session :=
  let st := session_stats s in
  set_session_stats
    (mkStats (successful_listings st + 1) (failed_listings st)
       (successful_images st) (failed_images st)) s.

Definition count_failed_listing (s : Session) : Session :=
  let st := session_stats s in
  set_session_stats
    (mkStats (successful_listings st) (failed_listings st + 1)
       (successful_images st) (failed_images st)) s.

(** [processed_listings.append(entry)] *)
Definition append_listing (entry : Entry) (s : Session) : Session :=
  mkSession (total_urls s) (processed_urls s) (scraping_in_progress s)
    (scraping_complete s) (current_url s) (current_title s) (current_images_found s)
    (current_images_downloaded s) (session_stats s)
    (processed_listings s ++ [entry])%list.

(** The assignments at the start of [process_urls_thread]. *)
Definition start_run (n : Z) (s : Session) : Session :=
  mkSession n 0 true false (current_url s) (current_title s) (current_images_found s)
    (current_images_downloaded s) (session_stats s) [].

(** [processed_urls += 1] *)
Definition count_processed (s : Session) : Session :=
  mkSession (total_urls s) (processed_urls s + 1) (scraping_in_progress s)
    (scraping_complete s) (current_url s) (current_title s) (current_images_found s)
    (current_images_downloaded s) (session_stats s) (processed_listings s).

(** [scraping_complete = True] *)
Definition set_complete (s : Session) : Session :=
  mkSession (total_urls s) (processed_urls s) (scraping_in_progress s)
    true (current_url s) (current_title s) (current_images_found s)
    (current_images_downloaded s) (session_stats s) (processed_listings s).

(** [scraping_in_progress = False] *)
Definition set_idle (s : Session) : Session :=
  mkSession (total_urls s) (processed_urls s) false
    (scraping_complete s) (current_url s) (current_title s) (current_images_found s)
    (current_images_downloaded s) (session_stats s) (processed_listings s).

(** ** The wrappers *)

Section FrontEnd.
Context (env : Env) {Soup Tag : Type} {bs : BS4 Soup Tag}.

(** [custom_download_image]; [original_download_image] is the function
    of the module just loaded. *)
Definition custom_download_image (url folder_path filename : string) (index : Z)
    : UI bool :=
  ui_try_except
    (result <- in_scraper (download_image env url folder_path filename index) ;;
     if result then
       update_session count_downloaded ;;
       ui_ret result
     else
       update_session count_failed_image ;;
       ui_ret result)
    (fun _ =>
       update_session count_failed_image ;;
       ui_ret false).

(** [custom_create_folder], the closure over [output_dir]. *)
Definition custom_create_folder (output_dir folder_name : string) : M string :=
  let folder_name := sanitize_filename folder_name in
  let folder_path := Py.path_join output_dir folder_name in
  (os_makedirs env folder_path ;;
   ret folder_path)%py.

(** What [listing_scraper.create_folder] is bound to while
    [process_urls_thread] runs with [output_dir]. *)
Definition create_folder_bound (output_dir : option string) : string -> M string :=
  match output_dir with
  | Some dir => if Py.truthy_str dir then custom_create_folder dir else create_folder env
  | None => create_folder env
  end.

(** The three statements that end a failed listing: the two counters and
    the entry, which may read the session. *)
Definition fail_listing (entry : Session -> Entry) : UI bool :=
  in_scraper incr_failed_listings ;;
  update_session count_failed_listing ;;
  update_session (fun s => append_listing (entry s) s) ;;
  ui_ret false.

(** [custom_process_listing] from [current_title = title] on. *)
Definition custom_process_extracted (output_dir : option string) (url : string)
    (extracted : option string * list string) : UI bool :=
  let '(title, image_urls) := extracted in
  update_session (set_current_title title) ;;
  match title with
  | Some title_text =>
      if negb (Py.truthy_str title_text) || negb (Py.truthy_list image_urls) then
        fail_listing
          (fun _ => mkEntry url title "failed" 0 0
                      (Some "Failed to extract title or images"))
      else
        folder_path <- in_scraper (create_folder_bound output_dir title_text) ;;
        in_scraper (write_text env (Py.path_join folder_path "source_url.txt") url) ;;
        update_session (set_current_images_found (Z.of_nat (length image_urls))) ;;
        let filename_base := sanitize_filename title_text in
        ui_for_each (enumerate image_urls)
          (fun '(i, img_url) =>
             custom_download_image img_url folder_path filename_base (i + 1) ;;
             ui_ret tt) ;;
        in_scraper incr_successful_listings ;;
        update_session count_successful_listing ;;
        update_session
          (fun s => append_listing
                      (mkEntry url title "completed" (Z.of_nat (length image_urls))
                         (current_images_downloaded s) None) s) ;;
        ui_ret true
  | None =>
      fail_listing
        (fun _ => mkEntry url title "failed" 0 0
                    (Some "Failed to extract title or images"))
  end.

Definition custom_process_listing (output_dir : option string) (url : string) : UI bool :=
  ui_try_except
    (update_session (start_listing url) ;;
     netloc <- in_scraper (lift (url_netloc env url)) ;;
     let domain := Py.lower netloc in
     if Py.contains "ebay" domain then
       extracted <- in_scraper (scrape_ebay_listing env url) ;;
       custom_process_extracted output_dir url extracted
     else if Py.contains "swappa" domain then
       extracted <- in_scraper (scrape_swappa_listing env url) ;;
       custom_process_extracted output_dir url extracted
     else
       fail_listing
         (fun _ => mkEntry url None "failed" 0 0
                     (Some ("Unsupported site: " ++ domain))))
    (fun '(Exception msg) =>
       fail_listing
         (fun s => mkEntry url (current_title s) "failed" (current_images_found s)
                     (current_images_downloaded s) (Some msg))).

(** [process_urls_thread]: the counters of the scraper are set to zero,
    the listings are processed one after the other, and the [finally]
    clause marks the end. *)
Definition process_urls_thread (urls : list string) (output_dir : option string)
    : UI unit :=
  in_scraper (update_stats (fun _ => mkStats 0 0 0 0)) ;;
  update_session (start_run (Z.of_nat (length urls))) ;;
  ui_try_except
    (ui_for_each urls
       (fun url =>
          custom_process_listing output_dir url ;;
          update_session count_processed) ;;
     update_session set_complete)
    (fun _ => ui_ret tt) ;;
  update_session set_idle.

End FrontEnd.

Close Scope ui_scope.

(** ** Notions of the statements on the front end *)

(** One listing counted in [s'] after [s]: as a success or as a failure. *)
Definition listing_counted (ok : bool) (s s' : Stats) : Prop :=
  if ok
  then successful_listings s' = successful_listings s + 1
       /\ failed_listings s' = failed_listings s
  else failed_listings s' = failed_listings s + 1
       /\ successful_listings s' = successful_listings s.

(** The fields of the run are as before: the two progress counters and
    the two flags. *)
Definition run_fields_kept (s s' : Session) : Prop :=
  total_urls s' = total_urls s
  /\ processed_urls s' = processed_urls s
  /\ scraping_in_progress s' = scraping_in_progress s
  /\ scraping_complete s' = scraping_complete s.

(** What a call of [custom_process_listing] for [url] has done when it
    returns [ok]: one entry more, for that address and with the matching
    status, whose number of downloaded images is the number of successful
    images the session has counted meanwhile; and one listing counted, in
    the session and in the scraper alike. *)
Definition listing_recorded (url : string) (ok : bool) (u u' : UIState) : Prop :=
  exists entry,
    processed_listings (session u') = (processed_listings (session u) ++ [entry])%list
    /\ entry_url entry = url
    /\ entry_status entry = (if ok then "completed" else "failed")
    /\ entry_images_downloaded entry
       = successful_images (session_stats (session u'))
         - successful_images (session_stats (session u))
    /\ listing_counted ok (session_stats (session u)) (session_stats (session u'))
    /\ listing_counted ok (stats (scraper u)) (stats (scraper u'))
    /\ run_fields_kept (session u) (session u').

(** The number of entries with a status. *)
Definition count_status (status : string) (entries : list Entry) : Z :=
  Z.of_nat (length (List.filter (fun e => String.eqb (entry_status e) status) entries)).

(** A triple for the front end: from a state of [Pre], [m] returns in a
    state of [Post] or raises in a state of [Exc]. *)
Definition ui_triple {A} (Pre : UIState -> Prop) (m : UI A)
    (Post : A -> UIState -> Prop) (Exc : UIState -> Prop) : Prop :=
  forall u, Pre u ->
    match m u with
    | (Ok a, u') => Post a u'
    | (Raise _, u') => Exc u'
    end.

(** The front end [m] does to the world of the scraper what [c] does,
    and returns or raises as [c] does. *)
Definition follows {A} (m : UI A) (c : M A) : Prop :=
  forall u, fst (m u) = fst (c (scraper u)) /\ scraper (snd (m u)) = snd (c (scraper u)).


(** The events of [tr'] after those of [tr] are all on paths that start
    with [dir]. *)
Definition grown_under (dir : string) (tr tr' : list Event) : Prop :=
  exists evs, tr' = (tr ++ evs)%list /\ Forall (under dir) evs.


(** A session at its initial values and the state of a front end that has
    just loaded the scraper, for the examples. *)
Module FrontEndFixture.

Definition session0 : Session :=
  mkSession 0 0 false false None None 0 0 (mkStats 0 0 0 0) [].

Definition state0 : UIState := mkUIState session0 (Fixture.world ∅).

End FrontEndFixture.


(** The images the session has counted, downloaded or failed. *)
Definition session_images (s : Session) : Z :=
  successful_images (session_stats s) + failed_images (session_stats s).

(** The event is no request for an image. *)
Definition not_image_request (ev : Event) : Prop := image_requests [ev] = 0.

(** * Properties *)

(** ** Strings *)

Section StringFacts.

(** The two equations of concatenation. *)
Lemma append_nil (b : string) : "" ++ b = b.
Proof. reflexivity. Qed.

Lemma append_cons (c : ascii) (a b : string) : String c a ++ b = String c (a ++ b).
Proof. reflexivity. Qed.

Lemma append_assoc (a b c : string) : (a ++ b) ++ c = a ++ (b ++ c).
Proof.
  induction a as [|d a IH]; [reflexivity|].
  now rewrite !append_cons, IH.
Qed.

Lemma append_nil_r (a : string) : a ++ "" = a.
Proof. induction a as [|d a IH]; [reflexivity|]. now rewrite append_cons, IH. Qed.

Lemma length_take (n : nat) (s : string) :
  String.length (Py.take n s) = Nat.min n (String.length s).
Proof.
  unfold Py.take. revert n.
  induction s as [|c s IH]; intros [|n]; simpl; auto.
Qed.

Lemma length_append (a b : string) :
  String.length (a ++ b) = (String.length a + String.length b)%nat.
Proof. induction a as [|c a IH]; simpl; auto. Qed.

Lemma forallb_append (p : ascii -> bool) (a b : string) :
  Py.forallb p (a ++ b) = Py.forallb p a && Py.forallb p b.
Proof.
  induction a as [|c a IH]; simpl; [reflexivity|].
  rewrite IH. apply andb_assoc.
Qed.

Lemma forallb_take (p : ascii -> bool) (n : nat) (s : string) :
  Py.forallb p s = true -> Py.forallb p (Py.take n s) = true.
Proof.
  unfold Py.take. revert n.
  induction s as [|c s IH]; intros [|n] H; simpl in *; auto.
  apply andb_true_iff in H as [Hc Hs]. rewrite Hc. simpl. auto.
Qed.

Lemma forallb_filter (p : ascii -> bool) (s : string) :
  Py.forallb p (Py.filter p s) = true.
Proof.
  induction s as [|c s IH]; simpl; [reflexivity|].
  destruct (p c) eqn:Hc; simpl; [rewrite Hc|]; auto.
Qed.

(** Replacing a one-character text works character by character. *)
Lemma replace_char (a b : ascii) (s : string) :
  Py.replace (String a "") (String b "") s
  = map_chars (fun c => if Ascii.eqb c a then b else c) s.
Proof.
  unfold Py.replace.
  induction s as [|c s IH]; simpl; [reflexivity|].
  destruct (ascii_dec a c) as [->|Hne].
  - rewrite Ascii.eqb_refl.
    replace (String.prefix "" s) with true by (destruct s; reflexivity).
    simpl. now rewrite IH.
  - destruct (Ascii.eqb c a) eqn:E.
    + apply Ascii.eqb_eq in E. congruence.
    + simpl. now rewrite IH.
Qed.

Lemma length_map_chars (f : ascii -> ascii) (s : string) :
  String.length (map_chars f s) = String.length s.
Proof. induction s; simpl; auto. Qed.

Lemma forallb_map_chars (p q : ascii -> bool) (f : ascii -> ascii) (s : string) :
  (forall c, p c = true -> q (f c) = true) ->
  Py.forallb p s = true -> Py.forallb q (map_chars f s) = true.
Proof.
  intros Hf. induction s as [|c s IH]; simpl; [reflexivity|].
  intros H. apply andb_true_iff in H as [Hc Hs].
  rewrite (Hf _ Hc). simpl. auto.
Qed.

Lemma substring_all (b : string) : substring 0 (String.length b) b = b.
Proof. induction b as [|d b IH]; simpl; [reflexivity|]. now rewrite IH. Qed.

Lemma substring_skip (a b : string) :
  substring (String.length a) (String.length b) (a ++ b) = b.
Proof.
  induction a as [|c a IH]; simpl; [apply substring_all|exact IH].
Qed.

Lemma endswith_append (a b : string) : Py.endswith (a ++ b) b = true.
Proof.
  unfold Py.endswith. rewrite length_append.
  replace (String.length a + String.length b - String.length b)%nat
    with (String.length a) by lia.
  rewrite substring_skip, String.eqb_refl.
  apply andb_true_iff. split; [|reflexivity].
  apply Nat.leb_le. lia.
Qed.

(** A valid character other than the space, and the underscore that
    stands for a space, are in the class of the specification. *)
Lemma valid_char_allowed (c : ascii) :
  Py.char_in c valid_chars = true ->
  allowed_char (if Ascii.eqb c " " then "_"%char else c) = true.
Proof.
  destruct c as [[] [] [] [] [] [] [] []]; vm_compute; congruence.
Qed.

End StringFacts.

(** ** [sanitize_filename] *)

(** What is left of a name once the characters outside [valid_chars] are
    removed and the spaces replaced: the text [sanitize_filename] measures
    and cuts. *)
Lemma sanitize_filename_unfold (name : string) :
  let kept := Py.filter (fun c => Py.char_in c valid_chars) name in
  let sanitized := map_chars (fun c => if Ascii.eqb c " " then "_"%char else c) kept in
  sanitize_filename name
  = if (100 <? String.length kept)%nat then Py.take 97 sanitized ++ "..." else sanitized.
Proof.
  unfold sanitize_filename.
  change " " with (String " "%char "") at 1.
  change "_" with (String "_"%char "").
  rewrite replace_char, length_map_chars. reflexivity.
Qed.

(** C3, as amended.  For every name, [sanitize_filename] returns a text of
    characters of [[A-Za-z0-9_.()-]] only, of length at most 100, and that
    ends with the marker [...] whenever more than 100 characters of the
    name are left once those outside the valid set are removed. *)
Theorem sanitize_filename_charset_length_marker (name : string) :
  Py.forallb allowed_char (sanitize_filename name) = true
  /\ (String.length (sanitize_filename name) <= 100)%nat
  /\ ((100 < String.length (Py.filter (fun c => Py.char_in c valid_chars) name))%nat ->
      Py.endswith (sanitize_filename name) "..." = true
      /\ String.length (sanitize_filename name) = 100%nat).
Proof.
  rewrite sanitize_filename_unfold. cbv zeta.
  set (kept := Py.filter _ name).
  set (sanitized := map_chars _ kept).
  assert (Hchars : Py.forallb allowed_char sanitized = true).
  { apply forallb_map_chars with (p := fun c => Py.char_in c valid_chars).
    - exact valid_char_allowed.
    - apply forallb_filter. }
  assert (Hlen : String.length sanitized = String.length kept)
    by apply length_map_chars.
  destruct (100 <? String.length kept)%nat eqn:Hlong.
  - apply Nat.ltb_lt in Hlong.
    assert (Hcut : String.length (Py.take 97 sanitized ++ "...") = 100%nat).
    { rewrite length_append, length_take.
      change (String.length "...") with 3%nat. lia. }
    split; [|split].
    + rewrite forallb_append, (forallb_take _ _ _ Hchars). reflexivity.
    + lia.
    + intros _. split; [apply endswith_append | exact Hcut].
  - apply Nat.ltb_ge in Hlong.
    split; [exact Hchars | split; [lia | intros H; exfalso; lia]].
Qed.

(** C3 as stated fails: a title of 101 characters, a hundred letters and
    an exclamation mark, is longer than 100 characters, yet its sanitized
    form is the hundred letters, without the marker. *)
Lemma sanitize_filename_long_input_without_marker :
  let name := Fixture.repeat_char "a" 100 ++ "!" in
  String.length name = 101%nat
  /\ sanitize_filename name = Fixture.repeat_char "a" 100
  /\ Py.endswith (sanitize_filename name) "..." = false.
Proof. vm_compute. auto. Qed.

(** The amended statement at a title with 101 valid characters. *)
Lemma sanitize_filename_marker_witness :
  let name := Fixture.repeat_char "a" 101 in
  Py.endswith (sanitize_filename name) "..." = true
  /\ String.length (sanitize_filename name) = 100%nat.
Proof.
  apply (sanitize_filename_charset_length_marker (Fixture.repeat_char "a" 101)).
  vm_compute. lia.
Defined.

(** ** The scanners of [re] *)

Section ReFacts.
Variables (m : string -> option nat) (repl : string).

Lemma drop_nil (n : nat) : Py.drop n "" = "".
Proof. destruct n; reflexivity. Qed.

Lemma drop_drop (a b : nat) (s : string) :
  Py.drop a (Py.drop b s) = Py.drop (b + a) s.
Proof.
  revert s. induction b as [|b IH]; intros s; simpl; [reflexivity|].
  destruct s as [|c s]; [apply drop_nil | apply IH].
Qed.

Lemma drop_app (a b : string) : Py.drop (String.length a) (a ++ b) = b.
Proof. induction a as [|c a IH]; simpl; auto. Qed.

Lemma length_drop (n : nat) (s : string) :
  String.length (Py.drop n s) = (String.length s - n)%nat.
Proof.
  revert n. induction s as [|c s IH]; intros [|n]; simpl; auto.
Qed.

(** Passing over [n] characters is scanning what is left after them. *)
Lemma sub_scan_drop (n : nat) (s : string) :
  Re.sub_scan m repl n s = Re.sub_scan m repl 0 (Py.drop n s).
Proof.
  revert n. induction s as [|c s IH]; intros [|n]; simpl; auto.
Qed.

(** The equation of [re.sub]: replace the match at the head and go on
    after it, or keep the first character and go on. *)
Lemma sub_cons (c : ascii) (s : string) :
  Re.sub m repl (String c s)
  = match m (String c s) with
    | Some (S n) => repl ++ Re.sub m repl (Py.drop n s)
    | _ => String c (Re.sub m repl s)
    end.
Proof.
  unfold Re.sub. simpl.
  destruct (m (String c s)) as [[|n]|]; try reflexivity.
  now rewrite sub_scan_drop.
Qed.

Lemma forallb_sub_scan (q : ascii -> bool) (n : nat) (s : string) :
  Py.forallb q repl = true -> Py.forallb q s = true ->
  Py.forallb q (Re.sub_scan m repl n s) = true.
Proof.
  intros Hr. revert n.
  induction s as [|c s IH]; intros n Hs; simpl in *; [reflexivity|].
  apply andb_true_iff in Hs as [Hc Hs].
  destruct n as [|n]; [|now apply IH].
  destruct (m (String c s)) as [[|k]|]; simpl.
  - rewrite Hc. now apply IH.
  - rewrite forallb_append, Hr. now apply IH.
  - rewrite Hc. now apply IH.
Qed.

Lemma span_le (p : ascii -> bool) (s : string) :
  (Re.span p s <= String.length s)%nat.
Proof.
  induction s as [|c s IH]; simpl; [lia|].
  destruct (p c); simpl; lia.
Qed.

Lemma span_app_stop (p : ascii -> bool) (u : string) (c : ascii) (y : string) :
  p c = false -> Re.span p (u ++ String c y) = Re.span p u.
Proof.
  intros Hc. induction u as [|d u IH]; simpl.
  - now rewrite Hc.
  - destruct (p d); [now rewrite IH | reflexivity].
Qed.

Lemma span_all (p : ascii -> bool) (u v : string) :
  Py.forallb p u = true ->
  Re.span p (u ++ v) = (String.length u + Re.span p v)%nat.
Proof.
  induction u as [|d u IH]; simpl; [reflexivity|].
  intros H. apply andb_true_iff in H as [Hd Hu].
  rewrite Hd. now rewrite IH.
Qed.

Lemma span_full (p : ascii -> bool) (u : string) :
  Py.forallb p u = true -> Re.span p u = String.length u.
Proof.
  induction u as [|d u IH]; simpl; [reflexivity|].
  intros H. apply andb_true_iff in H as [Hd Hu].
  rewrite Hd. now rewrite IH.
Qed.

(** A greedy star stops where its class stops. *)
Lemma span_drop_span (p : ascii -> bool) (s : string) :
  Re.span p (Py.drop (Re.span p s) s) = O.
Proof.
  induction s as [|c s IH]; simpl; [reflexivity|].
  destruct (p c) eqn:Hc; simpl; [exact IH | now rewrite Hc].
Qed.

End ReFacts.

Lemma prefix_cons (a b : ascii) (p s : string) :
  String.prefix (String a p) (String b s) = Ascii.eqb a b && String.prefix p s.
Proof.
  simpl. destruct (ascii_dec a b) as [->|Hne].
  - now rewrite Ascii.eqb_refl.
  - destruct (Ascii.eqb a b) eqn:E; [|reflexivity].
    apply Ascii.eqb_eq in E. congruence.
Qed.

Lemma prefix_nil_r (a : ascii) (p : string) : String.prefix (String a p) "" = false.
Proof. reflexivity. Qed.

Lemma prefix_nil (s : string) : String.prefix "" s = true.
Proof. destruct s; reflexivity. Qed.

Lemma prefix_true (p s : string) :
  String.prefix p s = true -> s = p ++ Py.drop (String.length p) s.
Proof.
  revert s. induction p as [|a p IH]; intros s H; [reflexivity|].
  destruct s as [|b s]; [discriminate|].
  rewrite prefix_cons in H. apply andb_true_iff in H as [Hab Hp].
  apply Ascii.eqb_eq in Hab. subst b. rewrite append_cons. simpl. f_equal. now apply IH.
Qed.

(** ** The size token [s-l<digits>] *)

Section SizeToken.

Local Abbreviation resize := (Re.sub Re.size_token "s-l1600").

Lemma size_token_inv (s : string) (n : nat) :
  Re.size_token s = Some n ->
  exists r d, s = "s-l" ++ r /\ Re.span Py.is_digit r = S d /\ n = (4 + d)%nat.
Proof.
  unfold Re.size_token.
  destruct (String.prefix "s-l" s) eqn:Hp; [|discriminate].
  apply prefix_true in Hp. simpl String.length in Hp.
  destruct (Re.span Py.is_digit (Py.drop 3 s)) as [|d] eqn:Hd; [discriminate|].
  intros [= <-]. exists (Py.drop 3 s), d. auto.
Qed.

Lemma size_token_token (r : string) (d : nat) :
  Re.span Py.is_digit r = S d -> Re.size_token ("s-l" ++ r) = Some (4 + d)%nat.
Proof.
  intros H. unfold Re.size_token.
  change ("s-l" ++ r) with (String "s" (String "-" (String "l" r))).
  rewrite !prefix_cons, prefix_nil. simpl. now rewrite H.
Qed.

Lemma size_token_le (s : string) (n : nat) :
  Re.size_token s = Some n -> (4 <= n <= String.length s)%nat.
Proof.
  intros H. apply size_token_inv in H as (r & d & -> & Hd & ->).
  pose proof (span_le Py.is_digit r) as Hle.
  rewrite length_append. simpl String.length. lia.
Qed.

Lemma size_token_other (c : ascii) (s : string) :
  Ascii.eqb "s" c = false -> Re.size_token (String c s) = None.
Proof.
  intros H. unfold Re.size_token. now rewrite prefix_cons, H.
Qed.

(** What follows a text across a stop character has no part in the match
    at the head of the text. *)
Lemma size_token_app_stop (a : string) (c : ascii) (y : string) :
  a <> "" -> token_stop c = true ->
  Re.size_token (a ++ String c y) = Re.size_token a.
Proof.
  intros Ha Hc.
  apply andb_true_iff in Hc as [Hc Hl]. apply andb_true_iff in Hc as [Hd Hh].
  apply negb_true_iff in Hd, Hh, Hl.
  unfold Re.size_token.
  destruct a as [|a1 [|a2 [|a3 a]]]; [congruence| | |].
  - rewrite !append_cons, append_nil, !prefix_cons, Hh, prefix_nil_r.
    now rewrite !andb_false_r.
  - rewrite !append_cons, append_nil, !prefix_cons, Hl, prefix_nil_r.
    now rewrite !andb_false_r.
  - rewrite !append_cons, !prefix_cons, !prefix_nil. simpl Py.drop.
    now rewrite span_app_stop.
Qed.

(** The scan of a text does not look across a stop character. *)
Lemma sub_scan_app_stop (a : string) (c : ascii) (y : string) (skip : nat) :
  token_stop c = true -> (skip <= String.length a)%nat ->
  Re.sub_scan Re.size_token "s-l1600" skip (a ++ String c y)
  = Re.sub_scan Re.size_token "s-l1600" skip a ++ resize (String c y).
Proof.
  intros Hc. revert skip.
  induction a as [|a1 a IH]; intros skip Hskip; simpl in Hskip.
  - replace skip with O by lia. reflexivity.
  - rewrite append_cons. simpl Re.sub_scan.
    destruct skip as [|k]; [|apply IH; lia].
    rewrite <- append_cons, size_token_app_stop by (auto; discriminate).
    destruct (Re.size_token (String a1 a)) as [[|n]|] eqn:Hm.
    + now rewrite IH, append_cons by lia.
    + apply size_token_le in Hm. simpl in Hm.
      now rewrite IH, append_assoc by lia.
    + now rewrite IH, append_cons by lia.
Qed.

Lemma resize_app_stop (a : string) (c : ascii) (y : string) :
  token_stop c = true ->
  resize (a ++ String c y) = resize a ++ resize (String c y).
Proof. intros Hc. apply sub_scan_app_stop; [exact Hc | lia]. Qed.

(** A size token at the head becomes the canonical one, whatever its
    digits; the scan resumes after the digits. *)
Lemma resize_token (d b : string) :
  is_digits d = true ->
  resize ("s-l" ++ d ++ b)
  = "s-l1600" ++ resize (Py.drop (Re.span Py.is_digit b) b).
Proof.
  intros Hd. apply andb_true_iff in Hd as [Hall Hne].
  destruct d as [|d0 d]; [discriminate|].
  assert (Hspan : Re.span Py.is_digit (String d0 d ++ b)
                  = S (String.length d + Re.span Py.is_digit b)).
  { now rewrite span_all by exact Hall. }
  change ("s-l" ++ String d0 d ++ b) with (String "s" ("-l" ++ String d0 d ++ b)).
  rewrite sub_cons.
  change (String "s" ("-l" ++ String d0 d ++ b)) with ("s-l" ++ (String d0 d ++ b)).
  rewrite (size_token_token _ _ Hspan).
  f_equal. f_equal.
  change (4 + (String.length d + Re.span Py.is_digit b))%nat
    with (S (S (S (S (String.length d + Re.span Py.is_digit b))))).
  change ("-l" ++ String d0 d ++ b) with (String "-" (String "l" (String d0 (d ++ b)))).
  simpl Py.drop.
  rewrite <- drop_drop. now rewrite drop_app.
Qed.

(** The first character of a text survives the scan. *)
Lemma resize_head (s : string) (c : ascii) (t : string) :
  resize s = String c t -> exists s', s = String c s'.
Proof.
  destruct s as [|c0 s]; [discriminate|].
  rewrite sub_cons.
  destruct (Re.size_token (String c0 s)) as [[|n]|] eqn:Hm.
  - intros [= <- _]. eauto.
  - apply size_token_inv in Hm as (r & d & Hs & _ & _).
    change ("s-l" ++ r) with (String "s" ("-l" ++ r)) in Hs.
    injection Hs as -> _.
    change ("s-l1600" ++ resize (Py.drop n s))
      with (String "s" ("-l1600" ++ resize (Py.drop n s))).
    intros [= <- _]. eauto.
  - intros [= <- _]. eauto.
Qed.

Lemma resize_cons_other (c : ascii) (s : string) :
  Ascii.eqb "s" c = false -> resize (String c s) = String c (resize s).
Proof. intros H. now rewrite sub_cons, size_token_other. Qed.

Lemma span_resize_zero (y : string) :
  Re.span Py.is_digit y = O -> Re.span Py.is_digit (resize y) = O.
Proof.
  destruct y as [|c y]; [reflexivity|].
  simpl. destruct (Py.is_digit c) eqn:Hc; [discriminate|]. intros _.
  rewrite sub_cons.
  destruct (Re.size_token (String c y)) as [[|n]|]; simpl; try now rewrite Hc.
  reflexivity.
Qed.

(** The scan neither creates nor destroys a match at the head. *)
Lemma size_token_resize_none (c : ascii) (u : string) :
  Re.size_token (String c u) = None -> Re.size_token (String c (resize u)) = None.
Proof.
  intros Hnone.
  destruct (Re.size_token (String c (resize u))) as [n|] eqn:E; [exfalso|reflexivity].
  apply size_token_inv in E as (r & d & Hs & Hd & _).
  change ("s-l" ++ r) with (String "s" (String "-" (String "l" r))) in Hs.
  injection Hs as -> Hu.
  destruct (resize_head _ _ _ Hu) as [u2 ->].
  rewrite resize_cons_other in Hu by reflexivity. injection Hu as Hu.
  destruct (resize_head _ _ _ Hu) as [u3 ->].
  rewrite resize_cons_other in Hu by reflexivity. injection Hu as Hu.
  destruct r as [|d0 r]; [discriminate|].
  simpl in Hd. destruct (Py.is_digit d0) eqn:Hd0; [|discriminate].
  destruct (resize_head _ _ _ Hu) as [u4 ->].
  unfold Re.size_token in Hnone. rewrite !prefix_cons, prefix_nil in Hnone.
  simpl in Hnone. rewrite Hd0 in Hnone. discriminate.
Qed.

Lemma resize_canonical (z : string) :
  Re.span Py.is_digit z = O -> resize ("s-l1600" ++ z) = "s-l1600" ++ resize z.
Proof.
  intros Hz.
  change ("s-l1600" ++ z) with (String "s" ("-l1600" ++ z)).
  rewrite sub_cons.
  change (String "s" ("-l1600" ++ z)) with ("s-l" ++ ("1600" ++ z)).
  rewrite (size_token_token _ 3).
  - reflexivity.
  - rewrite (span_all Py.is_digit "1600" z) by reflexivity. now rewrite Hz.
Qed.

(** Scanning twice is scanning once. *)
Lemma resize_idempotent (u : string) : resize (resize u) = resize u.
Proof.
  remember (String.length u) as k eqn:Hk.
  revert u Hk. induction k as [k IH] using lt_wf_ind. intros u Hk.
  destruct u as [|c u]; [reflexivity|].
  rewrite sub_cons.
  destruct (Re.size_token (String c u)) as [[|n]|] eqn:Hm.
  - apply size_token_le in Hm. lia.
  - assert (Hstop : Re.span Py.is_digit (Py.drop n u) = O).
    { apply size_token_inv in Hm as (r & d & Hs & Hd & Hn).
      change ("s-l" ++ r) with (String "s" ("-l" ++ r)) in Hs.
      injection Hs as _ ->. injection Hn as ->.
      change (Py.drop (3 + d) ("-l" ++ r)) with (Py.drop (S d) r).
      rewrite <- Hd. apply span_drop_span. }
    rewrite resize_canonical by now apply span_resize_zero.
    f_equal. apply (IH (String.length (Py.drop n u))); [|reflexivity].
    subst k. rewrite length_drop. simpl. lia.
  - rewrite sub_cons, size_token_resize_none by exact Hm.
    f_equal. apply (IH (String.length u)); [subst k; simpl; lia | reflexivity].
Qed.

End SizeToken.

(** ** The query string and [normalize_image_url] *)

Section Normalize.

Local Abbreviation resize := (Re.sub Re.size_token "s-l1600").
Local Abbreviation unquery := (Re.sub Re.query_tail "").
Local Abbreviation not_newline := (fun c : ascii => negb (Py.is_newline c)).
Local Abbreviation not_qmark := (fun c : ascii => negb (Ascii.eqb c "?")).

Lemma normalize_image_url_unfold (url : string) :
  normalize_image_url url = unquery (resize url).
Proof. reflexivity. Qed.

(** On a text without line feed the pattern matches at the first
    question mark and reaches the end: the text is cut there. *)
Lemma unquery_no_newline (w : string) :
  no_newline w = true -> unquery w = Py.split_head "?" w.
Proof.
  unfold no_newline.
  induction w as [|c w IH]; [reflexivity|].
  simpl Py.forallb. intros H. apply andb_true_iff in H as [Hc Hw].
  rewrite sub_cons. simpl Py.split_head.
  destruct (Ascii.eqb c "?") eqn:Hq.
  - apply Ascii.eqb_eq in Hq. subst c. simpl Re.query_tail.
    rewrite (span_full _ _ Hw).
    replace (Py.drop (String.length w) w) with "".
    + replace (Py.drop (String.length w) w) with "".
      * reflexivity.
      * rewrite <- (append_nil_r w) at 2. now rewrite drop_app.
    + rewrite <- (append_nil_r w) at 2. now rewrite drop_app.
  - replace (Re.query_tail (String c w)) with (@None nat).
    + now rewrite IH.
    + unfold Re.query_tail.
      destruct c as [[] [] [] [] [] [] [] []]; try reflexivity; discriminate.
Qed.

Lemma forallb_resize (q : ascii -> bool) (s : string) :
  Py.forallb q "s-l1600" = true -> Py.forallb q s = true ->
  Py.forallb q (resize s) = true.
Proof. apply forallb_sub_scan. Qed.

Lemma forallb_split_head (q : ascii -> bool) (c : ascii) (s : string) :
  Py.forallb q s = true -> Py.forallb q (Py.split_head c s) = true.
Proof.
  induction s as [|d s IH]; simpl; [reflexivity|].
  intros H. apply andb_true_iff in H as [Hd Hs].
  destruct (Ascii.eqb d c); simpl; [reflexivity|]. rewrite Hd. now apply IH.
Qed.

Lemma split_head_free (s : string) :
  Py.forallb not_qmark (Py.split_head "?" s) = true.
Proof.
  induction s as [|d s IH]; simpl; [reflexivity|].
  destruct (Ascii.eqb d "?") eqn:E; simpl; [reflexivity|]. now rewrite E.
Qed.

Lemma split_head_none (s : string) :
  Py.forallb not_qmark s = true -> Py.split_head "?" s = s.
Proof.
  induction s as [|d s IH]; simpl; [reflexivity|].
  intros H. apply andb_true_iff in H as [Hd Hs].
  apply negb_true_iff in Hd. rewrite Hd. now rewrite IH.
Qed.

Lemma split_head_app (p q : string) :
  Py.split_head "?" (p ++ String "?" q) = Py.split_head "?" p.
Proof.
  induction p as [|d p IH]; [reflexivity|].
  rewrite append_cons. simpl. destruct (Ascii.eqb d "?"); [reflexivity|].
  now rewrite IH.
Qed.

(** A text is what stands before its first question mark, alone or
    followed by that mark and a rest. *)
Lemma split_head_decompose (s : string) :
  s = Py.split_head "?" s \/ exists q, s = Py.split_head "?" s ++ String "?" q.
Proof.
  induction s as [|d s IH]; [now left|].
  simpl. destruct (Ascii.eqb d "?") eqn:E.
  - apply Ascii.eqb_eq in E. subst d. right. now exists s.
  - destruct IH as [IH | [q IH]].
    + left. now rewrite <- IH.
    + right. exists q. rewrite append_cons. now rewrite <- IH.
Qed.

Lemma resize_qmark (q : string) : resize (String "?" q) = String "?" (resize q).
Proof. now apply resize_cons_other. Qed.

(** Cutting at the question mark and rewriting the size tokens can be done
    in either order. *)
Lemma resize_split_head (w : string) :
  resize (Py.split_head "?" w) = Py.split_head "?" (resize w).
Proof.
  destruct (split_head_decompose w) as [Hw | [q Hw]].
  - rewrite <- Hw. symmetry. apply split_head_none.
    apply forallb_resize; [reflexivity|]. rewrite Hw. apply split_head_free.
  - rewrite Hw at 2.
    rewrite resize_app_stop by reflexivity.
    rewrite resize_qmark, split_head_app.
    symmetry. apply split_head_none.
    apply forallb_resize; [reflexivity | apply split_head_free].
Qed.

(** The normalized form of an address without line feed: size tokens
    rewritten, then cut at the first question mark. *)
Lemma normalize_no_newline (u : string) :
  no_newline u = true ->
  normalize_image_url u = Py.split_head "?" (resize u).
Proof.
  intros Hu. rewrite normalize_image_url_unfold.
  apply unquery_no_newline. now apply forallb_resize.
Qed.

(** Two addresses that differ in the digits of one size token. *)
Lemma normalize_size_token (a b d1 d2 : string) :
  is_digits d1 = true -> is_digits d2 = true ->
  normalize_image_url (a ++ "s-l" ++ d1 ++ b)
  = normalize_image_url (a ++ "s-l" ++ d2 ++ b).
Proof.
  intros H1 H2. rewrite !normalize_image_url_unfold. f_equal.
  change (a ++ "s-l" ++ d1 ++ b) with (a ++ String "s" ("-l" ++ d1 ++ b)).
  change (a ++ "s-l" ++ d2 ++ b) with (a ++ String "s" ("-l" ++ d2 ++ b)).
  rewrite !resize_app_stop by reflexivity.
  change (String "s" ("-l" ++ d1 ++ b)) with ("s-l" ++ d1 ++ b).
  change (String "s" ("-l" ++ d2 ++ b)) with ("s-l" ++ d2 ++ b).
  now rewrite !resize_token.
Qed.

(** An address with a trailing query string normalizes as the address
    before it. *)
Lemma normalize_query (p q : string) :
  is_query q = true -> no_newline (p ++ q) = true ->
  normalize_image_url (p ++ q) = Py.split_head "?" (resize p).
Proof.
  intros Hq Hn. rewrite normalize_no_newline by exact Hn.
  unfold is_query in Hq. apply orb_true_iff in Hq as [Hq | Hq].
  - apply String.eqb_eq in Hq. subst q. now rewrite append_nil_r.
  - apply prefix_true in Hq. simpl String.length in Hq. simpl Py.drop in Hq.
    destruct q as [|c q]; [discriminate|].
    rewrite append_cons, append_nil in Hq. injection Hq as ->.
    rewrite resize_app_stop by reflexivity.
    now rewrite resize_qmark, split_head_app.
Qed.

End Normalize.

(** ** Deduplication *)

Section Dedup.

Local Abbreviation key := normalize_image_url.

Lemma existsb_eqb_In (k : string) (seen : list string) :
  existsb (String.eqb k) seen = true <-> In k seen.
Proof.
  rewrite existsb_exists. split.
  - intros (x & Hx & E). apply String.eqb_eq in E. now subst.
  - intros H. exists k. split; [exact H | apply String.eqb_refl].
Qed.

Lemma existsb_eqb_not_In (k : string) (seen : list string) :
  existsb (String.eqb k) seen = false <-> ~ In k seen.
Proof.
  rewrite <- existsb_eqb_In. destruct (existsb _ seen); split; congruence.
Qed.

Lemma pydict_contains_keys {V} (d : pydict V) (k : string) :
  pydict_contains d k = existsb (String.eqb k) (pydict_keys d).
Proof.
  induction d as [|[k' v] d IH]; simpl; [reflexivity|].
  now rewrite IH, String.eqb_sym.
Qed.

Lemma pydict_set_new {V} (d : pydict V) (k : string) (v : V) :
  pydict_contains d k = false -> pydict_set d k v = (d ++ [(k, v)])%list.
Proof.
  induction d as [|[k' v'] d IH]; simpl; [reflexivity|].
  intros H. apply orb_false_iff in H as [Hk Hd].
  rewrite Hk. now rewrite IH.
Qed.

(** [keep_first] only asks which keys were seen. *)
Lemma keep_first_ext (s1 s2 : list string) (l : list string) :
  (forall k, In k s1 <-> In k s2) -> keep_first s1 l = keep_first s2 l.
Proof.
  revert s1 s2. induction l as [|u l IH]; intros s1 s2 Hs; simpl; [reflexivity|].
  destruct (existsb (String.eqb (key u)) s1) eqn:E1.
  - apply existsb_eqb_In in E1. apply Hs in E1. apply existsb_eqb_In in E1.
    rewrite E1. now apply IH.
  - apply existsb_eqb_not_In in E1.
    replace (existsb (String.eqb (key u)) s2) with false.
    + f_equal. apply IH. intros k. simpl. now rewrite Hs.
    + symmetry. apply existsb_eqb_not_In. now rewrite <- Hs.
Qed.

(** The loop over the dictionary computes [keep_first]. *)
Lemma fold_dedup_step (l : list string) (d : pydict string) :
  pydict_values (fold_left dedup_step l d)
  = (pydict_values d ++ keep_first (pydict_keys d) l)%list.
Proof.
  revert d. induction l as [|u l IH]; intros d; simpl.
  - now rewrite app_nil_r.
  - unfold dedup_step at 2. rewrite pydict_contains_keys.
    destruct (existsb (String.eqb (key u)) (pydict_keys d)) eqn:E; simpl.
    + apply IH.
    + rewrite IH, pydict_set_new by (now rewrite pydict_contains_keys).
      unfold pydict_values, pydict_keys. rewrite !map_app, <- app_assoc. simpl.
      f_equal. f_equal. apply keep_first_ext.
      intros k. rewrite in_app_iff. simpl. tauto.
Qed.

Lemma dedup_image_urls_keep_first (l : list string) :
  dedup_image_urls l = keep_first [] l.
Proof. unfold dedup_image_urls. now rewrite fold_dedup_step. Qed.

Lemma keep_first_fresh (seen l : list string) (v : string) :
  In v (keep_first seen l) -> ~ In (key v) seen.
Proof.
  revert seen. induction l as [|u l IH]; intros seen; simpl; [tauto|].
  destruct (existsb (String.eqb (key u)) seen) eqn:E.
  - apply IH.
  - apply existsb_eqb_not_In in E. intros [<- | Hv]; [exact E|].
    apply IH in Hv. simpl in Hv. tauto.
Qed.

(** One entry per key. *)
Lemma keep_first_NoDup (seen l : list string) :
  List.NoDup (map key (keep_first seen l)).
Proof.
  revert seen. induction l as [|u l IH]; intros seen; simpl; [constructor|].
  destruct (existsb (String.eqb (key u)) seen); [apply IH|].
  simpl. constructor; [|apply IH].
  intros Hin. apply in_map_iff in Hin as (v & Hk & Hv).
  apply keep_first_fresh in Hv. apply Hv. simpl. now left.
Qed.

(** Every key is kept. *)
Lemma keep_first_complete (seen l : list string) (u : string) :
  In u l -> In (key u) seen \/ exists v, In v (keep_first seen l) /\ key v = key u.
Proof.
  revert seen. induction l as [|x l IH]; intros seen; simpl; [tauto|].
  destruct (existsb (String.eqb (key x)) seen) eqn:E.
  - intros [-> | Hu]; [left; now apply existsb_eqb_In | now apply IH].
  - intros [-> | Hu].
    + right. exists u. simpl. auto.
    + destruct (IH (key x :: seen) Hu) as [[Hk | Hk] | (v & Hv & Hk)].
      * right. exists x. simpl. auto.
      * now left.
      * right. exists v. simpl. auto.
Qed.

(** A kept address stands where its key is met first. *)
Lemma keep_first_first (seen l : list string) (v : string) :
  In v (keep_first seen l) ->
  exists l1 l2, l = (l1 ++ v :: l2)%list /\ Forall (fun x => key x <> key v) l1.
Proof.
  revert seen. induction l as [|x l IH]; intros seen; simpl; [tauto|].
  destruct (existsb (String.eqb (key x)) seen) eqn:E.
  - intros Hv. pose proof (keep_first_fresh _ _ _ Hv) as Hfresh.
    destruct (IH _ Hv) as (l1 & l2 & -> & Hl1).
    exists (x :: l1), l2. split; [reflexivity|].
    constructor; [|exact Hl1].
    intros Hk. apply Hfresh. rewrite <- Hk. now apply existsb_eqb_In.
  - intros [-> | Hv].
    + exists [], l. split; [reflexivity | constructor].
    + pose proof (keep_first_fresh _ _ _ Hv) as Hfresh.
      destruct (IH _ Hv) as (l1 & l2 & -> & Hl1).
      exists (x :: l1), l2. split; [reflexivity|].
      constructor; [|exact Hl1].
      intros Hk. apply Hfresh. simpl. now left.
Qed.

(** The kept addresses stand in the order of the candidates. *)
Lemma keep_first_sublist (seen l : list string) : sublist (keep_first seen l) l.
Proof.
  revert seen. induction l as [|x l IH]; intros seen; simpl; [constructor|].
  destruct (existsb (String.eqb (key x)) seen).
  - apply sublist_cons, IH.
  - apply sublist_skip, IH.
Qed.

End Dedup.

(** C4.  Two addresses that differ only in the digits of a size token
    [s-l<digits>], or only in a trailing query string, have the same
    normalized form; and on every candidate list the deduplication keeps one
    address per normalized form, the first one met, in the order of the
    list.  An address has no line feed. *)
Theorem normalize_and_dedup_first_seen :
  (forall a b d1 d2 : string,
      is_digits d1 = true -> is_digits d2 = true ->
      normalize_image_url (a ++ "s-l" ++ d1 ++ b)
      = normalize_image_url (a ++ "s-l" ++ d2 ++ b))
  /\ (forall p q1 q2 : string,
         is_query q1 = true -> is_query q2 = true ->
         no_newline (p ++ q1) = true -> no_newline (p ++ q2) = true ->
         normalize_image_url (p ++ q1) = normalize_image_url (p ++ q2))
  /\ (forall candidates : list string,
         let kept := dedup_image_urls candidates in
         List.NoDup (map normalize_image_url kept)
         /\ (forall u, In u candidates ->
               exists v, In v kept /\ normalize_image_url v = normalize_image_url u)
         /\ (forall v, In v kept ->
               exists before after,
                 candidates = (before ++ v :: after)%list
                 /\ Forall (fun x => normalize_image_url x <> normalize_image_url v) before)
         /\ sublist kept candidates).
Proof.
  split; [|split].
  - apply normalize_size_token.
  - intros p q1 q2 H1 H2 N1 N2.
    now rewrite (normalize_query p q1 H1 N1), (normalize_query p q2 H2 N2).
  - intros candidates kept. subst kept.
    rewrite dedup_image_urls_keep_first.
    split; [apply keep_first_NoDup | split; [|split]].
    + intros u Hu.
      destruct (keep_first_complete [] candidates u Hu) as [[] | H]; exact H.
    + apply keep_first_first.
    + apply keep_first_sublist.
Qed.

(** C4 on three thumbnails of a carousel: two sizes of one image, the
    second with a query string, and another image. *)
Lemma normalize_and_dedup_witness :
  normalize_image_url ("https://i.ebayimg.com/images/g/a/" ++ "s-l" ++ "64" ++ ".jpg")
  = normalize_image_url ("https://i.ebayimg.com/images/g/a/" ++ "s-l" ++ "300" ++ ".jpg")
  /\ normalize_image_url ("https://i.ebayimg.com/images/g/a/s-l64.jpg" ++ "?set=1")
     = normalize_image_url ("https://i.ebayimg.com/images/g/a/s-l64.jpg" ++ "")
  /\ sublist
       (dedup_image_urls
          ["https://i.ebayimg.com/images/g/a/s-l64.jpg";
           "https://i.ebayimg.com/images/g/a/s-l300.jpg?set=1";
           "https://i.ebayimg.com/images/g/b/s-l400.jpg"])
       ["https://i.ebayimg.com/images/g/a/s-l64.jpg";
        "https://i.ebayimg.com/images/g/a/s-l300.jpg?set=1";
        "https://i.ebayimg.com/images/g/b/s-l400.jpg"].
Proof.
  destruct normalize_and_dedup_first_seen as (Htoken & Hquery & Hdedup).
  split; [|split].
  - apply Htoken; reflexivity.
  - apply Hquery; reflexivity.
  - apply Hdedup.
Defined.

(** C9.  On every address, that is every text without line feed, normalizing
    a normalized address changes nothing. *)
Theorem normalize_image_url_idempotent (u : string) :
  no_newline u = true ->
  normalize_image_url (normalize_image_url u) = normalize_image_url u.
Proof.
  intros Hu.
  rewrite (normalize_no_newline u Hu).
  assert (Hn : no_newline (Py.split_head "?" (Re.sub Re.size_token "s-l1600" u)) = true).
  { apply forallb_split_head. now apply forallb_resize. }
  rewrite (normalize_no_newline _ Hn).
  rewrite resize_split_head, resize_idempotent.
  apply split_head_none, split_head_free.
Qed.

Lemma normalize_image_url_idempotent_witness :
  let u := "https://i.ebayimg.com/images/g/a/s-l300.jpg?set=1" in
  normalize_image_url (normalize_image_url u) = normalize_image_url u.
Proof.
  apply (normalize_image_url_idempotent "https://i.ebayimg.com/images/g/a/s-l300.jpg?set=1").
  reflexivity.
Defined.

(** The hypothesis of C9 is needed.  On a text with a line feed between two
    question marks the pattern of the query string first matches at the
    second mark only; once that part is gone it matches at the first. *)
Lemma normalize_image_url_line_feed :
  let u := "?" ++ String Py.newline "?x" in
  normalize_image_url u = "?" ++ String Py.newline ""
  /\ normalize_image_url (normalize_image_url u) = String Py.newline "".
Proof. vm_compute. auto. Qed.

(** ** Effects: what a computation adds to the trace and does to the counters *)

Section Frames.
Variable R : Stats -> Stats -> Prop.
Hypothesis R_refl : forall s, R s s.
Hypothesis R_trans : forall s1 s2 s3, R s1 s2 -> R s2 s3 -> R s1 s3.
Variable Q : Event -> Prop.

Lemma frames_ret {A} (a : A) : frames R Q (ret a).
Proof. intros w. exists []. simpl. rewrite app_nil_r. auto. Qed.

Lemma frames_raise {A} (e : Exn) : frames R Q (@raise A e).
Proof. intros w. exists []. simpl. rewrite app_nil_r. auto. Qed.

Lemma frames_lift {A} (r : result A) : frames R Q (lift r).
Proof. intros w. exists []. simpl. rewrite app_nil_r. auto. Qed.

Lemma frames_bind {A B} (m : M A) (k : A -> M B) :
  frames R Q m -> (forall a, frames R Q (k a)) -> frames R Q (bind m k).
Proof.
  intros Hm Hk w. unfold bind.
  destruct (Hm w) as (evs & Ht & Hq & Hr).
  destruct (m w) as [[a|e] w1]; simpl in *.
  - destruct (Hk a w1) as (evs' & Ht' & Hq' & Hr').
    exists (evs ++ evs')%list. rewrite Ht', Ht, app_assoc.
    split; [reflexivity|]. split; [now apply Forall_app | eauto].
  - exists evs. auto.
Qed.

Lemma frames_try_except {A} (body : M A) (handler : Exn -> M A) :
  frames R Q body -> (forall e, frames R Q (handler e)) -> frames R Q (try_except body handler).
Proof.
  intros Hm Hk w. unfold try_except.
  destruct (Hm w) as (evs & Ht & Hq & Hr).
  destruct (body w) as [[a|e] w1]; simpl in *.
  - exists evs. auto.
  - destruct (Hk e w1) as (evs' & Ht' & Hq' & Hr').
    exists (evs ++ evs')%list. rewrite Ht', Ht, app_assoc.
    split; [reflexivity|]. split; [now apply Forall_app | eauto].
Qed.

Lemma frames_if {A} (b : bool) (m1 m2 : M A) :
  frames R Q m1 -> frames R Q m2 -> frames R Q (if b then m1 else m2).
Proof. now destruct b. Qed.

Lemma frames_for_each {A} (xs : list A) (body : A -> M unit) :
  (forall x, frames R Q (body x)) -> frames R Q (for_each xs body).
Proof.
  intros Hb. induction xs as [|x xs IH]; simpl.
  - apply frames_ret.
  - apply frames_bind; auto.
Qed.

Lemma frames_map_m {A B} (f : A -> M B) (xs : list A) :
  (forall x, frames R Q (f x)) -> frames R Q (map_m f xs).
Proof.
  intros Hf. induction xs as [|x xs IH]; simpl.
  - apply frames_ret.
  - apply frames_bind; [auto|]. intros y.
    apply frames_bind; [auto|]. intros ys. apply frames_ret.
Qed.

Lemma frames_update_stats (f : Stats -> Stats) :
  (forall s, R s (f s)) -> frames R Q (update_stats f).
Proof. intros Hf w. exists []. simpl. rewrite app_nil_r. auto. Qed.

Section Primitives.
Context (env : Env).

Lemma frames_io (ev : Event) (effect : gset string -> gset string) :
  Q ev -> frames R Q (io env ev effect).
Proof.
  intros Hev w. exists [ev]. unfold io.
  destruct (io_fault env (trace w) ev); simpl; auto.
Qed.

Lemma frames_session_get (url : string) (stream : bool) :
  Q (EvGet url stream) -> frames R Q (session_get env url stream).
Proof. intros Hev w. exists [EvGet url stream]. simpl. auto. Qed.

Lemma frames_raise_for_status (response : Response) :
  frames R Q (raise_for_status response).
Proof.
  unfold raise_for_status. apply frames_if; [apply frames_raise | apply frames_ret].
Qed.

Lemma frames_os_path_exists (path : string) :
  Q (EvExists path) -> frames R Q (os_path_exists path).
Proof. intros Hev w. exists [EvExists path]. simpl. auto. Qed.

Lemma frames_image_save (path : string) :
  Q (EvImageSave path) -> frames R Q (image_save env path).
Proof.
  intros Hev w. exists [EvImageSave path]. unfold image_save.
  destruct (io_fault env (trace w) _); simpl; auto.
  destruct (save_leaves_file env (trace w) path); simpl; auto.
Qed.

Lemma frames_time_now : frames R Q (time_now env).
Proof. intros w. exists []. simpl. rewrite app_nil_r. auto. Qed.

End Primitives.

End Frames.

(** Computations that always return. *)
Section Returns.

Lemma returns_ret {A} (a : A) : returns (ret a).
Proof. intros w. now exists a. Qed.

Lemma returns_bind {A B} (m : M A) (k : A -> M B) :
  returns m -> (forall a, returns (k a)) -> returns (bind m k).
Proof.
  intros Hm Hk w. unfold bind. destruct (Hm w) as [a Ha].
  destruct (m w) as [[a'|e] w1]; simpl in Ha; [|discriminate].
  apply Hk.
Qed.

Lemma returns_try_except {A} (body : M A) (handler : Exn -> M A) :
  (forall e, returns (handler e)) -> returns (try_except body handler).
Proof.
  intros Hh w. unfold try_except.
  destruct (body w) as [[a|e] w1]; simpl; [now exists a | apply Hh].
Qed.

Lemma returns_update_stats (f : Stats -> Stats) : returns (update_stats f).
Proof. intros w. now exists tt. Qed.

End Returns.

(** ** The image downloader *)

Lemma listing_counters_kept_refl (s : Stats) : listing_counters_kept s s.
Proof. split; reflexivity. Qed.

Lemma listing_counters_kept_trans (s1 s2 s3 : Stats) :
  listing_counters_kept s1 s2 -> listing_counters_kept s2 s3 ->
  listing_counters_kept s1 s3.
Proof. intros [A B] [C D]. split; congruence. Qed.

Lemma eq_stats_trans (s1 s2 s3 : Stats) : s1 = s2 -> s2 = s3 -> s1 = s3.
Proof. congruence. Qed.

(** Side conditions of the framing lemmas. *)
Ltac frames_side :=
  first [ exact listing_counters_kept_refl
        | exact listing_counters_kept_trans
        | exact (@eq_refl Stats)
        | exact eq_stats_trans ].

(** One syntax-directed step of a framing proof. *)
Ltac frames_step :=
  first [ apply frames_bind; [try frames_side .. | | intros ?]
        | apply frames_try_except; [try frames_side .. | | intros ?]
        | apply frames_ret; frames_side
        | apply frames_raise; frames_side
        | apply frames_lift; frames_side
        | apply frames_raise_for_status; frames_side
        | apply frames_time_now; frames_side
        | apply frames_if
        | apply frames_io; [try frames_side .. | ]
        | apply frames_image_save; [try frames_side .. | ]
        | apply frames_os_path_exists; [try frames_side .. | ]
        | apply frames_session_get; [try frames_side .. | ]
        | apply frames_for_each; [try frames_side .. | intros ?]
        | apply frames_map_m; [try frames_side .. | intros ?]
        | apply frames_update_stats; [try frames_side .. | intros ?; try (split; reflexivity)]
        | match goal with
          | |- frames _ _ (match ?x with _ => _ end) => destruct x
          end ].

(** An event on a target file, the extension read off the event. *)
Ltac on_target_tac lemma :=
  unfold on_target; eexists; split; [|reflexivity];
  first [ apply lemma | simpl; tauto ].

Section DownloadFacts.
Context (env : Env).

Lemma extension_of_in (content_type : string) :
  In (extension_of content_type) extensions.
Proof.
  unfold extension_of, extensions.
  repeat match goal with |- context [if ?b then _ else _] => destruct b end;
    simpl; auto.
Qed.

(** A request followed by code that stays on the target files. *)
Lemma frames_after_get {A} (R : Stats -> Stats -> Prop) (Q : Event -> Prop)
    (url : string) (stream : bool) (k : Response -> M A) (handler : Exn -> M A) :
  (forall s, R s s) -> (forall s1 s2 s3, R s1 s2 -> R s2 s3 -> R s1 s3) ->
  (forall response, frames R Q (k response)) ->
  (forall e, frames R Q (handler e)) ->
  forall w, exists rest,
    trace (snd (try_except (bind (session_get env url stream) k) handler w))
    = (trace w ++ EvGet url stream :: rest)%list
    /\ Forall Q rest
    /\ R (stats w) (stats (snd (try_except (bind (session_get env url stream) k) handler w))).
Proof.
  intros Rrefl Rtrans Hk Hh w.
  unfold try_except, bind, session_get.
  destruct (http_get env (trace w) url) as [response|e].
  - destruct (Hk response (record (EvGet url stream) w)) as (evs & Ht & Hq & Hr).
    destruct (k response (record (EvGet url stream) w)) as [[a|e] w2]; simpl in *.
    + exists evs. rewrite Ht, <- app_assoc. auto.
    + destruct (Hh e w2) as (evs' & Ht' & Hq' & Hr').
      exists (evs ++ evs')%list.
      rewrite Ht', Ht, <- !app_assoc.
      split; [reflexivity|]. split; [now apply Forall_app | eauto].
  - destruct (Hh e (record (EvGet url stream) w)) as (evs & Ht & Hq & Hr).
    simpl in *. exists evs. rewrite Ht, <- app_assoc. auto.
Qed.

(** A call of [download_image] makes its request, then touches nothing
    but its target files, and leaves the listing counters alone. *)
Lemma download_image_events (url folder_path filename : string) (index : Z) (w : World) :
  exists evs,
    trace (snd (download_image env url folder_path filename index w))
    = (trace w ++ evs)%list
    /\ call_events url folder_path filename index evs
    /\ listing_counters_kept (stats w)
         (stats (snd (download_image env url folder_path filename index w))).
Proof.
  unfold download_image.
  edestruct (@frames_after_get bool listing_counters_kept
               (on_target folder_path filename index) url true) as (rest & Ht & Hq & Hr);
    [exact listing_counters_kept_refl | exact listing_counters_kept_trans | | |].
  3: { exists (EvGet url true :: rest). split; [exact Ht|].
       split; [now exists rest | exact Hr]. }
  - intros response. cbv zeta.
    repeat frames_step; on_target_tac extension_of_in.
  - intros e. repeat frames_step.
Qed.

Lemma download_image_returns (url folder_path filename : string) (index : Z) :
  returns (download_image env url folder_path filename index).
Proof.
  unfold download_image. apply returns_try_except. intros e.
  apply returns_bind; [apply returns_update_stats | intros _; apply returns_ret].
Qed.

End DownloadFacts.

(** C1, as amended.  When the request succeeds with an image content type
    and the target file for the extension of that content type exists,
    [download_image] returns [True] after that one request and the check of
    the target: it reads no body, writes, converts and removes no file. *)
Theorem download_image_existing_target (env : Env)
    (url folder_path filename : string) (index : Z) (w : World) (response : Response) :
  http_get env (trace w) url = Ok response ->
  error_status response = false ->
  Py.startswith (content_type response) "image/" = true ->
  target_path folder_path filename index (extension_of (content_type response)) ∈ files w ->
  exists w',
    download_image env url folder_path filename index w = (Ok true, w')
    /\ trace w'
       = (trace w ++
          [EvGet url true;
           EvExists (target_path folder_path filename index
                       (extension_of (content_type response)))])%list
    /\ files w' = files w.
Proof.
  intros Hget Hstatus Himage Hfile.
  unfold download_image, try_except, bind, session_get, raise_for_status.
  rewrite Hget, Hstatus. simpl. rewrite Himage. simpl.
  rewrite bool_decide_eq_true_2 by exact Hfile.
  eexists. split; [reflexivity|]. simpl.
  rewrite <- app_assoc. auto.
Qed.

(** C1 as stated fails.  With the target file on disk and a server that
    answers with a JPEG, the call returns [True] but has made its request;
    with the target on disk under every extension and a server that cannot
    be reached, the call returns [False]. *)
Lemma download_image_existing_target_still_requests :
  let env := Fixture.env Fixture.net Fixture.no_fault in
  let url := "https://i.ebayimg.com/images/g/a/s-l1600.jpg" in
  let w := Fixture.world {[ "d/f_1.jpg" ]} in
  let down := "https://unreachable.example/a.jpg" in
  let w_all := Fixture.world {[ "d/f_1.jpg"; "d/f_1.png"; "d/f_1.webp"; "d/f_1.gif" ]} in
  bool_decide ("d/f_1.jpg" ∈ files w) = true
  /\ fst (download_image env url "d" "f" 1 w) = Ok true
  /\ requests (trace (snd (download_image env url "d" "f" 1 w))) = [url]
  /\ fst (download_image env down "d" "f" 1 w_all) = Ok false
  /\ requests (trace (snd (download_image env down "d" "f" 1 w_all))) = [down].
Proof. vm_compute. auto 10. Qed.

(** The amended statement on the first of these calls. *)
Lemma download_image_existing_target_witness :
  exists w',
    download_image (Fixture.env Fixture.net Fixture.no_fault)
      "https://i.ebayimg.com/images/g/a/s-l1600.jpg" "d" "f" 1
      (Fixture.world {[ "d/f_1.jpg" ]}) = (Ok true, w')
    /\ trace w'
       = [EvGet "https://i.ebayimg.com/images/g/a/s-l1600.jpg" true; EvExists "d/f_1.jpg"]
    /\ files w' = {[ "d/f_1.jpg" ]}.
Proof.
  assert (Hfile : "d/f_1.jpg" ∈ files (Fixture.world {[ "d/f_1.jpg" ]})).
  { simpl. apply elem_of_singleton. reflexivity. }
  exact (download_image_existing_target
           (Fixture.env Fixture.net Fixture.no_fault)
           "https://i.ebayimg.com/images/g/a/s-l1600.jpg" "d" "f" 1
           (Fixture.world {[ "d/f_1.jpg" ]})
           (Fixture.image_response "image/jpeg")
           eq_refl eq_refl eq_refl Hfile).
Defined.

(** C2 at the input where the code departs from it: the target file is on
    disk, the server answers with a JPEG; the call returns [True] and no
    counter has moved. *)
Theorem download_image_existing_target_counts_nothing :
  let env := Fixture.env Fixture.net Fixture.no_fault in
  let url := "https://i.ebayimg.com/images/g/a/s-l1600.jpg" in
  let w := Fixture.world {[ "d/f_1.jpg" ]} in
  fst (download_image env url "d" "f" 1 w) = Ok true
  /\ successful_images (stats (snd (download_image env url "d" "f" 1 w)))
     = successful_images (stats w)
  /\ failed_images (stats (snd (download_image env url "d" "f" 1 w)))
     = failed_images (stats w).
Proof. vm_compute. auto. Qed.

(** ** The extractors *)

Section ExtractorFacts.
Context (env : Env) {Soup Tag : Type} {bs : BS4 Soup Tag}.

Lemma unless_found_nil (method : list string -> list string) :
  unless_found method [] = method [].
Proof. reflexivity. Qed.

(** A chain of [if not image_urls] blocks stops at the first block that
    finds something. *)
Lemma extract_first_yielding (m1 m2 m3 m4 : list string -> list string) :
  unless_found m4 (unless_found m3 (unless_found m2 (m1 [])))
  = first_yielding [m1 []; m2 []; m3 []; m4 []].
Proof.
  simpl. destruct (m1 []) as [|u1 us1]; [|reflexivity].
  rewrite unless_found_nil. destruct (m2 []) as [|u2 us2]; [|reflexivity].
  rewrite unless_found_nil. destruct (m3 []) as [|u3 us3]; [|reflexivity].
  rewrite unless_found_nil. now destruct (m4 []).
Qed.

Lemma ebay_extract_images_first_yielding (soup : Soup) :
  ebay_extract_images soup = first_yielding (ebay_strategies soup).
Proof. apply extract_first_yielding. Qed.

Lemma swappa_extract_images_first_yielding (soup : Soup) :
  swappa_extract_images soup = first_yielding (swappa_strategies soup).
Proof. apply extract_first_yielding. Qed.

(** The two results of the eBay extractor. *)
Lemma scrape_ebay_listing_cases (url : string) (w : World) :
  let w1 := record (EvGet url false) w in
  scrape_ebay_listing env url w = (Ok (None, []), w1)
  \/ exists response soup,
       http_get env (trace w) url = Ok response
       /\ parse_html (text response) = Ok soup
       /\ scrape_ebay_listing env url w
          = (Ok (Some (ebay_title soup (unix_time env (trace w1))),
                 dedup_image_urls (ebay_extract_images soup)), w1).
Proof.
  unfold scrape_ebay_listing, try_except, bind, session_get, raise_for_status, lift.
  destruct (http_get env (trace w) url) as [response|e]; simpl; [|now left].
  destruct (error_status response); simpl; [now left|].
  destruct (parse_html (text response)) as [soup|e] eqn:Hparse; simpl; [|now left].
  right. exists response, soup. auto.
Qed.

(** A list comprehension over a pure call returns the list of the results
    or raises, and leaves the world as it is. *)
Lemma map_m_lift {A B} (f : A -> result B) (xs : list A) (w : World) :
  (exists ys, map_m (fun x => lift (f x)) xs w = (Ok ys, w)
              /\ Forall2 (fun x y => f x = Ok y) xs ys)
  \/ exists e, map_m (fun x => lift (f x)) xs w = (Raise e, w).
Proof.
  induction xs as [|x xs IH]; simpl.
  - left. exists []. split; [reflexivity | constructor].
  - unfold bind. change (lift (f x) w) with (f x, w).
    destruct (f x) as [y|e] eqn:Hx; [|right; now exists e].
    destruct IH as [(ys & Heq & Hys) | (e & Heq)]; rewrite Heq.
    + left. exists (y :: ys). split; [reflexivity | now constructor].
    + right. now exists e.
Qed.

(** The two results of the Swappa extractor; the addresses it returns are
    the kept candidates, each joined to a base address. *)
Lemma scrape_swappa_listing_cases (url : string) (w : World) :
  let w1 := record (EvGet url false) w in
  scrape_swappa_listing env url w = (Ok (None, []), w1)
  \/ exists response soup base_url image_urls,
       http_get env (trace w) url = Ok response
       /\ parse_html (text response) = Ok soup
       /\ Forall2 (fun raw joined => urljoin env base_url raw = Ok joined)
            (dedup_image_urls (swappa_extract_images soup)) image_urls
       /\ scrape_swappa_listing env url w
          = (Ok (Some (swappa_title soup (unix_time env (trace w1))), image_urls), w1).
Proof.
  unfold scrape_swappa_listing, try_except, bind, session_get, raise_for_status.
  destruct (http_get env (trace w) url) as [response|e]; simpl; [|now left].
  destruct (error_status response); simpl; [now left|].
  destruct (parse_html (text response)) as [soup|e] eqn:Hparse; simpl; [|now left].
  destruct (url_scheme env _) as [scheme|e]; simpl; [|now left].
  destruct (url_netloc env _) as [netloc|e]; simpl; [|now left].
  match goal with
  | |- context [map_m ?g ?xs ?w0] =>
      change (map_m g xs w0)
        with (map_m (fun x => lift (urljoin env (scheme ++ "://" ++ netloc) x)) xs w0);
      destruct (map_m_lift (urljoin env (scheme ++ "://" ++ netloc)) xs w0)
        as [(ys & Heq & Hys) | (e & Heq)]; rewrite Heq
  end; simpl; [|now left].
  right. exists response, soup, (scheme ++ "://" ++ netloc), ys. auto.
Qed.

Lemma scrape_ebay_listing_returns (url : string) :
  returns (scrape_ebay_listing env url).
Proof. apply returns_try_except. intros e. apply returns_ret. Qed.

Lemma scrape_swappa_listing_returns (url : string) :
  returns (scrape_swappa_listing env url).
Proof. apply returns_try_except. intros e. apply returns_ret. Qed.

Lemma scrape_ebay_listing_frames (url : string) :
  frames eq (fun _ => True) (scrape_ebay_listing env url).
Proof. unfold scrape_ebay_listing. repeat frames_step; exact I. Qed.

Lemma scrape_swappa_listing_frames (url : string) :
  frames eq (fun _ => True) (scrape_swappa_listing env url).
Proof. unfold scrape_swappa_listing. repeat frames_step; exact I. Qed.

End ExtractorFacts.

(** C5.  On every page, the image extraction of each site returns what the
    first of its four strategies, in the order of the code, that yields at
    least one address yields, and nothing of another strategy; and what an
    extractor returns for a page it could fetch and parse is made of these
    candidates alone: deduplicated, and for Swappa joined to a base
    address. *)
Theorem image_extraction_first_yielding_strategy
    (env : Env) {Soup Tag : Type} {bs : BS4 Soup Tag} :
  (forall soup : Soup,
      ebay_extract_images soup = first_yielding (ebay_strategies soup)
      /\ swappa_extract_images soup = first_yielding (swappa_strategies soup))
  /\ (forall url w,
         fst (scrape_ebay_listing env url w) = Ok (None, [])
         \/ exists response soup title,
              http_get env (trace w) url = Ok response
              /\ parse_html (text response) = Ok soup
              /\ fst (scrape_ebay_listing env url w)
                 = Ok (Some title, dedup_image_urls (first_yielding (ebay_strategies soup))))
  /\ (forall url w,
         fst (scrape_swappa_listing env url w) = Ok (None, [])
         \/ exists response soup title base_url image_urls,
              http_get env (trace w) url = Ok response
              /\ parse_html (text response) = Ok soup
              /\ Forall2 (fun raw joined => urljoin env base_url raw = Ok joined)
                   (dedup_image_urls (first_yielding (swappa_strategies soup))) image_urls
              /\ fst (scrape_swappa_listing env url w) = Ok (Some title, image_urls)).
Proof.
  split; [|split].
  - intros soup. split.
    + apply ebay_extract_images_first_yielding.
    + apply swappa_extract_images_first_yielding.
  - intros url w.
    destruct (scrape_ebay_listing_cases env url w) as [-> | (r & soup & Hg & Hp & ->)].
    + now left.
    + right. exists r, soup. eexists.
      rewrite <- ebay_extract_images_first_yielding. auto.
  - intros url w.
    destruct (scrape_swappa_listing_cases env url w)
      as [-> | (r & soup & base & urls & Hg & Hp & Hj & ->)].
    + now left.
    + right. exists r, soup. eexists. exists base, urls.
      rewrite <- swappa_extract_images_first_yielding. auto.
Qed.

(** C7.  When the listing page cannot be had, because the request raises,
    the status is an error or the parser raises, both extractors return
    [(None, [])]; the request is all they have done. *)
Theorem scrape_listing_failure_is_none
    (env : Env) {Soup Tag : Type} {bs : BS4 Soup Tag} (url : string) (w : World) :
  page_unavailable env url w ->
  scrape_ebay_listing env url w = (Ok (None, []), record (EvGet url false) w)
  /\ scrape_swappa_listing env url w = (Ok (None, []), record (EvGet url false) w).
Proof.
  unfold page_unavailable.
  unfold scrape_ebay_listing, scrape_swappa_listing,
    try_except, bind, session_get, raise_for_status.
  destruct (http_get env (trace w) url) as [response|e]; simpl; [|auto].
  intros [Hstatus | [e Hparse]].
  - rewrite Hstatus. simpl. auto.
  - destruct (error_status response); simpl; [auto|].
    unfold lift. rewrite Hparse. simpl. auto.
Qed.

(** C7 on a listing whose server cannot be reached. *)
Lemma scrape_listing_failure_witness :
  scrape_ebay_listing (Fixture.env Fixture.net Fixture.no_fault)
    (bs := Fixture.bs Fixture.parser) "https://www.ebay.com/itm/404" (Fixture.world ∅)
  = (Ok (None, []),
     record (EvGet "https://www.ebay.com/itm/404" false) (Fixture.world ∅))
  /\ scrape_swappa_listing (Fixture.env Fixture.net Fixture.no_fault)
       (bs := Fixture.bs Fixture.parser) "https://www.ebay.com/itm/404" (Fixture.world ∅)
     = (Ok (None, []),
        record (EvGet "https://www.ebay.com/itm/404" false) (Fixture.world ∅)).
Proof.
  apply (scrape_listing_failure_is_none
           (Fixture.env Fixture.net Fixture.no_fault) (bs := Fixture.bs Fixture.parser)
           "https://www.ebay.com/itm/404" (Fixture.world ∅)).
  exact I.
Defined.

(** ** The orchestrator *)

Section ListingFacts.
Context (env : Env) {Soup Tag : Type} {bs : BS4 Soup Tag}.

Lemma create_folder_frames (title : string) :
  frames eq (fun _ => True) (create_folder env title).
Proof. unfold create_folder, os_makedirs. repeat frames_step; exact I. Qed.

Lemma write_text_frames (path content : string) :
  frames eq (fun _ => True) (write_text env path content).
Proof. unfold write_text. repeat frames_step; exact I. Qed.

(** The loop of downloads, from the counter [i] of [enumerate]: it
    returns, it keeps the listing counters, and the events it adds are
    those of one call per address, in the order of the list, the address
    at position [k] with index [i + k + 1]. *)
Lemma download_loop_segments (folder_path filename_base : string)
    (image_urls : list string) (i : Z) (w : World) :
  exists w' segments,
    for_each (enumerate_from i image_urls)
      (fun '(i, img_url) =>
         bind (download_image env img_url folder_path filename_base (i + 1))
              (fun _ => ret tt)) w = (Ok tt, w')
    /\ trace w' = (trace w ++ concat segments)%list
    /\ listing_counters_kept (stats w) (stats w')
    /\ length segments = length image_urls
    /\ forall k img_url segment,
         nth_error image_urls k = Some img_url ->
         nth_error segments k = Some segment ->
         call_events img_url folder_path filename_base (i + Z.of_nat k + 1) segment.
Proof.
  revert i w. induction image_urls as [|u urls IH]; intros i w.
  - exists w, []. simpl. rewrite app_nil_r.
    repeat split; try reflexivity.
    intros [|k] ? ? H; discriminate H.
  - simpl for_each. unfold bind at 1. unfold bind at 1.
    destruct (download_image_events env u folder_path filename_base (i + 1) w)
      as (evs & Ht & Hcall & Hr).
    destruct (download_image_returns env u folder_path filename_base (i + 1) w)
      as [b Hb].
    destruct (download_image env u folder_path filename_base (i + 1) w)
      as [r w1]; simpl in Ht, Hr, Hb. subst r. simpl.
    destruct (IH (i + 1) w1) as (w' & segs & Hrun & Ht' & Hr' & Hlen & Hseg).
    exists w', (evs :: segs). rewrite Hrun.
    split; [reflexivity|]. split; [|split; [|split]].
    + rewrite Ht', Ht. simpl. now rewrite app_assoc.
    + eapply listing_counters_kept_trans; eauto.
    + simpl. now rewrite Hlen.
    + intros [|k] img_url segment Hu Hs; simpl in Hu, Hs.
      * injection Hu as <-. injection Hs as <-.
        now replace (i + Z.of_nat 0 + 1) with (i + 1) by lia.
      * replace (i + Z.of_nat (S k) + 1) with (i + 1 + Z.of_nat k + 1) by lia.
        eauto.
Qed.

Lemma requests_app (t1 t2 : list Event) :
  requests (t1 ++ t2) = (requests t1 ++ requests t2)%list.
Proof.
  induction t1 as [|ev t1 IH]; simpl; [reflexivity|].
  destruct ev; simpl; now rewrite ?IH.
Qed.

Lemma requests_on_target folder_path filename index (evs : list Event) :
  Forall (on_target folder_path filename index) evs -> requests evs = [].
Proof.
  induction 1 as [|ev evs (ext & _ & Hp) _ IH]; simpl; [reflexivity|].
  destruct ev; simpl in *; try exact IH. discriminate.
Qed.

(** The requests of the segments are the addresses, once each, in order. *)
Lemma requests_segments folder_path filename_base (i : Z)
    (image_urls : list string) (segments : list (list Event)) :
  length segments = length image_urls ->
  (forall k img_url segment,
      nth_error image_urls k = Some img_url ->
      nth_error segments k = Some segment ->
      call_events img_url folder_path filename_base (i + Z.of_nat k + 1) segment) ->
  requests (concat segments) = image_urls.
Proof.
  revert i segments.
  induction image_urls as [|u urls IH]; intros i [|seg segs] Hlen Hseg;
    try discriminate; [reflexivity|].
  simpl. rewrite requests_app.
  destruct (Hseg 0%nat u seg eq_refl eq_refl) as (rest & -> & Hrest).
  simpl. rewrite (requests_on_target _ _ _ _ Hrest). simpl. f_equal.
  apply (IH (i + 1)); [simpl in Hlen; lia|].
  intros k img_url segment Hu Hs.
  replace (i + 1 + Z.of_nat k + 1) with (i + Z.of_nat (S k) + 1) by lia.
  now apply Hseg.
Qed.

(** The outcome of a computation that leaves the counters alone. *)
Lemma frames_eq_run {A} (m : M A) (w : World) (r : result A) (w' : World) :
  frames eq (fun _ => True) m -> m w = (r, w') -> stats w' = stats w.
Proof.
  intros Hm Hrun. destruct (Hm w) as (_ & _ & _ & Hs).
  rewrite Hrun in Hs. simpl in Hs. congruence.
Qed.

(** With a title and addresses, a folder and a provenance file, the rest
    of [process_listing] is the loop of downloads and a success. *)
Lemma process_extracted_success (url title : string) (image_urls : list string)
    (w1 w2 w3 : World) (folder_path : string) :
  Py.truthy_str title = true -> Py.truthy_list image_urls = true ->
  create_folder env title w1 = (Ok folder_path, w2) ->
  write_text env (Py.path_join folder_path "source_url.txt") url w2 = (Ok tt, w3) ->
  forall w4,
    download_all env image_urls folder_path (sanitize_filename title) w3 = (Ok tt, w4) ->
    process_extracted env url (Some title, image_urls) w1
    = (Ok true, snd (incr_successful_listings w4)).
Proof.
  intros Ht Hu Hfolder Hprov w4 Hloop.
  unfold process_extracted. rewrite Ht, Hu. cbn [negb orb].
  unfold bind. rewrite Hfolder, Hprov, Hloop. reflexivity.
Qed.

Lemma process_extracted_outcome (url : string)
    (extracted : option string * list string) (w : World)
    (r : result bool) (w' : World) :
  process_extracted env url extracted w = (r, w') -> listing_outcome w r w'.
Proof.
  destruct extracted as [[title|] image_urls]; simpl;
    [|intros [= <- <-]; split; reflexivity].
  destruct (negb (Py.truthy_str title) || negb (Py.truthy_list image_urls));
    [intros [= <- <-]; split; reflexivity|].
  unfold bind at 1.
  destruct (create_folder env title w) as [[folder_path|e] w2] eqn:Hfolder;
    pose proof (frames_eq_run _ _ _ _ (create_folder_frames title) Hfolder) as Hs2;
    [|intros [= <- <-]; simpl; split; congruence].
  unfold bind at 1.
  destruct (write_text env _ url w2) as [[[]|e] w3] eqn:Hprov;
    pose proof (frames_eq_run _ _ _ _ (write_text_frames _ _) Hprov) as Hs3;
    [|intros [= <- <-]; simpl; split; congruence].
  unfold bind at 1. unfold download_all.
  destruct (download_loop_segments folder_path (sanitize_filename title) image_urls 0 w3)
    as (w4 & segs & Hrun & _ & [Hs4 Hf4] & _).
  unfold enumerate. rewrite Hrun.
  intros [= <- <-]. simpl. split; congruence.
Qed.

(** [process_listing] after the extraction. *)
Lemma process_listing_extracted (url : string) (w w1 : World)
    (extracted : option string * list string) :
  extracts env url w extracted w1 ->
  process_listing env url w
  = try_except (process_extracted env url extracted)
      (fun _ => bind incr_failed_listings (fun _ => ret false)) w1.
Proof.
  intros (netloc & Hnet & Hsite).
  unfold process_listing, try_except, bind at 1. unfold lift. rewrite Hnet.
  destruct Hsite as [[Hebay Hrun] | (Hebay & Hswappa & Hrun)].
  - rewrite Hebay. unfold bind at 1. now rewrite Hrun.
  - rewrite Hebay, Hswappa. unfold bind at 1. now rewrite Hrun.
Qed.

End ListingFacts.

Section ProcessListing.
Context (env : Env) {Soup Tag : Type} {bs : BS4 Soup Tag}.

Lemma extracts_stats (url : string) (w w1 : World)
    (extracted : option string * list string) :
  extracts env url w extracted w1 -> stats w1 = stats w.
Proof.
  intros (netloc & _ & [[_ Hrun] | (_ & _ & Hrun)]).
  - exact (frames_eq_run _ _ _ _ (scrape_ebay_listing_frames env url) Hrun).
  - exact (frames_eq_run _ _ _ _ (scrape_swappa_listing_frames env url) Hrun).
Qed.

Lemma listing_outcome_from (w0 w : World) (r : result bool) (w' : World) :
  stats w = stats w0 -> listing_outcome w r w' -> listing_outcome w0 r w'.
Proof.
  intros Hs. unfold listing_outcome, listing_counters_kept.
  destruct r as [[]|e]; rewrite Hs; auto.
Qed.

(** The listing counters after the body of the [try] of
    [process_listing]. *)
Lemma process_listing_body_outcome (url : string) (w : World)
    (r : result bool) (w' : World) :
  bind (lift (url_netloc env url))
    (fun netloc =>
       let domain := Py.lower netloc in
       if Py.contains "ebay" domain then
         bind (scrape_ebay_listing env url) (process_extracted env url)
       else if Py.contains "swappa" domain then
         bind (scrape_swappa_listing env url) (process_extracted env url)
       else bind incr_failed_listings (fun _ => ret false)) w = (r, w') ->
  listing_outcome w r w'.
Proof.
  unfold bind at 1, lift.
  destruct (url_netloc env url) as [netloc|e];
    [|intros [= <- <-]; apply listing_counters_kept_refl].
  cbv zeta.
  destruct (Py.contains "ebay" (Py.lower netloc));
    [|destruct (Py.contains "swappa" (Py.lower netloc))].
  - unfold bind.
    destruct (scrape_ebay_listing env url w) as [[extracted|e] w1] eqn:Hrun;
      pose proof (frames_eq_run _ _ _ _ (scrape_ebay_listing_frames env url) Hrun) as Hs.
    + intros H. apply process_extracted_outcome in H.
      now apply (listing_outcome_from w w1).
    + intros [= <- <-]. split; congruence.
  - unfold bind.
    destruct (scrape_swappa_listing env url w) as [[extracted|e] w1] eqn:Hrun;
      pose proof (frames_eq_run _ _ _ _ (scrape_swappa_listing_frames env url) Hrun) as Hs.
    + intros H. apply process_extracted_outcome in H.
      now apply (listing_outcome_from w w1).
    + intros [= <- <-]. split; congruence.
  - intros [= <- <-]. split; reflexivity.
Qed.

End ProcessListing.

(** C10.  Every call of [process_listing] returns a boolean, it raises
    nothing, and it adds one to exactly one of the two listing counters,
    the other staying as it was: to [successful_listings] when it returns
    [True], to [failed_listings] when it returns [False]. *)
Theorem process_listing_counts_one_listing
    (env : Env) {Soup Tag : Type} {bs : BS4 Soup Tag} (url : string) (w : World) :
  exists (b : bool) (w' : World),
    process_listing env url w = (Ok b, w')
    /\ ((b = true
         /\ successful_listings (stats w') = successful_listings (stats w) + 1
         /\ failed_listings (stats w') = failed_listings (stats w))
        \/ (b = false
            /\ successful_listings (stats w') = successful_listings (stats w)
            /\ failed_listings (stats w') = failed_listings (stats w) + 1)).
Proof.
  unfold process_listing, try_except.
  match goal with
  | |- context [match ?body w with _ => _ end] =>
      destruct (body w) as [[b|e] w1] eqn:Hrun
  end;
    apply process_listing_body_outcome in Hrun.
  - exists b, w1. split; [reflexivity|].
    destruct b; simpl in Hrun; [left | right]; tauto.
  - exists false. eexists. split; [reflexivity|].
    right. destruct Hrun as [Hs Hf]. simpl. rewrite Hs, Hf. auto.
Qed.

(** C6.  When the extractor chosen for the address returns a title and a
    list of image addresses, both non-empty, and the listing folder and its
    provenance file are written without error, [process_listing] returns
    [True] and adds one to [successful_listings] and nothing to
    [failed_listings]; nothing is asked of the downloads, which may all
    fail. *)
Theorem process_listing_succeeds_whatever_the_downloads
    (env : Env) {Soup Tag : Type} {bs : BS4 Soup Tag}
    (url title folder_path : string) (image_urls : list string) (w w1 w2 w3 : World) :
  extracts env url w (Some title, image_urls) w1 ->
  Py.truthy_str title = true ->
  Py.truthy_list image_urls = true ->
  create_folder env title w1 = (Ok folder_path, w2) ->
  write_text env (Py.path_join folder_path "source_url.txt") url w2 = (Ok tt, w3) ->
  exists w',
    process_listing env url w = (Ok true, w')
    /\ successful_listings (stats w') = successful_listings (stats w) + 1
    /\ failed_listings (stats w') = failed_listings (stats w).
Proof.
  intros Hext Ht Hu Hfolder Hprov.
  rewrite (process_listing_extracted env url w w1 _ Hext).
  destruct (download_loop_segments env folder_path (sanitize_filename title) image_urls 0 w3)
    as (w4 & segs & Hrun & _ & [Hs4 Hf4] & _).
  unfold try_except.
  rewrite (process_extracted_success env url title image_urls w1 w2 w3 folder_path
             Ht Hu Hfolder Hprov w4 Hrun).
  eexists. split; [reflexivity|].
  pose proof (extracts_stats env url w w1 _ Hext) as Hs1.
  pose proof (frames_eq_run _ _ _ _ (create_folder_frames env title) Hfolder) as Hs2.
  pose proof (frames_eq_run _ _ _ _ (write_text_frames env _ _) Hprov) as Hs3.
  simpl. rewrite Hs4, Hf4, Hs3, Hs2, Hs1. auto.
Qed.

(** C8.  Under the same conditions the events [process_listing] adds after
    the provenance file are those of one call of [download_image] per
    address, in the order of the list: the requests are the addresses, once
    each and in order, and the call for the address at position [k],
    counted from 0, works on the target files of index [k + 1] only, that is
    on [os.path.join(folder, sanitized_title + _ + str(k + 1) + ext)]. *)
Theorem process_listing_downloads_in_order
    (env : Env) {Soup Tag : Type} {bs : BS4 Soup Tag}
    (url title folder_path : string) (image_urls : list string) (w w1 w2 w3 : World) :
  extracts env url w (Some title, image_urls) w1 ->
  Py.truthy_str title = true ->
  Py.truthy_list image_urls = true ->
  create_folder env title w1 = (Ok folder_path, w2) ->
  write_text env (Py.path_join folder_path "source_url.txt") url w2 = (Ok tt, w3) ->
  exists w' segments,
    process_listing env url w = (Ok true, w')
    /\ trace w' = (trace w3 ++ concat segments)%list
    /\ requests (concat segments) = image_urls
    /\ length segments = length image_urls
    /\ (forall k img_url segment,
          nth_error image_urls k = Some img_url ->
          nth_error segments k = Some segment ->
          call_events img_url folder_path (sanitize_filename title)
            (Z.of_nat k + 1) segment)
    /\ (forall index ext,
          target_path folder_path (sanitize_filename title) index ext
          = Py.path_join folder_path
              (sanitize_filename title ++ "_" ++ Py.str_of_int index ++ ext)).
Proof.
  intros Hext Ht Hu Hfolder Hprov.
  rewrite (process_listing_extracted env url w w1 _ Hext).
  destruct (download_loop_segments env folder_path (sanitize_filename title) image_urls 0 w3)
    as (w4 & segs & Hrun & Htrace & _ & Hlen & Hseg).
  unfold try_except.
  rewrite (process_extracted_success env url title image_urls w1 w2 w3 folder_path
             Ht Hu Hfolder Hprov w4 Hrun).
  eexists. exists segs. split; [reflexivity|].
  split; [exact Htrace|].
  split; [exact (requests_segments _ _ 0 _ _ Hlen Hseg)|].
  split; [exact Hlen|].
  split; [exact Hseg | reflexivity].
Qed.

(** ** The fixture listing, run through the theorems

    The listing of the fixture has three thumbnails of two images; the
    first image downloads, the second address answers with an HTML page. *)

Lemma fixture_extracts :
  extracts Fixture.run_env (H := Fixture.run_bs) Fixture.listing_url (Fixture.world ∅)
    (Some Fixture.listing_title, Fixture.listing_images) Fixture.extracted_world.
Proof.
  exists "www.ebay.com". split; [reflexivity|].
  left. split; [reflexivity|]. vm_compute. reflexivity.
Defined.

Lemma fixture_folder :
  create_folder Fixture.run_env Fixture.listing_title Fixture.extracted_world
  = (Ok Fixture.listing_folder, Fixture.folder_world).
Proof. vm_compute. reflexivity. Defined.

Lemma fixture_provenance :
  write_text Fixture.run_env (Py.path_join Fixture.listing_folder "source_url.txt")
    Fixture.listing_url Fixture.folder_world
  = (Ok tt, Fixture.provenance_world).
Proof. vm_compute. reflexivity. Defined.

(** C6 on the fixture listing, one of whose two downloads fails. *)
Lemma process_listing_succeeds_witness :
  exists w',
    process_listing Fixture.run_env (bs := Fixture.run_bs) Fixture.listing_url
      (Fixture.world ∅) = (Ok true, w')
    /\ successful_listings (stats w')
       = successful_listings (stats (Fixture.world ∅)) + 1
    /\ failed_listings (stats w') = failed_listings (stats (Fixture.world ∅)).
Proof.
  exact (process_listing_succeeds_whatever_the_downloads
           Fixture.run_env (bs := Fixture.run_bs)
           Fixture.listing_url Fixture.listing_title Fixture.listing_folder
           Fixture.listing_images (Fixture.world ∅) Fixture.extracted_world
           Fixture.folder_world Fixture.provenance_world
           fixture_extracts eq_refl eq_refl fixture_folder fixture_provenance).
Defined.

(** C8 on the fixture listing. *)
Lemma process_listing_downloads_in_order_witness :
  exists w' segments,
    process_listing Fixture.run_env (bs := Fixture.run_bs) Fixture.listing_url
      (Fixture.world ∅) = (Ok true, w')
    /\ trace w' = (trace Fixture.provenance_world ++ concat segments)%list
    /\ requests (concat segments) = Fixture.listing_images
    /\ length segments = length Fixture.listing_images
    /\ (forall k img_url segment,
          nth_error Fixture.listing_images k = Some img_url ->
          nth_error segments k = Some segment ->
          call_events img_url Fixture.listing_folder
            (sanitize_filename Fixture.listing_title) (Z.of_nat k + 1) segment)
    /\ (forall index ext,
          target_path Fixture.listing_folder
            (sanitize_filename Fixture.listing_title) index ext
          = Py.path_join Fixture.listing_folder
              (sanitize_filename Fixture.listing_title
               ++ "_" ++ Py.str_of_int index ++ ext)).
Proof.
  exact (process_listing_downloads_in_order
           Fixture.run_env (bs := Fixture.run_bs)
           Fixture.listing_url Fixture.listing_title Fixture.listing_folder
           Fixture.listing_images (Fixture.world ∅) Fixture.extracted_world
           Fixture.folder_world Fixture.provenance_world
           fixture_extracts eq_refl eq_refl fixture_folder fixture_provenance).
Defined.

(** The whole run: the listing succeeds, one image is counted as
    downloaded and one as failed, and the files are the folder, the
    provenance file and the first image. *)
Example fixture_run :
  let run := process_listing Fixture.run_env (bs := Fixture.run_bs)
               Fixture.listing_url (Fixture.world ∅) in
  fst run = Ok true
  /\ stats (snd run) = mkStats 1 0 1 1
  /\ requests (trace (snd run)) = Fixture.listing_url :: Fixture.listing_images.
Proof. vm_compute. auto. Qed.

(** ** The image counters *)

(** X1.  Every call of [download_image] returns a boolean and raises nothing.
    When it returns [False] it has added one to [failed_images] and left
    [successful_images]; when it returns [True] it has added one to
    [successful_images] and left [failed_images], unless the request
    succeeded and the target file was on disk already, where no counter has
    moved. *)
Theorem download_image_counters (env : Env)
    (url folder_path filename : string) (index : Z) (w : World) :
  exists (b : bool) (w' : World),
    download_image env url folder_path filename index w = (Ok b, w')
    /\ ((b = false
         /\ failed_images (stats w') = failed_images (stats w) + 1
         /\ successful_images (stats w') = successful_images (stats w))
        \/ (b = true
            /\ successful_images (stats w') = successful_images (stats w) + 1
            /\ failed_images (stats w') = failed_images (stats w))
        \/ (b = true
            /\ stats w' = stats w
            /\ exists response,
                 http_get env (trace w) url = Ok response
                 /\ target_path folder_path filename index
                      (extension_of (content_type response)) ∈ files w)).
Proof.
  unfold download_image, try_except, bind, session_get, raise_for_status,
    os_path_exists, save_body, convert_to_jpg, image_open, image_save, os_remove, io,
    try_except, bind.
  destruct (http_get env (trace w) url) as [response|e] eqn:Hget; simpl;
    [|eexists; eexists; split; [reflexivity|]; left; auto].
  destruct (error_status response); simpl;
    [eexists; eexists; split; [reflexivity|]; left; auto|].
  destruct (Py.startswith (content_type response) "image/"); simpl;
    [|eexists; eexists; split; [reflexivity|]; left; auto].
  destruct (bool_decide (_ ∈ files w)) eqn:Hfile; simpl.
  { eexists. eexists. split; [reflexivity|]. right. right.
    split; [reflexivity|]. split; [reflexivity|].
    exists response. split; [reflexivity|].
    now apply bool_decide_eq_true_1 in Hfile. }
  repeat match goal with
         | |- context [match io_fault ?e ?t ?ev with _ => _ end] =>
             destruct (io_fault e t ev); simpl
         | |- context [match body_error ?r with _ => _ end] =>
             destruct (body_error r); simpl
         | |- context [if negb ?c then _ else _] => destruct c; simpl
         | |- context [if save_leaves_file ?e ?t ?p then _ else _] =>
             destruct (save_leaves_file e t p); simpl
         end;
    eexists; eexists; (split; [reflexivity|]); simpl; auto.
Qed.

(** ** Further properties of the pipeline *)

(** X2.  Neither extractor raises: whatever the network and the parser do, the
    result is a pair. *)
Theorem scrape_listing_never_raises
    (env : Env) {Soup Tag : Type} {bs : BS4 Soup Tag} (url : string) :
  returns (scrape_ebay_listing env url) /\ returns (scrape_swappa_listing env url).
Proof.
  split; [apply scrape_ebay_listing_returns | apply scrape_swappa_listing_returns].
Qed.

(** X3.  An address whose host names neither site fails at once: one failed
    listing is counted and nothing else happens, no request and no file. *)
Theorem process_listing_unsupported_site
    (env : Env) {Soup Tag : Type} {bs : BS4 Soup Tag}
    (url netloc : string) (w : World) :
  url_netloc env url = Ok netloc ->
  Py.contains "ebay" (Py.lower netloc) = false ->
  Py.contains "swappa" (Py.lower netloc) = false ->
  exists w',
    process_listing env url w = (Ok false, w')
    /\ failed_listings (stats w') = failed_listings (stats w) + 1
    /\ successful_listings (stats w') = successful_listings (stats w)
    /\ trace w' = trace w
    /\ files w' = files w.
Proof.
  intros Hnet Hebay Hswappa.
  unfold process_listing, try_except, bind at 1. unfold lift.
  rewrite Hnet, Hebay, Hswappa.
  eexists. split; [reflexivity|]. simpl. auto.
Qed.

Lemma process_listing_unsupported_site_witness :
  exists w',
    process_listing Fixture.run_env (bs := Fixture.run_bs)
      "https://www.example.com/item/1" (Fixture.world ∅) = (Ok false, w')
    /\ failed_listings (stats w') = failed_listings (stats (Fixture.world ∅)) + 1
    /\ successful_listings (stats w') = successful_listings (stats (Fixture.world ∅))
    /\ trace w' = trace (Fixture.world ∅)
    /\ files w' = files (Fixture.world ∅).
Proof.
  exact (process_listing_unsupported_site Fixture.run_env (bs := Fixture.run_bs)
           "https://www.example.com/item/1" "www.example.com" (Fixture.world ∅)
           eq_refl eq_refl eq_refl).
Defined.

(** A target path is a prefix that does not depend on the extension,
    followed by the extension. *)
Lemma target_path_prefix (folder_path filename : string) (index : Z) :
  exists prefix, forall ext,
    target_path folder_path filename index ext = prefix ++ ext.
Proof.
  unfold target_path, Py.path_join, Py.startswith.
  assert (Hname : exists c t, forall ext,
             filename ++ "_" ++ Py.str_of_int index ++ ext = String c (t ++ ext)).
  { destruct filename as [|c filename].
    - exists "_"%char, (Py.str_of_int index). reflexivity.
    - exists c, (filename ++ "_" ++ Py.str_of_int index). intros ext.
      now rewrite append_cons, !append_assoc. }
  destruct Hname as (c & t & Hname).
  destruct (Ascii.eqb "/" c) eqn:Hslash;
    [|destruct (String.eqb folder_path "" || Py.endswith folder_path "/")].
  - exists (String c t). intros ext.
    now rewrite Hname, prefix_cons, Hslash, prefix_nil.
  - exists (folder_path ++ String c t). intros ext.
    now rewrite Hname, prefix_cons, Hslash, append_assoc.
  - exists (folder_path ++ "/" ++ String c t). intros ext.
    now rewrite Hname, prefix_cons, Hslash, !append_assoc.
Qed.

Lemma target_path_inj (folder_path filename : string) (index : Z) (e1 e2 : string) :
  target_path folder_path filename index e1 = target_path folder_path filename index e2 ->
  e1 = e2.
Proof.
  destruct (target_path_prefix folder_path filename index) as [prefix Hp].
  rewrite !Hp. intros H.
  apply (f_equal (Py.drop (String.length prefix))) in H.
  now rewrite !drop_app in H.
Qed.

(** X4.  A download that meets no fault and whose content type gives another
    extension than [.jpg] ends with the JPEG file on disk and the downloaded
    file removed; it returns [True] and counts one successful image. *)
Theorem download_image_leaves_jpeg (env : Env)
    (url folder_path filename : string) (index : Z) (w : World) (response : Response) :
  (forall tr ev, io_fault env tr ev = None) ->
  http_get env (trace w) url = Ok response ->
  error_status response = false ->
  body_error response = None ->
  Py.startswith (content_type response) "image/" = true ->
  String.eqb (extension_of (content_type response)) ".jpg" = false ->
  (target_path folder_path filename index (extension_of (content_type response))
   ∉ files w) ->
  exists w',
    download_image env url folder_path filename index w = (Ok true, w')
    /\ target_path folder_path filename index ".jpg" ∈ files w'
    /\ (target_path folder_path filename index (extension_of (content_type response))
        ∉ files w')
    /\ successful_images (stats w') = successful_images (stats w) + 1.
Proof.
  intros Hfault Hget Hstatus Hbody Himage Hext Hfile.
  unfold download_image, try_except, bind, session_get, raise_for_status,
    os_path_exists, save_body, convert_to_jpg, image_open, image_save, os_remove, io,
    try_except, bind.
  rewrite Hget, Hstatus. simpl. rewrite Himage. simpl.
  rewrite bool_decide_eq_false_2 by exact Hfile. simpl.
  rewrite !Hfault, Hbody. simpl. rewrite Hext. simpl. rewrite !Hfault. simpl.
  eexists. split; [reflexivity|]. simpl.
  split; [|split; [|reflexivity]].
  - apply elem_of_difference. split.
    + apply elem_of_union. left. now apply elem_of_singleton.
    + intros Heq. apply elem_of_singleton in Heq.
      apply target_path_inj in Heq. rewrite <- Heq in Hext. discriminate.
  - intros Hin. apply elem_of_difference in Hin as [_ Hin].
    apply Hin. now apply elem_of_singleton.
Qed.

Lemma download_image_leaves_jpeg_witness :
  exists w',
    download_image Fixture.run_env
      "https://i.ebayimg.com/images/g/c/s-l1600.png" "d" "f" 3 (Fixture.world ∅)
    = (Ok true, w')
    /\ target_path "d" "f" 3 ".jpg" ∈ files w'
    /\ (target_path "d" "f" 3 ".png" ∉ files w')
    /\ successful_images (stats w') = successful_images (stats (Fixture.world ∅)) + 1.
Proof.
  exact (download_image_leaves_jpeg Fixture.run_env
           "https://i.ebayimg.com/images/g/c/s-l1600.png" "d" "f" 3 (Fixture.world ∅)
           (Fixture.image_response "image/png")
           (fun _ _ => eq_refl) eq_refl eq_refl eq_refl eq_refl eq_refl
           (not_elem_of_empty _)).
Defined.

Lemma map_m_lift_ok {A B} (f : A -> result B) (xs : list A) (ys : list B) (w : World) :
  Forall2 (fun x y => f x = Ok y) xs ys ->
  map_m (fun x => lift (f x)) xs w = (Ok ys, w).
Proof.
  induction 1 as [|x y xs ys Hx _ IH]; simpl; [reflexivity|].
  unfold bind. change (lift (f x) w) with (f x, w). rewrite Hx, IH. reflexivity.
Qed.

(** X5.  The Swappa extractor joins the kept addresses to the scheme and host of
    [url] as it is after the deduplication loop: the last image candidate
    when there is one, since the loop variable is [url] itself, and the
    listing address only when there is none. *)
Theorem scrape_swappa_listing_base_address
    (env : Env) {Soup Tag : Type} {bs : BS4 Soup Tag}
    (url : string) (w : World) (response : Response) (soup : Soup)
    (scheme netloc : string) (joined : list string) :
  http_get env (trace w) url = Ok response ->
  error_status response = false ->
  parse_html (text response) = Ok soup ->
  url_scheme env (List.last (swappa_extract_images soup) url) = Ok scheme ->
  url_netloc env (List.last (swappa_extract_images soup) url) = Ok netloc ->
  Forall2 (fun raw absolute => urljoin env (scheme ++ "://" ++ netloc) raw = Ok absolute)
    (dedup_image_urls (swappa_extract_images soup)) joined ->
  fst (scrape_swappa_listing env url w)
  = Ok (Some (swappa_title soup (unix_time env (trace w ++ [EvGet url false])%list)),
        joined).
Proof.
  intros Hget Hstatus Hparse Hscheme Hnetloc Hjoin.
  unfold scrape_swappa_listing, try_except, bind, session_get, raise_for_status,
    url_after_loop.
  rewrite Hget, Hstatus. simpl. rewrite Hparse. simpl.
  rewrite Hscheme. simpl. rewrite Hnetloc. simpl.
  match goal with
  | |- context [map_m ?g ?xs ?w0] =>
      change (map_m g xs w0)
        with (map_m (fun x => lift (urljoin env (scheme ++ "://" ++ netloc) x)) xs w0)
  end.
  rewrite (map_m_lift_ok _ _ _ _ Hjoin). reflexivity.
Qed.

(** On the Swappa fixture, whose only candidate is a path without host, the
    base address has neither scheme nor host. *)
Lemma scrape_swappa_listing_base_address_witness :
  fst (scrape_swappa_listing Fixture.run_env (bs := Fixture.run_bs)
         "https://swappa.com/listing/view/LABC123" (Fixture.world ∅))
  = Ok (Some "Green Phone", ["://" ++ "/media/a.jpg"]).
Proof.
  apply (scrape_swappa_listing_base_address Fixture.run_env (bs := Fixture.run_bs)
           "https://swappa.com/listing/view/LABC123" (Fixture.world ∅)
           (Fixture.html_response "<html>listing 2</html>") Fixture.swappa_listing
           "" "" ["://" ++ "/media/a.jpg"]);
    try reflexivity.
  repeat constructor.
Defined.


(** * Further properties of the code *)

(** ** Names that are already clean *)

Lemma allowed_char_valid (c : ascii) :
  allowed_char c = true ->
  Py.char_in c valid_chars = true /\ Ascii.eqb c " " = false.
Proof.
  destruct c as [[] [] [] [] [] [] [] []]; vm_compute; intros H;
    first [discriminate H | split; reflexivity].
Qed.

Lemma filter_all (p : ascii -> bool) (s : string) :
  Py.forallb p s = true -> Py.filter p s = s.
Proof.
  induction s as [|c s IH]; simpl; [reflexivity|].
  intros H. apply andb_true_iff in H as [Hc Hs]. rewrite Hc. now rewrite IH.
Qed.

Lemma map_chars_fixed (f : ascii -> ascii) (s : string) :
  Py.forallb (fun c => Ascii.eqb (f c) c) s = true -> map_chars f s = s.
Proof.
  induction s as [|c s IH]; simpl; [reflexivity|].
  intros H. apply andb_true_iff in H as [Hc Hs].
  apply Ascii.eqb_eq in Hc. rewrite Hc. now rewrite IH.
Qed.

Lemma forallb_weaken (p q : ascii -> bool) (s : string) :
  (forall c, p c = true -> q c = true) ->
  Py.forallb p s = true -> Py.forallb q s = true.
Proof.
  intros Hpq. induction s as [|c s IH]; simpl; [reflexivity|].
  intros H. apply andb_true_iff in H as [Hc Hs].
  rewrite (Hpq _ Hc). simpl. auto.
Qed.

(** A name of allowed characters and of at most 100 characters is its own
    sanitized form. *)
Lemma sanitize_filename_fixed (name : string) :
  Py.forallb allowed_char name = true ->
  (String.length name <= 100)%nat ->
  sanitize_filename name = name.
Proof.
  intros Hchars Hlen.
  rewrite sanitize_filename_unfold. cbv zeta.
  rewrite (filter_all _ name)
    by (apply (forallb_weaken allowed_char); [apply allowed_char_valid | exact Hchars]).
  rewrite map_chars_fixed.
  - apply Nat.ltb_ge in Hlen. now rewrite Hlen.
  - apply (forallb_weaken allowed_char); [|exact Hchars].
    intros c Hc. destruct (allowed_char_valid c Hc) as [_ Hsp]. rewrite Hsp.
    apply Ascii.eqb_refl.
Qed.

Lemma sanitize_filename_shape (name : string) :
  Py.forallb allowed_char (sanitize_filename name) = true
  /\ (String.length (sanitize_filename name) <= 100)%nat.
Proof.
  rewrite sanitize_filename_unfold. cbv zeta.
  set (kept := Py.filter _ name).
  set (sanitized := map_chars _ kept).
  assert (Hchars : Py.forallb allowed_char sanitized = true).
  { apply forallb_map_chars with (p := fun c => Py.char_in c valid_chars).
    - exact valid_char_allowed.
    - apply forallb_filter. }
  assert (Hlen : String.length sanitized = String.length kept)
    by apply length_map_chars.
  destruct (100 <? String.length kept)%nat eqn:Hlong.
  - split.
    + rewrite forallb_append, (forallb_take _ _ _ Hchars). reflexivity.
    + rewrite length_append, length_take.
      change (String.length "...") with 3%nat. lia.
  - apply Nat.ltb_ge in Hlong. split; [exact Hchars | lia].
Qed.

(** X6.  Sanitizing is idempotent: the sanitized form of a name is a fixed
    point of [sanitize_filename].  So [create_folder], which sanitizes the
    title it is given, names the folder by the very text [process_listing]
    uses as the base of the file names. *)
Theorem sanitize_filename_idempotent (name : string) :
  sanitize_filename (sanitize_filename name) = sanitize_filename name.
Proof.
  destruct (sanitize_filename_shape name) as [Hchars Hlen].
  now apply sanitize_filename_fixed.
Qed.

(** ** The normalized form of an address *)

Lemma char_in_none (c : ascii) (s : string) :
  Py.forallb (fun d => negb (Ascii.eqb d c)) s = true -> Py.char_in c s = false.
Proof.
  induction s as [|d s IH]; [reflexivity|].
  cbn [Py.forallb Py.char_in].
  intros H. apply andb_true_iff in H as [Hd Hs].
  apply negb_true_iff in Hd. rewrite (Ascii.eqb_sym c d), Hd. now apply IH.
Qed.

(** X7.  The normalized form of an address has no question mark left: the
    query string is gone, whatever stood before it. *)
Theorem normalize_image_url_drops_query (u : string) :
  no_newline u = true ->
  Py.char_in "?" (normalize_image_url u) = false.
Proof.
  intros Hu. rewrite (normalize_no_newline u Hu).
  apply char_in_none, split_head_free.
Qed.

Lemma normalize_image_url_drops_query_witness :
  Py.char_in "?" (normalize_image_url "https://i.ebayimg.com/images/g/a/s-l300.jpg?set=1&x=?")
  = false.
Proof.
  apply (normalize_image_url_drops_query
           "https://i.ebayimg.com/images/g/a/s-l300.jpg?set=1&x=?").
  reflexivity.
Defined.

(** ** Deduplication, once more *)

Lemma keep_first_distinct (seen l : list string) :
  List.NoDup (map normalize_image_url l) ->
  (forall u, In u l -> ~ In (normalize_image_url u) seen) ->
  keep_first seen l = l.
Proof.
  revert seen. induction l as [|u l IH]; intros seen Hnd Hseen; simpl; [reflexivity|].
  inversion Hnd as [|k ks Hk Hks]; subst.
  replace (existsb (String.eqb (normalize_image_url u)) seen) with false.
  - f_equal. apply IH; [exact Hks|].
    intros v Hv [Heq | Hin].
    + apply Hk. rewrite Heq. now apply in_map.
    + apply (Hseen v); [now right | exact Hin].
  - symmetry. apply existsb_eqb_not_In. apply Hseen. now left.
Qed.

(** X8.  Deduplicating is idempotent, it returns nothing only when it is
    given nothing, and it never returns more than it is given: the list an
    extractor returns is empty exactly when no strategy found an address. *)
Theorem dedup_image_urls_idempotent (candidates : list string) :
  dedup_image_urls (dedup_image_urls candidates) = dedup_image_urls candidates
  /\ (dedup_image_urls candidates = [] <-> candidates = [])
  /\ (length (dedup_image_urls candidates) <= length candidates)%nat.
Proof.
  rewrite !dedup_image_urls_keep_first. split; [|split].
  - apply keep_first_distinct; [apply keep_first_NoDup | intros u _ []].
  - split; [|intros ->; reflexivity].
    destruct candidates as [|u l]; [reflexivity | discriminate].
  - apply sublist_length, keep_first_sublist.
Qed.

(** ** Downloads, one after another *)

(** The code of [download_image], laid open. *)
Ltac open_download :=
  unfold download_image, try_except, bind, session_get, raise_for_status,
    os_path_exists, save_body, convert_to_jpg, image_open, image_save, os_remove, io,
    try_except, bind.

(** X9.  A turned-down answer costs one failed image and nothing else: when
    the request raises, the status is an error or the content type is no
    image type, [download_image] returns [False], adds one to
    [failed_images], and has made its request and touched no file. *)
Theorem download_image_rejected (env : Env)
    (url folder_path filename : string) (index : Z) (w : World) :
  response_rejected env url w ->
  exists w',
    download_image env url folder_path filename index w = (Ok false, w')
    /\ failed_images (stats w') = failed_images (stats w) + 1
    /\ successful_images (stats w') = successful_images (stats w)
    /\ trace w' = (trace w ++ [EvGet url true])%list
    /\ files w' = files w.
Proof.
  unfold response_rejected. open_download.
  destruct (http_get env (trace w) url) as [response|e]; simpl.
  - intros [Hstatus | Htype].
    + rewrite Hstatus. simpl. eexists. split; [reflexivity|]. simpl. auto.
    + destruct (error_status response); simpl.
      * eexists. split; [reflexivity|]. simpl. auto.
      * rewrite Htype. simpl. eexists. split; [reflexivity|]. simpl. auto.
  - intros _. eexists. split; [reflexivity|]. simpl. auto.
Qed.

Lemma download_image_rejected_witness :
  exists w',
    download_image Fixture.run_env "https://i.ebayimg.com/images/g/b/s-l1600.jpg"
      "d" "f" 2 (Fixture.world ∅) = (Ok false, w')
    /\ failed_images (stats w') = failed_images (stats (Fixture.world ∅)) + 1
    /\ successful_images (stats w') = successful_images (stats (Fixture.world ∅))
    /\ trace w'
       = (trace (Fixture.world ∅)
          ++ [EvGet "https://i.ebayimg.com/images/g/b/s-l1600.jpg" true])%list
    /\ files w' = files (Fixture.world ∅).
Proof.
  apply (download_image_rejected Fixture.run_env
           "https://i.ebayimg.com/images/g/b/s-l1600.jpg" "d" "f" 2 (Fixture.world ∅)).
  right. reflexivity.
Defined.

Section Reruns.
Context (env : Env) (url folder_path filename : string) (index : Z).
Context (response : Response).
Hypothesis same_answer : forall tr, http_get env tr url = Ok response.
Hypothesis no_fault : forall tr ev, io_fault env tr ev = None.

Let ext := extension_of (content_type response).
Let target := target_path folder_path filename index ext.
Let jpg := target_path folder_path filename index ".jpg".

(** The call that finds its target on disk. *)
Lemma download_image_skip_run (w : World) :
  error_status response = false ->
  Py.startswith (content_type response) "image/" = true ->
  target ∈ files w ->
  download_image env url folder_path filename index w
  = (Ok true, record (EvExists target) (record (EvGet url true) w)).
Proof.
  intros Hstatus Himage Hfile. open_download.
  rewrite same_answer, Hstatus. simpl. rewrite Himage. simpl.
  fold ext. fold target.
  now rewrite bool_decide_eq_true_2 by exact Hfile.
Qed.

(** The call that downloads a JPEG. *)
Lemma download_image_jpeg_run (w : World) :
  good_image response -> ext = ".jpg" -> target ∉ files w ->
  exists w1,
    download_image env url folder_path filename index w = (Ok true, w1)
    /\ files w1 = {[target]} ∪ files w
    /\ trace w1 = (trace w ++ download_trace url target)%list
    /\ successful_images (stats w1) = successful_images (stats w) + 1
    /\ failed_images (stats w1) = failed_images (stats w).
Proof.
  intros (Hstatus & Himage & Hbody) Hext Hfile. open_download.
  rewrite same_answer, Hstatus. simpl. rewrite Himage. simpl.
  fold ext. fold target.
  rewrite bool_decide_eq_false_2 by exact Hfile. simpl.
  rewrite !no_fault, Hbody. simpl. rewrite Hext. simpl.
  eexists. split; [reflexivity|]. simpl.
  rewrite <- !app_assoc. auto.
Qed.

(** The call that downloads another format and converts it. *)
Lemma download_image_convert_run (w : World) :
  good_image response -> String.eqb ext ".jpg" = false -> target ∉ files w ->
  exists w1,
    download_image env url folder_path filename index w = (Ok true, w1)
    /\ files w1 = ({[jpg]} ∪ ({[target]} ∪ files w)) ∖ {[target]}
    /\ trace w1
       = (trace w ++ download_trace url target ++ convert_trace target jpg)%list
    /\ successful_images (stats w1) = successful_images (stats w) + 1
    /\ failed_images (stats w1) = failed_images (stats w).
Proof.
  intros (Hstatus & Himage & Hbody) Hext Hfile. open_download.
  rewrite same_answer, Hstatus. simpl. rewrite Himage. simpl.
  fold ext. fold target.
  rewrite bool_decide_eq_false_2 by exact Hfile. simpl.
  rewrite !no_fault, Hbody. simpl. rewrite Hext. simpl. rewrite !no_fault. simpl.
  eexists. split; [reflexivity|]. simpl.
  rewrite <- !app_assoc. auto.
Qed.

(** X10.  A JPEG is downloaded once.  With a server that keeps its answer
    and no fault on disk, the first of two calls for the same image writes
    the file and counts it; the second finds the file, makes its request,
    and stops there without a count. *)
Lemma download_image_jpeg_twice (w : World) :
  good_image response -> ext = ".jpg" -> target ∉ files w ->
  exists w1 w2,
    download_image env url folder_path filename index w = (Ok true, w1)
    /\ download_image env url folder_path filename index w1 = (Ok true, w2)
    /\ files w2 = files w1
    /\ trace w2 = (trace w1 ++ [EvGet url true; EvExists target])%list
    /\ successful_images (stats w2) = successful_images (stats w) + 1
    /\ failed_images (stats w2) = failed_images (stats w).
Proof.
  intros Hgood Hext Hfile.
  destruct (download_image_jpeg_run w Hgood Hext Hfile)
    as (w1 & Hrun & Hfiles & Htrace & Hs & Hf).
  exists w1. eexists. split; [exact Hrun|].
  destruct Hgood as (Hstatus & Himage & _).
  rewrite (download_image_skip_run w1 Hstatus Himage)
    by (rewrite Hfiles; apply elem_of_union; left; now apply elem_of_singleton).
  split; [reflexivity|]. simpl. rewrite <- app_assoc. auto.
Qed.

(** X11.  Another format is downloaded and converted every time.  The
    conversion removes the file with the extension of the content type, and
    that file is the one the next call looks for: the second of two calls
    does all the first did, and two successful images are counted. *)
Lemma download_image_convert_twice (w : World) :
  good_image response -> String.eqb ext ".jpg" = false -> target ∉ files w ->
  exists w1 w2,
    download_image env url folder_path filename index w = (Ok true, w1)
    /\ download_image env url folder_path filename index w1 = (Ok true, w2)
    /\ trace w2
       = (trace w
          ++ (download_trace url target ++ convert_trace target jpg)
          ++ (download_trace url target ++ convert_trace target jpg))%list
    /\ successful_images (stats w2) = successful_images (stats w) + 2.
Proof.
  intros Hgood Hext Hfile.
  destruct (download_image_convert_run w Hgood Hext Hfile)
    as (w1 & Hrun & Hfiles & Htrace & Hs & Hf).
  assert (Hfile1 : target ∉ files w1).
  { rewrite Hfiles. intros Hin. apply elem_of_difference in Hin as [_ Hin].
    apply Hin. now apply elem_of_singleton. }
  destruct (download_image_convert_run w1 Hgood Hext Hfile1)
    as (w2 & Hrun2 & Hfiles2 & Htrace2 & Hs2 & Hf2).
  exists w1, w2. split; [exact Hrun|]. split; [exact Hrun2|].
  split; [rewrite Htrace2, Htrace, <- !app_assoc; reflexivity | lia].
Qed.

(** X12.  A body that breaks off leaves its file behind.  The call returns
    [False] and counts a failed image, but the file it opened stays on
    disk; the next call for the same image finds it and returns [True]
    without writing or counting anything. *)
Lemma download_image_truncated_then_skipped (w : World) (e : Exn) :
  error_status response = false ->
  Py.startswith (content_type response) "image/" = true ->
  body_error response = Some e ->
  target ∉ files w ->
  exists w1 w2,
    download_image env url folder_path filename index w = (Ok false, w1)
    /\ target ∈ files w1
    /\ failed_images (stats w1) = failed_images (stats w) + 1
    /\ download_image env url folder_path filename index w1 = (Ok true, w2)
    /\ files w2 = files w1
    /\ stats w2 = stats w1
    /\ trace w2 = (trace w1 ++ [EvGet url true; EvExists target])%list.
Proof.
  intros Hstatus Himage Hbody Hfile.
  assert (Hrun : exists w1,
             download_image env url folder_path filename index w = (Ok false, w1)
             /\ files w1 = {[target]} ∪ files w
             /\ failed_images (stats w1) = failed_images (stats w) + 1).
  { open_download.
    rewrite same_answer, Hstatus. simpl. rewrite Himage. simpl.
    fold ext. fold target.
    rewrite bool_decide_eq_false_2 by exact Hfile. simpl.
    rewrite !no_fault, Hbody. simpl.
    eexists. split; [reflexivity|]. simpl. auto. }
  destruct Hrun as (w1 & Hrun & Hfiles & Hf).
  assert (Hin : target ∈ files w1)
    by (rewrite Hfiles; apply elem_of_union; left; now apply elem_of_singleton).
  exists w1. eexists. split; [exact Hrun|]. split; [exact Hin|]. split; [exact Hf|].
  rewrite (download_image_skip_run w1 Hstatus Himage Hin).
  split; [reflexivity|]. simpl. rewrite <- app_assoc. auto.
Qed.

End Reruns.

Lemma download_image_jpeg_twice_witness :
  exists w1 w2,
    download_image Fixture.run_env "https://i.ebayimg.com/images/g/a/s-l1600.jpg"
      "d" "f" 1 (Fixture.world ∅) = (Ok true, w1)
    /\ download_image Fixture.run_env "https://i.ebayimg.com/images/g/a/s-l1600.jpg"
         "d" "f" 1 w1 = (Ok true, w2)
    /\ files w2 = files w1
    /\ trace w2
       = (trace w1 ++ [EvGet "https://i.ebayimg.com/images/g/a/s-l1600.jpg" true;
                       EvExists "d/f_1.jpg"])%list
    /\ successful_images (stats w2) = successful_images (stats (Fixture.world ∅)) + 1
    /\ failed_images (stats w2) = failed_images (stats (Fixture.world ∅)).
Proof.
  apply (download_image_jpeg_twice Fixture.run_env
           "https://i.ebayimg.com/images/g/a/s-l1600.jpg" "d" "f" 1
           (Fixture.image_response "image/jpeg")
           (fun _ => eq_refl) (fun _ _ => eq_refl) (Fixture.world ∅)).
  - repeat split.
  - reflexivity.
  - apply not_elem_of_empty.
Defined.

Lemma download_image_convert_twice_witness :
  exists w1 w2,
    download_image Fixture.run_env "https://i.ebayimg.com/images/g/c/s-l1600.png"
      "d" "f" 3 (Fixture.world ∅) = (Ok true, w1)
    /\ download_image Fixture.run_env "https://i.ebayimg.com/images/g/c/s-l1600.png"
         "d" "f" 3 w1 = (Ok true, w2)
    /\ trace w2
       = (trace (Fixture.world ∅)
          ++ (download_trace "https://i.ebayimg.com/images/g/c/s-l1600.png" "d/f_3.png"
              ++ convert_trace "d/f_3.png" "d/f_3.jpg")
          ++ (download_trace "https://i.ebayimg.com/images/g/c/s-l1600.png" "d/f_3.png"
              ++ convert_trace "d/f_3.png" "d/f_3.jpg"))%list
    /\ successful_images (stats w2) = successful_images (stats (Fixture.world ∅)) + 2.
Proof.
  apply (download_image_convert_twice Fixture.run_env
           "https://i.ebayimg.com/images/g/c/s-l1600.png" "d" "f" 3
           (Fixture.image_response "image/png")
           (fun _ => eq_refl) (fun _ _ => eq_refl) (Fixture.world ∅)).
  - repeat split.
  - reflexivity.
  - apply not_elem_of_empty.
Defined.

Lemma download_image_truncated_then_skipped_witness :
  exists w1 w2,
    download_image Fixture.truncating_env "https://i.ebayimg.com/images/g/t/s-l1600.jpg"
      "d" "f" 1 (Fixture.world ∅) = (Ok false, w1)
    /\ "d/f_1.jpg" ∈ files w1
    /\ failed_images (stats w1) = failed_images (stats (Fixture.world ∅)) + 1
    /\ download_image Fixture.truncating_env "https://i.ebayimg.com/images/g/t/s-l1600.jpg"
         "d" "f" 1 w1 = (Ok true, w2)
    /\ files w2 = files w1
    /\ stats w2 = stats w1
    /\ trace w2
       = (trace w1 ++ [EvGet "https://i.ebayimg.com/images/g/t/s-l1600.jpg" true;
                       EvExists "d/f_1.jpg"])%list.
Proof.
  apply (download_image_truncated_then_skipped Fixture.truncating_env
           "https://i.ebayimg.com/images/g/t/s-l1600.jpg" "d" "f" 1
           Fixture.truncated_response
           (fun _ => eq_refl) (fun _ _ => eq_refl) (Fixture.world ∅)
           (Exception "ChunkedEncodingError")).
  - reflexivity.
  - reflexivity.
  - reflexivity.
  - apply not_elem_of_empty.
Defined.

(** X13.  A failed conversion does not fail the download.  When the image
    library cannot open the downloaded file, [download_image] still returns
    [True] and counts a successful image; the downloaded file stays on disk
    under the extension of its content type and no JPEG is written. *)
Theorem download_image_keeps_unconverted (env : Env)
    (url folder_path filename : string) (index : Z) (w : World)
    (response : Response) (e : Exn) :
  http_get env (trace w) url = Ok response ->
  good_image response ->
  String.eqb (extension_of (content_type response)) ".jpg" = false ->
  (target_path folder_path filename index (extension_of (content_type response))
   ∉ files w) ->
  (forall tr path, io_fault env tr (EvOpenWrite path) = None) ->
  (forall tr path, io_fault env tr (EvReadBody path) = None) ->
  (forall tr path, io_fault env tr (EvImageOpen path) = Some e) ->
  exists w',
    download_image env url folder_path filename index w = (Ok true, w')
    /\ files w'
       = {[target_path folder_path filename index (extension_of (content_type response))]}
         ∪ files w
    /\ successful_images (stats w') = successful_images (stats w) + 1
    /\ failed_images (stats w') = failed_images (stats w)
    /\ requests (trace w') = (requests (trace w) ++ [url])%list.
Proof.
  intros Hget (Hstatus & Himage & Hbody) Hext Hfile Hopen Hread Hpil.
  open_download.
  rewrite Hget, Hstatus. simpl. rewrite Himage. simpl.
  rewrite bool_decide_eq_false_2 by exact Hfile. simpl.
  rewrite Hopen. simpl. rewrite Hread, Hbody. simpl. rewrite Hext. simpl.
  rewrite Hpil. simpl.
  eexists. split; [reflexivity|]. simpl.
  repeat split. rewrite !requests_app. simpl. now rewrite !app_nil_r.
Qed.

Lemma download_image_keeps_unconverted_witness :
  exists w',
    download_image Fixture.cannot_open_env "https://i.ebayimg.com/images/g/c/s-l1600.png"
      "d" "f" 3 (Fixture.world ∅) = (Ok true, w')
    /\ files w' = {["d/f_3.png"]} ∪ files (Fixture.world ∅)
    /\ successful_images (stats w') = successful_images (stats (Fixture.world ∅)) + 1
    /\ failed_images (stats w') = failed_images (stats (Fixture.world ∅))
    /\ requests (trace w')
       = (requests (trace (Fixture.world ∅))
          ++ ["https://i.ebayimg.com/images/g/c/s-l1600.png"])%list.
Proof.
  apply (download_image_keeps_unconverted Fixture.cannot_open_env
           "https://i.ebayimg.com/images/g/c/s-l1600.png" "d" "f" 3 (Fixture.world ∅)
           (Fixture.image_response "image/png") (Exception "UnidentifiedImageError")).
  - reflexivity.
  - repeat split.
  - reflexivity.
  - apply not_elem_of_empty.
  - reflexivity.
  - reflexivity.
  - reflexivity.
Defined.

(** ** Listings that fail *)

Lemma process_extracted_unusable
    (env : Env) (url : string) (extracted : option string * list string) (w : World) :
  usable_extraction extracted = false ->
  process_extracted env url extracted w = (Ok false, snd (incr_failed_listings w)).
Proof.
  destruct extracted as [[title|] image_urls]; unfold usable_extraction; simpl;
    [|reflexivity].
  intros H. apply andb_false_iff in H.
  replace (negb (Py.truthy_str title) || negb (Py.truthy_list image_urls)) with true;
    [reflexivity|].
  destruct H as [-> | ->]; simpl; [reflexivity | now rewrite orb_true_r].
Qed.

(** X14.  A listing of which no title or no image is found fails without a
    trace on disk: [process_listing] returns [False], counts one failed
    listing, and leaves the files and the trace as the extractor left
    them, so that no folder is made and no image is asked for. *)
Theorem process_listing_nothing_extracted
    (env : Env) {Soup Tag : Type} {bs : BS4 Soup Tag}
    (url : string) (extracted : option string * list string) (w w1 : World) :
  extracts env url w extracted w1 ->
  usable_extraction extracted = false ->
  exists w',
    process_listing env url w = (Ok false, w')
    /\ files w' = files w1
    /\ trace w' = trace w1
    /\ failed_listings (stats w') = failed_listings (stats w) + 1
    /\ successful_listings (stats w') = successful_listings (stats w).
Proof.
  intros Hext Hno.
  rewrite (process_listing_extracted env url w w1 _ Hext).
  unfold try_except. rewrite (process_extracted_unusable env url extracted w1 Hno).
  eexists. split; [reflexivity|]. simpl.
  rewrite (extracts_stats env url w w1 _ Hext). auto.
Qed.

Lemma process_listing_nothing_extracted_witness :
  exists w',
    process_listing Fixture.run_env (bs := Fixture.run_bs)
      "https://www.ebay.com/itm/404" (Fixture.world ∅) = (Ok false, w')
    /\ files w' = files (record (EvGet "https://www.ebay.com/itm/404" false) (Fixture.world ∅))
    /\ trace w' = trace (record (EvGet "https://www.ebay.com/itm/404" false) (Fixture.world ∅))
    /\ failed_listings (stats w') = failed_listings (stats (Fixture.world ∅)) + 1
    /\ successful_listings (stats w') = successful_listings (stats (Fixture.world ∅)).
Proof.
  apply (process_listing_nothing_extracted Fixture.run_env (bs := Fixture.run_bs)
           "https://www.ebay.com/itm/404" (None, []) (Fixture.world ∅)).
  - exists "www.ebay.com". split; [reflexivity|]. left. split; reflexivity.
  - reflexivity.
Defined.

Section SetupFails.
Context (env : Env) {Soup Tag : Type} {bs : BS4 Soup Tag}.

Lemma create_folder_requests (title : string) :
  frames eq (fun ev => event_path ev <> None) (create_folder env title).
Proof. unfold create_folder, os_makedirs. repeat frames_step; discriminate. Qed.

Lemma write_text_requests (path content : string) :
  frames eq (fun ev => event_path ev <> None) (write_text env path content).
Proof. unfold write_text. repeat frames_step; discriminate. Qed.

Lemma requests_no_get (evs : list Event) :
  Forall (fun ev => event_path ev <> None) evs -> requests evs = [].
Proof.
  induction 1 as [|ev evs Hev _ IH]; simpl; [reflexivity|].
  destruct ev; simpl in *; try exact IH. congruence.
Qed.

Lemma frames_requests_run {A} (m : M A) (w : World) (r : result A) (w' : World) :
  frames eq (fun ev => event_path ev <> None) m -> m w = (r, w') ->
  stats w' = stats w /\ requests (trace w') = requests (trace w).
Proof.
  intros Hm Hrun. destruct (Hm w) as (evs & Ht & Hq & Hs).
  rewrite Hrun in Ht, Hs. simpl in Ht, Hs. split; [congruence|].
  rewrite Ht, requests_app, (requests_no_get _ Hq). apply app_nil_r.
Qed.

(** X15.  A folder that cannot be set up fails the listing before any
    download: when [create_folder] or the write of the provenance file
    raises, [process_listing] returns [False], counts one failed listing,
    counts no image, and has made no request after the extraction. *)
Theorem process_listing_setup_fails
    (url title : string) (image_urls : list string) (w w1 w2 : World) :
  extracts env url w (Some title, image_urls) w1 ->
  usable_extraction (Some title, image_urls) = true ->
  setup_fails env url title w1 w2 ->
  exists w',
    process_listing env url w = (Ok false, w')
    /\ failed_listings (stats w') = failed_listings (stats w) + 1
    /\ successful_listings (stats w') = successful_listings (stats w)
    /\ successful_images (stats w') = successful_images (stats w)
    /\ failed_images (stats w') = failed_images (stats w)
    /\ requests (trace w') = requests (trace w1)
    /\ files w' = files w2.
Proof.
  intros Hext Hok Hfail.
  rewrite (process_listing_extracted env url w w1 _ Hext).
  pose proof (extracts_stats env url w w1 _ Hext) as Hs1.
  unfold usable_extraction in Hok. simpl in Hok.
  unfold try_except, process_extracted.
  replace (negb (Py.truthy_str title) || negb (Py.truthy_list image_urls)) with false
    by (apply andb_true_iff in Hok as [-> ->]; reflexivity).
  unfold bind at 1.
  destruct Hfail as [[e Hfolder] | (e & folder_path & wf & Hfolder & Hwrite)].
  - rewrite Hfolder.
    destruct (frames_requests_run _ _ _ _ (create_folder_requests title) Hfolder)
      as [Hs2 Hr2].
    eexists. split; [reflexivity|]. simpl. rewrite Hs2, Hs1. auto 10.
  - rewrite Hfolder. unfold bind at 1. rewrite Hwrite.
    destruct (frames_requests_run _ _ _ _ (create_folder_requests title) Hfolder)
      as [Hsf Hrf].
    destruct (frames_requests_run _ _ _ _ (write_text_requests _ _) Hwrite)
      as [Hs2 Hr2].
    eexists. split; [reflexivity|]. simpl. rewrite Hs2, Hsf, Hs1, Hr2, Hrf. auto 10.
Qed.

End SetupFails.

Lemma process_listing_setup_fails_witness :
  exists w',
    process_listing Fixture.read_only_env (bs := Fixture.run_bs) Fixture.listing_url
      (Fixture.world ∅) = (Ok false, w')
    /\ failed_listings (stats w') = failed_listings (stats (Fixture.world ∅)) + 1
    /\ successful_listings (stats w') = successful_listings (stats (Fixture.world ∅))
    /\ successful_images (stats w') = successful_images (stats (Fixture.world ∅))
    /\ failed_images (stats w') = failed_images (stats (Fixture.world ∅))
    /\ requests (trace w')
       = requests (trace (record (EvGet Fixture.listing_url false) (Fixture.world ∅)))
    /\ files w'
       = files (snd (create_folder Fixture.read_only_env Fixture.listing_title
                       (record (EvGet Fixture.listing_url false) (Fixture.world ∅)))).
Proof.
  apply (process_listing_setup_fails Fixture.read_only_env (bs := Fixture.run_bs)
           Fixture.listing_url Fixture.listing_title Fixture.listing_images
           (Fixture.world ∅)
           (record (EvGet Fixture.listing_url false) (Fixture.world ∅))).
  - exists "www.ebay.com". split; [reflexivity|]. left. split; [reflexivity|].
    vm_compute. reflexivity.
  - reflexivity.
  - left. exists (Exception "PermissionError"). vm_compute. reflexivity.
Defined.

(** ** Where the files go *)

Lemma startswith_app (a b : string) : Py.startswith (a ++ b) a = true.
Proof.
  unfold Py.startswith. induction a as [|c a IH]; [apply prefix_nil|].
  now rewrite append_cons, prefix_cons, Ascii.eqb_refl.
Qed.

Lemma startswith_refl (a : string) : Py.startswith a a = true.
Proof.
  rewrite <- (append_nil_r a) at 1. apply startswith_app.
Qed.

Lemma startswith_trans (p a r : string) :
  Py.startswith p a = true -> Py.startswith a r = true -> Py.startswith p r = true.
Proof.
  unfold Py.startswith. intros Hpa Har.
  apply prefix_true in Hpa. apply prefix_true in Har.
  rewrite Hpa, Har, append_assoc. apply startswith_app.
Qed.

Lemma path_join_under (a b : string) :
  Py.startswith b "/" = false -> Py.startswith (Py.path_join a b) a = true.
Proof.
  intros Hb. unfold Py.path_join. rewrite Hb.
  destruct (String.eqb a "" || Py.endswith a "/"); apply startswith_app.
Qed.

Lemma allowed_not_slash (c : ascii) : allowed_char c = true -> Ascii.eqb "/" c = false.
Proof.
  destruct c as [[] [] [] [] [] [] [] []]; vm_compute; congruence.
Qed.

(** A text of allowed characters puts no slash at the head of a path
    component. *)
Lemma no_slash_head (s x : string) :
  Py.forallb allowed_char s = true ->
  Py.startswith x "/" = false ->
  Py.startswith (s ++ x) "/" = false.
Proof.
  destruct s as [|c s]; [auto|].
  intros H _. simpl in H. apply andb_true_iff in H as [Hc _].
  unfold Py.startswith. now rewrite append_cons, prefix_cons, (allowed_not_slash c Hc).
Qed.

Lemma sanitize_filename_no_slash_head (title x : string) :
  Py.startswith x "/" = false ->
  Py.startswith (sanitize_filename title ++ x) "/" = false.
Proof.
  apply no_slash_head. apply sanitize_filename_shape.
Qed.

Lemma target_path_under (folder_path title : string) (index : Z) (ext : string) :
  Py.startswith (target_path folder_path (sanitize_filename title) index ext)
    folder_path = true.
Proof.
  unfold target_path. apply path_join_under.
  now apply sanitize_filename_no_slash_head.
Qed.

Lemma any_stats_refl (s : Stats) : any_stats s s.
Proof. exact I. Qed.

Lemma any_stats_trans (s1 s2 s3 : Stats) : any_stats s1 s2 -> any_stats s2 s3 -> any_stats s1 s3.
Proof. intros _ _. exact I. Qed.

(** A framing step where the counters are free. *)
Ltac any_side :=
  first [ exact any_stats_refl | exact any_stats_trans | intros; exact I ].

Ltac frames_any :=
  first [ apply frames_bind; [try any_side .. | | intros ?]
        | apply frames_try_except; [try any_side .. | | intros ?]
        | apply frames_ret; any_side
        | apply frames_raise; any_side
        | apply frames_lift; any_side
        | apply frames_raise_for_status; any_side
        | apply frames_time_now; any_side
        | apply frames_if
        | apply frames_io; [try any_side .. | ]
        | apply frames_image_save; [try any_side .. | ]
        | apply frames_os_path_exists; [try any_side .. | ]
        | apply frames_session_get; [try any_side .. | ]
        | apply frames_for_each; [try any_side .. | intros ?]
        | apply frames_map_m; [try any_side .. | intros ?]
        | apply frames_update_stats; [try any_side .. | intros ?; exact I]
        | match goal with
          | |- frames _ _ (match ?x with _ => _ end) => destruct x
          end ].

(** The rule of sequence when what the first computation returns is
    known. *)
Lemma frames_bind_post {A B} (R : Stats -> Stats -> Prop) (Q : Event -> Prop)
    (P : A -> Prop) (m : M A) (k : A -> M B) :
  (forall s, R s s) -> (forall s1 s2 s3, R s1 s2 -> R s2 s3 -> R s1 s3) ->
  frames R Q m ->
  (forall w a, fst (m w) = Ok a -> P a) ->
  (forall a, P a -> frames R Q (k a)) ->
  frames R Q (bind m k).
Proof.
  intros Rrefl Rtrans Hm Hpost Hk w. unfold bind.
  destruct (Hm w) as (evs & Ht & Hq & Hr).
  pose proof (Hpost w) as Hp.
  destruct (m w) as [[a|e] w1]; simpl in *.
  - destruct (Hk a (Hp a eq_refl) w1) as (evs' & Ht' & Hq' & Hr').
    exists (evs ++ evs')%list. rewrite Ht', Ht, app_assoc.
    split; [reflexivity|]. split; [now apply Forall_app | eauto].
  - exists evs. auto.
Qed.

Section UnderRoot.
Context (env : Env) {Soup Tag : Type} {bs : BS4 Soup Tag}.

(** The folder [create_folder] returns. *)
Lemma create_folder_returns (title : string) (w : World) (folder_path : string) :
  fst (create_folder env title w) = Ok folder_path ->
  folder_path = Py.path_join (listing_root env) (sanitize_filename title).
Proof.
  unfold create_folder, listing_root, bind, os_path_exists, os_makedirs, io, ret.
  simpl.
  repeat match goal with
         | |- context [if ?b then _ else _] => destruct b; simpl
         | |- context [match io_fault ?e ?t ?ev with _ => _ end] =>
             destruct (io_fault e t ev); simpl
         end;
    intros H; first [discriminate H | now injection H as <-].
Qed.

Lemma listing_folder_under (title : string) :
  Py.startswith (Py.path_join (listing_root env) (sanitize_filename title))
    (listing_root env) = true.
Proof.
  apply path_join_under.
  rewrite <- (append_nil_r (sanitize_filename title)).
  now apply sanitize_filename_no_slash_head.
Qed.

Lemma create_folder_under (title : string) :
  frames any_stats (under (listing_root env)) (create_folder env title).
Proof.
  unfold create_folder, os_makedirs. fold (listing_root env).
  repeat frames_any; unfold under; simpl.
  - apply startswith_refl.
  - apply startswith_refl.
  - apply listing_folder_under.
Qed.

Lemma download_image_under (dir url folder_path title : string) (index : Z) :
  Py.startswith folder_path dir = true ->
  frames any_stats (under dir)
    (download_image env url folder_path (sanitize_filename title) index).
Proof.
  intros Hfolder w.
  destruct (download_image_events env url folder_path (sanitize_filename title) index w)
    as (evs & Ht & (rest & -> & Hrest) & _).
  exists (EvGet url true :: rest). split; [exact Ht|]. split; [|exact I].
  constructor; [exact I|].
  apply Forall_forall. intros ev Hev.
  rewrite Forall_forall in Hrest. destruct (Hrest ev Hev) as (ext & _ & Hp).
  unfold under. rewrite Hp.
  apply (startswith_trans _ folder_path); [apply target_path_under | exact Hfolder].
Qed.

Lemma process_extracted_under (url : string) (extracted : option string * list string) :
  frames any_stats (under (listing_root env)) (process_extracted env url extracted).
Proof.
  destruct extracted as [[title|] image_urls]; simpl; [|repeat frames_any].
  apply frames_if; [repeat frames_any|].
  apply (frames_bind_post any_stats _
           (fun p => p = Py.path_join (listing_root env) (sanitize_filename title)));
    [exact any_stats_refl | exact any_stats_trans | apply create_folder_under
    | intros w a; apply create_folder_returns |].
  intros folder_path ->.
  unfold write_text, download_all.
  frames_any.
  { frames_any. unfold under. simpl.
    apply (startswith_trans _ (Py.path_join (listing_root env) (sanitize_filename title)));
      [now apply path_join_under | apply listing_folder_under]. }
  frames_any; [|repeat frames_any].
  frames_any. destruct x as [i img_url].
  frames_any; [|frames_any].
  apply download_image_under, listing_folder_under.
Qed.

Lemma scrape_ebay_listing_under (url dir : string) :
  frames any_stats (under dir) (scrape_ebay_listing env url).
Proof. unfold scrape_ebay_listing. repeat frames_any. exact I. Qed.

Lemma scrape_swappa_listing_under (url dir : string) :
  frames any_stats (under dir) (scrape_swappa_listing env url).
Proof. unfold scrape_swappa_listing. repeat frames_any. exact I. Qed.

End UnderRoot.

(** X16.  Where [process_listing] writes.  Whatever the address, the pages
    and the answers of the servers, the path of every file-system and image
    call it makes is the directory [listing_images] of the home directory
    followed by further text: the folder is that directory joined with the
    sanitized title, which has no slash, and the files are in the folder.
    The statement is about the text of the paths; a sanitized title may
    still be one or two dots. *)
Theorem process_listing_paths_extend_root
    (env : Env) {Soup Tag : Type} {bs : BS4 Soup Tag} (url : string) (w : World) :
  exists evs,
    trace (snd (process_listing env url w)) = (trace w ++ evs)%list
    /\ Forall (under (listing_root env)) evs.
Proof.
  assert (H : frames any_stats (under (listing_root env)) (process_listing env url)).
  { unfold process_listing.
    frames_any; [|repeat frames_any].
    frames_any; [frames_any|].
    cbv zeta.
    apply frames_if; [|apply frames_if; [|repeat frames_any]].
    - frames_any; [apply scrape_ebay_listing_under | apply process_extracted_under].
    - frames_any; [apply scrape_swappa_listing_under | apply process_extracted_under]. }
  destruct (H w) as (evs & Ht & Hq & _). now exists evs.
Qed.

(** ** Images counted and images requested *)

Lemma image_requests_app (evs evs' : list Event) :
  image_requests (evs ++ evs') = image_requests evs + image_requests evs'.
Proof.
  induction evs as [|[u [] | | | | | | | |] evs IH]; simpl; lia.
Qed.

Lemma image_requests_nonneg (evs : list Event) : 0 <= image_requests evs.
Proof.
  induction evs as [|[u [] | | | | | | | |] evs IH]; simpl; lia.
Qed.

Lemma image_requests_on_target (folder_path filename : string) (index : Z)
    (evs : list Event) :
  Forall (on_target folder_path filename index) evs -> image_requests evs = 0.
Proof.
  induction 1 as [|ev evs (ext & _ & Hp) _ IH]; [reflexivity|].
  destruct ev; simpl in *; try exact IH. discriminate Hp.
Qed.

Lemma images_within_step (n m : Z) (s1 s2 s3 : Stats) :
  images_within n s1 s2 -> images_within m s2 s3 -> images_within (n + m) s1 s3.
Proof. unfold images_within. lia. Qed.

Section Accounting.
Context (env : Env) {Soup Tag : Type} {bs : BS4 Soup Tag}.

Lemma accounted_bind {A B} (m : M A) (k : A -> M B) :
  accounted m -> (forall a, accounted (k a)) -> accounted (bind m k).
Proof.
  intros Hm Hk w. unfold bind.
  destruct (Hm w) as (evs & Ht & Hs).
  destruct (m w) as [[a|e] w1]; simpl in *; [|now exists evs].
  destruct (Hk a w1) as (evs' & Ht' & Hs').
  exists (evs ++ evs')%list. rewrite Ht', Ht, app_assoc, image_requests_app.
  split; [reflexivity | now apply (images_within_step _ _ _ (stats w1))].
Qed.

Lemma accounted_try_except {A} (body : M A) (handler : Exn -> M A) :
  accounted body -> (forall e, accounted (handler e)) ->
  accounted (try_except body handler).
Proof.
  intros Hm Hk w. unfold try_except.
  destruct (Hm w) as (evs & Ht & Hs).
  destruct (body w) as [[a|e] w1]; simpl in *; [now exists evs|].
  destruct (Hk e w1) as (evs' & Ht' & Hs').
  exists (evs ++ evs')%list. rewrite Ht', Ht, app_assoc, image_requests_app.
  split; [reflexivity | now apply (images_within_step _ _ _ (stats w1))].
Qed.

Lemma accounted_ret {A} (a : A) : accounted (ret a).
Proof.
  intros w. exists []. rewrite app_nil_r. split; [reflexivity|].
  unfold images_within. simpl. lia.
Qed.

Lemma accounted_for_each {A} (xs : list A) (body : A -> M unit) :
  (forall x, accounted (body x)) -> accounted (for_each xs body).
Proof.
  intros Hbody. induction xs as [|x xs IH]; simpl.
  - apply accounted_ret.
  - apply accounted_bind; [apply Hbody | intros _; exact IH].
Qed.

(** What leaves the counters alone counts no image. *)
Lemma accounted_frames {A} (Q : Event -> Prop) (m : M A) :
  frames eq Q m -> accounted m.
Proof.
  intros Hm w. destruct (Hm w) as (evs & Ht & _ & <-).
  exists evs. split; [exact Ht|].
  pose proof (image_requests_nonneg evs). unfold images_within. lia.
Qed.

Lemma accounted_listing_counter (f : Stats -> Stats) :
  (forall s, successful_images (f s) = successful_images s
             /\ failed_images (f s) = failed_images s) ->
  accounted (update_stats f).
Proof.
  intros Hf w. exists []. rewrite app_nil_r. split; [reflexivity|].
  destruct (Hf (stats w)) as [Hs Hx]. unfold images_within. simpl. lia.
Qed.

Lemma accounted_listing_failed : accounted (incr_failed_listings ;; ret false)%py.
Proof.
  apply accounted_bind; [now apply accounted_listing_counter|].
  intros _. apply accounted_ret.
Qed.

(** One call of [download_image] moves one image counter by one, or
    none. *)
Lemma download_image_images_within
    (url folder_path filename : string) (index : Z) (w : World) :
  images_within 1 (stats w)
    (stats (snd (download_image env url folder_path filename index w))).
Proof.
  unfold images_within, download_image, try_except, bind, session_get, raise_for_status,
    os_path_exists, save_body, convert_to_jpg, image_open, image_save, os_remove, io,
    try_except, bind.
  destruct (http_get env (trace w) url) as [response|e]; simpl; [|lia].
  destruct (error_status response); simpl; [lia|].
  destruct (Py.startswith (content_type response) "image/"); simpl; [|lia].
  destruct (bool_decide (_ ∈ files w)); simpl; [lia|].
  repeat match goal with
         | |- context [match io_fault ?e ?t ?ev with _ => _ end] =>
             destruct (io_fault e t ev); simpl
         | |- context [match body_error ?r with _ => _ end] =>
             destruct (body_error r); simpl
         | |- context [if negb ?c then _ else _] => destruct c; simpl
         | |- context [if save_leaves_file ?e ?t ?p then _ else _] =>
             destruct (save_leaves_file e t p); simpl
         end;
    lia.
Qed.

Lemma download_image_accounted (url folder_path filename : string) (index : Z) :
  accounted (download_image env url folder_path filename index).
Proof.
  intros w.
  destruct (download_image_events env url folder_path filename index w)
    as (evs & Ht & (rest & -> & Hrest) & _).
  exists (EvGet url true :: rest). split; [exact Ht|].
  simpl. rewrite (image_requests_on_target _ _ _ _ Hrest).
  apply download_image_images_within.
Qed.

Lemma process_extracted_accounted (url : string)
    (extracted : option string * list string) :
  accounted (process_extracted env url extracted).
Proof.
  destruct extracted as [[title|] image_urls]; simpl;
    [|apply accounted_listing_failed].
  destruct (negb (Py.truthy_str title) || negb (Py.truthy_list image_urls));
    [apply accounted_listing_failed|].
  apply accounted_bind;
    [apply (accounted_frames _ _ (create_folder_frames env title)) | intros folder_path].
  apply accounted_bind;
    [apply (accounted_frames _ _ (write_text_frames env _ _)) | intros _].
  apply accounted_bind.
  - apply accounted_for_each. intros [i img_url].
    apply accounted_bind; [apply download_image_accounted | intros _].
    apply accounted_ret.
  - intros _. apply accounted_bind; [now apply accounted_listing_counter | intros _].
    apply accounted_ret.
Qed.

End Accounting.

(** X17.  No image is counted that was not requested.  Over a call of
    [process_listing], whatever its outcome, neither image counter goes
    down, and the two together go up by no more than the number of image
    requests the call has made.  The bound is not always met: a download
    that finds its target file on disk is requested and not counted. *)
Theorem process_listing_images_accounted
    (env : Env) {Soup Tag : Type} {bs : BS4 Soup Tag} (url : string) (w : World) :
  exists evs,
    trace (snd (process_listing env url w)) = (trace w ++ evs)%list
    /\ images_within (image_requests evs) (stats w)
         (stats (snd (process_listing env url w))).
Proof.
  revert w. change (accounted (process_listing env url)).
  unfold process_listing.
  apply accounted_try_except; [|intros _; apply accounted_listing_failed].
  apply accounted_bind;
    [apply (accounted_frames (fun _ => True)), frames_lift; reflexivity | intros netloc].
  cbv zeta.
  destruct (Py.contains "ebay" (Py.lower netloc)).
  { apply accounted_bind;
      [apply (accounted_frames _ _ (scrape_ebay_listing_frames env url))
      | intros extracted; apply process_extracted_accounted]. }
  destruct (Py.contains "swappa" (Py.lower netloc)).
  { apply accounted_bind;
      [apply (accounted_frames _ _ (scrape_swappa_listing_frames env url))
      | intros extracted; apply process_extracted_accounted]. }
  apply accounted_listing_failed.
Qed.

(** ** Thumbnails turned into full-size addresses *)

Section Thumbnail.

Local Abbreviation resize := (Re.sub Re.size_token "s-l1600").

(** The digits of the thumbnail size that is replaced. *)
Context (k : string) (k_digits : is_digits k = true).

Local Abbreviation old := (String "s" (String "-" (String "l" k))).
Local Abbreviation enlarge := (Py.replace_scan old "s-l1600" 0).

Lemma replace_scan_drop (a b : string) (n : nat) (s : string) :
  Py.replace_scan a b n s = Py.replace_scan a b 0 (Py.drop n s).
Proof.
  revert n. induction s as [|c s IH]; intros [|n]; simpl; auto.
Qed.

(** The equation of the replacement. *)
Lemma enlarge_cons (c : ascii) (s : string) :
  enlarge (String c s)
  = if String.prefix old (String c s)
    then "s-l1600" ++ enlarge (Py.drop (String.length old) (String c s))
    else String c (enlarge s).
Proof.
  cbn [Py.replace_scan].
  destruct (String.prefix old (String c s)); [|reflexivity].
  rewrite (replace_scan_drop _ _ (String.length old - 1)). f_equal.
Qed.

Lemma enlarge_cons_other (c : ascii) (s : string) :
  Ascii.eqb "s" c = false -> enlarge (String c s) = String c (enlarge s).
Proof. intros H. now rewrite enlarge_cons, prefix_cons, H. Qed.

Lemma enlarge_digit (c : ascii) (s : string) :
  Py.is_digit c = true -> enlarge (String c s) = String c (enlarge s).
Proof.
  intros H. apply enlarge_cons_other.
  destruct (Ascii.eqb "s" c) eqn:E; [|reflexivity].
  apply Ascii.eqb_eq in E. subst c. discriminate H.
Qed.

(** The first character of a text survives the replacement. *)
Lemma enlarge_head (s : string) (c : ascii) (t : string) :
  enlarge s = String c t -> exists s', s = String c s'.
Proof.
  destruct s as [|c0 s]; [discriminate|].
  rewrite enlarge_cons, prefix_cons.
  destruct (Ascii.eqb "s" c0) eqn:E; simpl.
  - apply Ascii.eqb_eq in E. subst c0.
    destruct (String.prefix _ s); intros [= <- _]; eauto.
  - intros [= <- _]. eauto.
Qed.

Lemma span_enlarge_zero (y : string) :
  Re.span Py.is_digit y = O -> Re.span Py.is_digit (enlarge y) = O.
Proof.
  destruct y as [|c y]; [reflexivity|].
  simpl Re.span at 1. destruct (Py.is_digit c) eqn:Hc; [discriminate|]. intros _.
  rewrite enlarge_cons.
  destruct (String.prefix old (String c y)); [reflexivity|].
  simpl. now rewrite Hc.
Qed.

(** The replacement leaves a run of digits as it is, and goes on after
    it. *)
Lemma enlarge_digit_run (r : string) :
  Re.span Py.is_digit (enlarge r) = Re.span Py.is_digit r
  /\ Py.drop (Re.span Py.is_digit r) (enlarge r)
     = enlarge (Py.drop (Re.span Py.is_digit r) r).
Proof.
  induction r as [|c r [IHs IHd]]; [split; reflexivity|].
  destruct (Py.is_digit c) eqn:Hc.
  - rewrite enlarge_digit by exact Hc. simpl. rewrite Hc. simpl. now rewrite IHs.
  - assert (H0 : Re.span Py.is_digit (String c r) = O) by (simpl; now rewrite Hc).
    rewrite H0. split; [now apply span_enlarge_zero | reflexivity].
Qed.

(** The replacement neither creates nor destroys a size token at the
    head. *)
Lemma size_token_enlarge_none (c : ascii) (u : string) :
  Re.size_token (String c u) = None -> Re.size_token (String c (enlarge u)) = None.
Proof.
  intros Hnone.
  destruct (Re.size_token (String c (enlarge u))) as [n|] eqn:E; [exfalso|reflexivity].
  apply size_token_inv in E as (r & d & Hs & Hd & _).
  change ("s-l" ++ r) with (String "s" (String "-" (String "l" r))) in Hs.
  injection Hs as -> Hu.
  destruct (enlarge_head _ _ _ Hu) as [u2 ->].
  rewrite enlarge_cons_other in Hu by reflexivity. injection Hu as Hu.
  destruct (enlarge_head _ _ _ Hu) as [u3 ->].
  rewrite enlarge_cons_other in Hu by reflexivity. injection Hu as Hu.
  destruct r as [|d0 r]; [discriminate|].
  simpl in Hd. destruct (Py.is_digit d0) eqn:Hd0; [|discriminate].
  destruct (enlarge_head _ _ _ Hu) as [u4 ->].
  unfold Re.size_token in Hnone. rewrite !prefix_cons, prefix_nil in Hnone.
  simpl in Hnone. rewrite Hd0 in Hnone. discriminate.
Qed.

(** Replacing one thumbnail size by the full size changes no size token
    into anything the scan of [normalize_image_url] tells from it. *)
Lemma resize_enlarge (s : string) : resize (enlarge s) = resize s.
Proof.
  remember (String.length s) as n eqn:Hn.
  revert s Hn. induction n as [n IH] using lt_wf_ind. intros s Hn.
  destruct s as [|c u]; [reflexivity|].
  rewrite enlarge_cons.
  destruct (String.prefix old (String c u)) eqn:Hold.
  - apply prefix_true in Hold.
    set (rest := Py.drop (String.length old) (String c u)) in *.
    rewrite Hold.
    change (old ++ rest) with ("s-l" ++ k ++ rest).
    change ("s-l1600" ++ enlarge rest) with ("s-l" ++ "1600" ++ enlarge rest).
    rewrite !resize_token by (exact k_digits || reflexivity).
    f_equal.
    destruct (enlarge_digit_run rest) as [-> ->].
    apply (IH (String.length (Py.drop (Re.span Py.is_digit rest) rest)));
      [|reflexivity].
    subst n rest. rewrite !length_drop. simpl. lia.
  - rewrite (sub_cons _ _ c u).
    destruct (Re.size_token (String c u)) as [[|m]|] eqn:Hm.
    + apply size_token_le in Hm. lia.
    + apply size_token_inv in Hm as (r & d & Hs & Hd & Hmd).
      change ("s-l" ++ r) with (String "s" ("-l" ++ r)) in Hs.
      injection Hs as -> ->. injection Hmd as ->.
      change ("-l" ++ r) with (String "-" (String "l" r)).
      rewrite !enlarge_cons_other by reflexivity.
      destruct (enlarge_digit_run r) as [Hspan Hdrop].
      rewrite sub_cons.
      change (String "s" (String "-" (String "l" (enlarge r))))
        with ("s-l" ++ enlarge r).
      rewrite (size_token_token _ d) by now rewrite Hspan.
      cbn [Nat.add Py.drop]. f_equal.
      change (resize (Py.drop (S d) (enlarge r)) = resize (Py.drop (S d) r)).
      rewrite <- Hd, Hdrop.
      apply (IH (String.length (Py.drop (Re.span Py.is_digit r) r))); [|reflexivity].
      change ("-l" ++ r) with (String "-" (String "l" r)) in Hn.
      subst n. rewrite length_drop. simpl. lia.
    + rewrite sub_cons, size_token_enlarge_none by exact Hm.
      f_equal. apply (IH (String.length u)); [subst n; simpl; lia | reflexivity].
Qed.

End Thumbnail.

Lemma resize_full_size (src : string) :
  Re.sub Re.size_token "s-l1600" (full_size src) = Re.sub Re.size_token "s-l1600" src.
Proof.
  unfold full_size, Py.replace.
  now rewrite (resize_enlarge "400"), (resize_enlarge "300"), (resize_enlarge "64").
Qed.

Lemma keep_first_map (f : string -> string) (seen l : list string) :
  (forall u, normalize_image_url (f u) = normalize_image_url u) ->
  keep_first seen (map f l) = map f (keep_first seen l).
Proof.
  intros Hf. revert seen.
  induction l as [|u l IH]; intros seen; simpl; [reflexivity|].
  rewrite Hf. destruct (existsb _ seen); simpl; now rewrite IH.
Qed.

(** X18.  Turning thumbnails into full-size addresses, as method 2 of the
    eBay extractor does, does not change the key by which addresses are
    deduplicated.  So it makes no difference to the choice among
    duplicates whether the addresses are enlarged before or after the
    deduplication. *)
Theorem full_size_keeps_key (srcs : list string) :
  (forall src, normalize_image_url (full_size src) = normalize_image_url src)
  /\ dedup_image_urls (map full_size srcs) = map full_size (dedup_image_urls srcs).
Proof.
  assert (Hkey : forall src,
             normalize_image_url (full_size src) = normalize_image_url src).
  { intros src. unfold normalize_image_url. now rewrite resize_full_size. }
  split; [exact Hkey|].
  rewrite !dedup_image_urls_keep_first. now apply keep_first_map.
Qed.

(** * The front end *)

(** ** Validation of the addresses *)

Lemma rstrip_idempotent (s : string) : Py.rstrip (Py.rstrip s) = Py.rstrip s.
Proof.
  induction s as [|c s IH]; [reflexivity|].
  simpl. destruct (Py.rstrip s) as [|d r] eqn:E.
  - destruct (Py.is_space c) eqn:Hc; [reflexivity|].
    simpl. now rewrite Hc.
  - simpl. simpl in IH. now rewrite IH.
Qed.

Lemma lstrip_head (s : string) :
  Py.lstrip s = "" \/ exists c t, Py.lstrip s = String c t /\ Py.is_space c = false.
Proof.
  induction s as [|c s IH]; [now left|].
  simpl. destruct (Py.is_space c) eqn:Hc; [exact IH|].
  right. now exists c, s.
Qed.

Lemma rstrip_keeps_head (c : ascii) (t : string) :
  Py.is_space c = false -> exists t', Py.rstrip (String c t) = String c t'.
Proof.
  intros Hc. simpl. destruct (Py.rstrip t); [rewrite Hc|]; eauto.
Qed.

(** Stripping is idempotent. *)
Lemma strip_idempotent (s : string) : Py.strip (Py.strip s) = Py.strip s.
Proof.
  unfold Py.strip.
  destruct (lstrip_head s) as [->|(c & t & -> & Hc)]; [reflexivity|].
  destruct (rstrip_keeps_head c t Hc) as [t' Ht].
  rewrite Ht. cbn [Py.lstrip]. rewrite Hc, <- Ht. apply rstrip_idempotent.
Qed.

(** One turn of the loop, by what the stripped line is. *)
Lemma validate_step_cases (valid invalid : list string) (url : string) :
  let line := Py.strip url in
  (Py.truthy_str line = false /\ validate_step (valid, invalid) url = (valid, invalid))
  \/ (acceptable line = true
      /\ validate_step (valid, invalid) url = ((valid ++ [line])%list, invalid))
  \/ (Py.truthy_str line = true /\ acceptable line = false
      /\ exists reason,
           validate_step (valid, invalid) url = (valid, (invalid ++ [reason])%list)).
Proof.
  unfold validate_step, acceptable. cbv zeta.
  destruct (Py.truthy_str (Py.strip url)); cbn [negb andb]; [|now left].
  right.
  destruct (http_scheme (Py.strip url)); cbn [negb andb]; [|right; eauto].
  destruct (Py.contains "ebay" (Py.lower (Py.strip url)));
    destruct (Py.contains "swappa" (Py.lower (Py.strip url)));
    cbn [negb andb orb]; first [now left | right; eauto].
Qed.

Lemma validate_fold (urls valid invalid : list string) :
  let out := fold_left validate_step urls (valid, invalid) in
  fst out = (valid ++ List.filter acceptable (map Py.strip urls))%list
  /\ (length (fst out) + length (snd out)
      = length valid + length invalid + length (stripped_lines urls))%nat.
Proof.
  revert valid invalid.
  induction urls as [|url urls IH]; intros valid invalid; cbn [fold_left map List.filter].
  - unfold stripped_lines. simpl. rewrite app_nil_r. split; [reflexivity | lia].
  - unfold stripped_lines in *. cbn [List.filter].
    destruct (validate_step_cases valid invalid url)
      as [[Ht ->] | [[Ha ->] | (Ht & Ha & reason & ->)]].
    + assert (Ha : acceptable (Py.strip url) = false)
        by (unfold acceptable; now rewrite Ht).
      rewrite Ha, Ht. apply IH.
    + assert (Ht : Py.truthy_str (Py.strip url) = true).
      { unfold acceptable in Ha. now destruct (Py.truthy_str (Py.strip url)). }
      rewrite Ha, Ht. destruct (IH (valid ++ [Py.strip url])%list invalid) as [-> ->].
      rewrite <- app_assoc, !length_app. simpl. split; [reflexivity | lia].
    + rewrite Ha, Ht. destruct (IH valid (invalid ++ [reason])%list) as [-> ->].
      rewrite !length_app. simpl. split; [reflexivity | lia].
Qed.

Lemma validate_fold_fixed (urls valid invalid : list string) :
  Forall (fun url => Py.strip url = url /\ acceptable url = true) urls ->
  fold_left validate_step urls (valid, invalid) = ((valid ++ urls)%list, invalid).
Proof.
  intros H. revert valid.
  induction H as [|url urls [Hs Ha] _ IH]; intros valid; cbn [fold_left].
  - now rewrite app_nil_r.
  - destruct (validate_step_cases valid invalid url)
      as [[Ht _] | [[_ ->] | (_ & Hn & _)]]; rewrite Hs in *.
    + unfold acceptable in Ha. rewrite Ht in Ha. discriminate Ha.
    + rewrite IH, <- app_assoc. reflexivity.
    + congruence.
Qed.

(** X19.  What [validate_urls] accepts.  The accepted addresses are, in the
    order of the input, the stripped lines that are not empty, begin with
    [http://] or [https://] and contain [ebay] or [swappa] once in lower
    case; every other line that is not blank gives one message; and
    validating the accepted addresses again accepts them all. *)
Theorem validate_urls_accepted (urls : list string) :
  fst (validate_urls urls) = List.filter acceptable (map Py.strip urls)
  /\ (length (fst (validate_urls urls)) + length (snd (validate_urls urls))
      = length (stripped_lines urls))%nat
  /\ validate_urls (fst (validate_urls urls)) = (fst (validate_urls urls), []).
Proof.
  unfold validate_urls.
  destruct (validate_fold urls [] []) as [Hfst Hlen].
  cbv zeta in Hfst, Hlen. simpl in Hfst, Hlen.
  split; [exact Hfst|]. split; [exact Hlen|].
  rewrite Hfst. apply (validate_fold_fixed _ [] []).
  apply List.Forall_forall. intros url Hin.
  apply filter_In in Hin as [Hin Ha]. split; [|exact Ha].
  apply in_map_iff in Hin as (line & <- & _). apply strip_idempotent.
Qed.

(** ** Reading the file of addresses *)

Lemma str_split_cons (a rest : string) :
  no_newline a = true ->
  str_split Py.newline (a ++ String Py.newline rest) = a :: str_split Py.newline rest.
Proof.
  induction a as [|c a IH]; [reflexivity|].
  intros H. simpl in H. apply andb_true_iff in H as [Hc Ha].
  rewrite append_cons. cbn [str_split].
  unfold Py.is_newline in Hc. apply negb_true_iff in Hc. rewrite Hc.
  now rewrite IH.
Qed.

Lemma str_split_one (a : string) :
  no_newline a = true -> str_split Py.newline a = [a].
Proof.
  induction a as [|c a IH]; [reflexivity|].
  intros H. simpl in H. apply andb_true_iff in H as [Hc Ha].
  cbn [str_split].
  unfold Py.is_newline in Hc. apply negb_true_iff in Hc. rewrite Hc.
  now rewrite IH.
Qed.

(** The lines written with a line feed between them are the pieces of the
    split. *)
Lemma str_split_concat (line : string) (lines : list string) :
  Forall (fun l => no_newline l = true) (line :: lines) ->
  str_split Py.newline (String.concat line_feed (line :: lines)) = line :: lines.
Proof.
  revert line. induction lines as [|next lines IH]; intros line H.
  - apply str_split_one. now inversion H.
  - inversion H as [|? ? Hline Hrest]; subst.
    change (String.concat line_feed (line :: next :: lines))
      with (line ++ String Py.newline (String.concat line_feed (next :: lines))).
    rewrite str_split_cons by exact Hline. now rewrite IH.
Qed.

Lemma str_split_concat_feed (line : string) (lines : list string) :
  Forall (fun l => no_newline l = true) (line :: lines) ->
  str_split Py.newline (String.concat line_feed (line :: lines) ++ line_feed)
  = (line :: lines ++ [""])%list.
Proof.
  revert line. induction lines as [|next lines IH]; intros line H.
  - inversion H; subst. apply (str_split_cons line ""). assumption.
  - inversion H as [|? ? Hline Hrest]; subst.
    change (String.concat line_feed (line :: next :: lines) ++ line_feed)
      with ((line ++ String Py.newline (String.concat line_feed (next :: lines)))
            ++ line_feed).
    rewrite append_assoc, append_cons, str_split_cons by exact Hline.
    now rewrite IH.
Qed.

Lemma stripped_lines_clean (lines : list string) :
  Forall (fun l => clean_line l = true) lines -> stripped_lines lines = lines.
Proof.
  unfold stripped_lines.
  induction 1 as [|line lines Hline _ IH]; [reflexivity|].
  unfold clean_line in Hline.
  apply andb_true_iff in Hline as [Hline _].
  apply andb_true_iff in Hline as [Hs Ht]. apply String.eqb_eq in Hs.
  cbn [List.filter]. rewrite Hs, Ht. cbn [map]. now rewrite Hs, IH.
Qed.

Lemma stripped_lines_app (a b : list string) :
  stripped_lines (a ++ b) = (stripped_lines a ++ stripped_lines b)%list.
Proof. unfold stripped_lines. now rewrite List.filter_app, map_app. Qed.

Lemma clean_no_newline (lines : list string) :
  Forall (fun l => clean_line l = true) lines ->
  Forall (fun l => no_newline l = true) lines.
Proof.
  apply List.Forall_impl. intros l H. unfold clean_line in H.
  now apply andb_true_iff in H as [_ H].
Qed.

(** X20.  A file of addresses is read back as written.  When the lines are
    clean (no space at either end, not empty, no line feed), the file
    that holds them with a line feed between them is read as the list of
    these lines, and so is the file that ends with one more line feed. *)
Theorem read_urls_from_file_round_trip (urls : list string) :
  Forall (fun line => clean_line line = true) urls ->
  read_urls_from_file (Ok (String.concat line_feed urls)) = urls
  /\ read_urls_from_file (Ok (String.concat line_feed urls ++ line_feed)) = urls.
Proof.
  intros Hclean. pose proof (clean_no_newline urls Hclean) as Hnl.
  unfold read_urls_from_file.
  destruct urls as [|line lines]; [split; reflexivity|].
  rewrite str_split_concat, str_split_concat_feed by exact Hnl.
  split; [now apply stripped_lines_clean|].
  change (line :: lines ++ [""])%list with ((line :: lines) ++ [""])%list.
  rewrite stripped_lines_app, stripped_lines_clean by exact Hclean.
  apply app_nil_r.
Qed.

Lemma read_urls_from_file_round_trip_witness :
  read_urls_from_file
    (Ok (String.concat line_feed
           ["https://www.ebay.com/itm/1"; "https://swappa.com/listing/view/LABC123"]))
  = ["https://www.ebay.com/itm/1"; "https://swappa.com/listing/view/LABC123"]
  /\ read_urls_from_file
       (Ok (String.concat line_feed
              ["https://www.ebay.com/itm/1"; "https://swappa.com/listing/view/LABC123"]
            ++ line_feed))
     = ["https://www.ebay.com/itm/1"; "https://swappa.com/listing/view/LABC123"].
Proof.
  apply (read_urls_from_file_round_trip
           ["https://www.ebay.com/itm/1"; "https://swappa.com/listing/view/LABC123"]).
  repeat constructor.
Defined.

(** ** The elapsed time *)

Lemma format_02d_two_digits (n : Z) :
  0 <= n < 100 -> String.length (format_02d n) = 2%nat.
Proof.
  intros H. rewrite <- (Z2Nat.id n) by lia.
  assert (Hk : (Z.to_nat n < 100)%nat) by lia.
  revert Hk. generalize (Z.to_nat n). intros k Hk.
  do 100 (destruct k as [|k]; [vm_compute; reflexivity|]).
  lia.
Qed.

(** X21.  The elapsed time is shown as hours, minutes and seconds that
    add up to it: the minutes and the seconds are below sixty, the hours
    are not reduced modulo a day, and below a hundred hours the text has
    the eight characters of [hh:mm:ss]. *)
Theorem get_elapsed_time_fields (elapsed : Z) :
  0 <= elapsed ->
  exists hours minutes seconds,
    get_elapsed_time (Some elapsed)
    = format_02d hours ++ ":" ++ format_02d minutes ++ ":" ++ format_02d seconds
    /\ elapsed = 3600 * hours + 60 * minutes + seconds
    /\ 0 <= hours /\ 0 <= minutes < 60 /\ 0 <= seconds < 60
    /\ (elapsed < 360000 -> String.length (get_elapsed_time (Some elapsed)) = 8%nat).
Proof.
  intros He.
  exists (elapsed / 60 / 60), ((elapsed / 60) mod 60), (elapsed mod 60).
  pose proof (Z.div_mod elapsed 60 ltac:(lia)) as H1.
  pose proof (Z.div_mod (elapsed / 60) 60 ltac:(lia)) as H2.
  pose proof (Z.mod_pos_bound elapsed 60 ltac:(lia)) as H3.
  pose proof (Z.mod_pos_bound (elapsed / 60) 60 ltac:(lia)) as H4.
  assert (H5 : 0 <= elapsed / 60) by (apply Z.div_pos; lia).
  assert (H6 : 0 <= elapsed / 60 / 60) by (apply Z.div_pos; lia).
  split; [reflexivity|]. split; [lia|]. split; [exact H6|].
  split; [exact H4|]. split; [exact H3|].
  intros Hlt. unfold get_elapsed_time.
  rewrite !length_append, !format_02d_two_digits by lia. reflexivity.
Qed.

Lemma get_elapsed_time_fields_witness :
  exists hours minutes seconds,
    get_elapsed_time (Some 3725)
    = format_02d hours ++ ":" ++ format_02d minutes ++ ":" ++ format_02d seconds
    /\ 3725 = 3600 * hours + 60 * minutes + seconds
    /\ 0 <= hours /\ 0 <= minutes < 60 /\ 0 <= seconds < 60
    /\ (3725 < 360000 -> String.length (get_elapsed_time (Some 3725)) = 8%nat).
Proof.
  apply (get_elapsed_time_fields 3725). lia.
Defined.

(** ** The rules of the triples *)

Section Triples.

Lemma triple_ret {A} (a : A) (Pre : UIState -> Prop)
    (Post : A -> UIState -> Prop) (Exc : UIState -> Prop) :
  (forall u, Pre u -> Post a u) -> ui_triple Pre (ui_ret a) Post Exc.
Proof. intros H u Hu. now apply H. Qed.

Lemma triple_bind {A B} (m : UI A) (k : A -> UI B) (Pre : UIState -> Prop)
    (Mid : A -> UIState -> Prop) (Post : B -> UIState -> Prop) (Exc : UIState -> Prop) :
  ui_triple Pre m Mid Exc -> (forall a, ui_triple (Mid a) (k a) Post Exc) ->
  ui_triple Pre (ui_bind m k) Post Exc.
Proof.
  intros Hm Hk u Hu. unfold ui_bind. specialize (Hm u Hu).
  destruct (m u) as [[a|e] u1]; [now apply Hk | exact Hm].
Qed.

Lemma triple_try_except {A} (body : UI A) (handler : Exn -> UI A)
    (Pre : UIState -> Prop) (Post : A -> UIState -> Prop) (Mid Exc : UIState -> Prop) :
  ui_triple Pre body Post Mid -> (forall e, ui_triple Mid (handler e) Post Exc) ->
  ui_triple Pre (ui_try_except body handler) Post Exc.
Proof.
  intros Hm Hk u Hu. unfold ui_try_except. specialize (Hm u Hu).
  destruct (body u) as [[a|e] u1]; [exact Hm | now apply Hk].
Qed.

Lemma triple_update (f : Session -> Session) (Pre : UIState -> Prop)
    (Post : unit -> UIState -> Prop) (Exc : UIState -> Prop) :
  (forall u, Pre u -> Post tt (mkUIState (f (session u)) (scraper u))) ->
  ui_triple Pre (update_session f) Post Exc.
Proof. intros H u Hu. now apply H. Qed.

(** A call into the scraper: the session is as before, and the counters
    of the scraper are related as the call relates them. *)
Lemma triple_in_scraper {A} (R : Stats -> Stats -> Prop) (Q : Event -> Prop) (m : M A)
    (Pre J : UIState -> Prop) :
  frames R Q m ->
  (forall u w', Pre u -> R (stats (scraper u)) (stats w') ->
                J (mkUIState (session u) w')) ->
  ui_triple Pre (in_scraper m) (fun _ => J) J.
Proof.
  intros Hm HJ u Hu. unfold in_scraper.
  destruct (Hm (scraper u)) as (_ & _ & _ & Hr).
  destruct (m (scraper u)) as [[a|e] w']; simpl in Hr; now apply HJ.
Qed.

Lemma triple_for_each {A} (xs : list A) (body : A -> UI unit)
    (Inv Exc : UIState -> Prop) :
  (forall x, ui_triple Inv (body x) (fun _ => Inv) Exc) ->
  ui_triple Inv (ui_for_each xs body) (fun _ => Inv) Exc.
Proof.
  intros Hbody. induction xs as [|x xs IH]; simpl.
  - now apply triple_ret.
  - apply (triple_bind _ _ _ (fun _ => Inv)); [apply Hbody | intros _; exact IH].
Qed.

Lemma triple_weaken {A} (m : UI A) (Pre Pre' : UIState -> Prop)
    (Post Post' : A -> UIState -> Prop) (Exc Exc' : UIState -> Prop) :
  ui_triple Pre m Post Exc ->
  (forall u, Pre' u -> Pre u) -> (forall a u, Post a u -> Post' a u) ->
  (forall u, Exc u -> Exc' u) ->
  ui_triple Pre' m Post' Exc'.
Proof.
  intros Hm Hpre Hpost Hexc u Hu. specialize (Hm u (Hpre u Hu)).
  destruct (m u) as [[a|e] u1]; auto.
Qed.

(** A triple without exception gives a result. *)
Lemma triple_run {A} (m : UI A) (Pre : UIState -> Prop) (Post : A -> UIState -> Prop)
    (u : UIState) :
  ui_triple Pre m Post (fun _ => False) -> Pre u ->
  exists a u', m u = (Ok a, u') /\ Post a u'.
Proof.
  intros Hm Hu. specialize (Hm u Hu).
  destruct (m u) as [[a|e] u1]; [eauto | contradiction].
Qed.

End Triples.

(** ** The wrapper of [download_image] *)

Section UIDownload.
Context (env : Env).

(** The wrapper returns what [download_image] returns, leaves the world
    of the scraper as [download_image] leaves it, and counts the image in
    the session by the result. *)
Lemma custom_download_image_run
    (url folder_path filename : string) (index : Z) (u : UIState) :
  exists (result : bool) (w' : World),
    download_image env url folder_path filename index (scraper u) = (Ok result, w')
    /\ custom_download_image env url folder_path filename index u
       = (Ok result,
          mkUIState
            ((if result then count_downloaded else count_failed_image) (session u)) w').
Proof.
  destruct (download_image_returns env url folder_path filename index (scraper u))
    as [result Hres].
  destruct (download_image env url folder_path filename index (scraper u))
    as [r w'] eqn:Hrun.
  simpl in Hres. subst r. exists result, w'. split; [reflexivity|].
  unfold custom_download_image, ui_try_except, ui_bind, in_scraper.
  rewrite Hrun. now destruct result.
Qed.

End UIDownload.

(** X22.  In the front end every download is counted once in the session.
    [custom_download_image] returns what [download_image] returns and does
    to the scraper what it does; when the result is [True] the session
    counts one successful image and one image downloaded for the current
    listing, when it is [False] one failed image.  So the session counts a
    success also for an image that was on disk already, which the scraper
    does not count. *)
Theorem custom_download_image_counts_by_result (env : Env)
    (url folder_path filename : string) (index : Z) (u : UIState) :
  exists (result : bool) (u' : UIState),
    custom_download_image env url folder_path filename index u = (Ok result, u')
    /\ download_image env url folder_path filename index (scraper u)
       = (Ok result, scraper u')
    /\ successful_images (session_stats (session u'))
       = successful_images (session_stats (session u)) + (if result then 1 else 0)
    /\ failed_images (session_stats (session u'))
       = failed_images (session_stats (session u)) + (if result then 0 else 1)
    /\ current_images_downloaded (session u')
       = current_images_downloaded (session u) + (if result then 1 else 0)
    /\ processed_listings (session u') = processed_listings (session u).
Proof.
  destruct (custom_download_image_run env url folder_path filename index u)
    as (result & w' & Hcore & Hrun).
  exists result. eexists. split; [exact Hrun|]. split; [exact Hcore|].
  destruct result; simpl; repeat split; lia.
Qed.

(** ** One listing in the front end *)

Section UIListing.
Context (env : Env) {Soup Tag : Type} {bs : BS4 Soup Tag}.
Context (output_dir : option string) (url : string).

(** The state in which the call starts. *)
Context (u0 : UIState).

(** While the listing is open: no entry is added and no listing counted,
    and the images downloaded for the current listing are the successful
    images the session has counted since the call started. *)
Let listing_open (u : UIState) : Prop :=
  processed_listings (session u) = processed_listings (session u0)
  /\ listing_counters_kept (session_stats (session u0)) (session_stats (session u))
  /\ listing_counters_kept (stats (scraper u0)) (stats (scraper u))
  /\ current_images_downloaded (session u)
     = successful_images (session_stats (session u))
       - successful_images (session_stats (session u0))
  /\ run_fields_kept (session u0) (session u).

(** Before the first download. *)
Let listing_fresh (u : UIState) : Prop :=
  listing_open u /\ current_images_downloaded (session u) = 0.

Let recorded (ok : bool) (u : UIState) : Prop := listing_recorded url ok u0 u.

Lemma create_folder_bound_frames (title : string) :
  frames eq (fun _ => True) (create_folder_bound env output_dir title).
Proof.
  unfold create_folder_bound.
  destruct output_dir as [dir|]; [destruct (Py.truthy_str dir)|];
    try apply create_folder_frames.
  unfold custom_create_folder, os_makedirs. repeat frames_step; exact I.
Qed.

(** A call into the scraper that leaves its counters alone. *)
Lemma triple_scraper_fresh {A} (m : M A) :
  frames eq (fun _ => True) m ->
  ui_triple listing_fresh (in_scraper m) (fun _ => listing_fresh) listing_fresh.
Proof.
  intros Hm. apply (triple_in_scraper eq (fun _ => True)); [exact Hm|].
  intros u w' Hu Hs. unfold listing_fresh, listing_open in *. simpl.
  now rewrite <- Hs.
Qed.

Lemma fresh_open (u : UIState) : listing_fresh u -> listing_open u.
Proof. now intros [H _]. Qed.

(** The end of a failed listing. *)
Lemma fail_listing_recorded (entry : Session -> Entry) :
  (forall s, entry_url (entry s) = url /\ entry_status (entry s) = "failed") ->
  ui_triple
    (fun u => listing_open u
              /\ forall s, current_images_downloaded s = current_images_downloaded (session u) ->
                           entry_images_downloaded (entry s)
                           = current_images_downloaded (session u))
    (fail_listing entry) recorded (fun _ => False).
Proof.
  intros Hentry u [(Hl & [Hs1 Hs2] & [Hw1 Hw2] & Hc & Hr1 & Hr2 & Hr3 & Hr4) Hd].
  unfold fail_listing, ui_bind, in_scraper, update_session, ui_ret. simpl.
  exists (entry (count_failed_listing (session u))).
  destruct (Hentry (count_failed_listing (session u))) as [-> ->].
  rewrite (Hd (count_failed_listing (session u)) eq_refl).
  simpl. rewrite Hl, Hs1, Hs2, Hw1, Hw2, Hc.
  repeat split; solve [reflexivity | assumption].
Qed.

Lemma custom_download_image_open (img_url folder_path filename : string) (index : Z) :
  ui_triple listing_open (custom_download_image env img_url folder_path filename index)
    (fun _ => listing_open) (fun _ => False).
Proof.
  intros u (Hl & [Hs1 Hs2] & [Hw1 Hw2] & Hc & Hr1 & Hr2 & Hr3 & Hr4).
  destruct (custom_download_image_run env img_url folder_path filename index u)
    as (result & w' & Hcore & ->).
  destruct (download_image_events env img_url folder_path filename index (scraper u))
    as (_ & _ & _ & [Hk1 Hk2]).
  rewrite Hcore in Hk1, Hk2. simpl in Hk1, Hk2.
  unfold listing_open, listing_counters_kept, run_fields_kept.
  destruct result; simpl; rewrite ?Hk1, ?Hk2; repeat split; auto; lia.
Qed.

(** The end of a completed listing. *)
Lemma complete_listing_recorded (title : option string) (found : Z) :
  ui_triple listing_open
    (ui_bind (in_scraper incr_successful_listings)
       (fun _ =>
          ui_bind (update_session count_successful_listing)
            (fun _ =>
               ui_bind
                 (update_session
                    (fun s => append_listing
                                (mkEntry url title "completed" found
                                   (current_images_downloaded s) None) s))
                 (fun _ => ui_ret true))))
    recorded (fun _ => False).
Proof.
  intros u (Hl & [Hs1 Hs2] & [Hw1 Hw2] & Hc & Hr1 & Hr2 & Hr3 & Hr4).
  unfold ui_bind, in_scraper, update_session, ui_ret. simpl.
  eexists. simpl. rewrite Hl, Hs1, Hs2, Hw1, Hw2, Hc.
  repeat split; solve [reflexivity | assumption].
Qed.

Lemma custom_process_extracted_recorded (extracted : option string * list string) :
  ui_triple listing_fresh (custom_process_extracted env output_dir url extracted)
    recorded listing_open.
Proof.
  destruct extracted as [title image_urls]. unfold custom_process_extracted.
  apply (triple_bind _ _ _ (fun _ => listing_fresh)).
  { apply triple_update. intros u Hu. exact Hu. }
  intros _.
  assert (Hfail : forall err,
             ui_triple listing_fresh
               (fail_listing (fun _ => mkEntry url title "failed" 0 0 err))
               recorded listing_open).
  { intros err.
    apply (triple_weaken _ _ _ _ _ _ _
             (fail_listing_recorded (fun _ => mkEntry url title "failed" 0 0 err)
                (fun _ => conj eq_refl eq_refl))).
    - intros u [Ho Hz]. split; [exact Ho|]. intros s _. simpl. now rewrite Hz.
    - auto.
    - contradiction. }
  destruct title as [title_text|]; [|apply Hfail].
  destruct (negb (Py.truthy_str title_text) || negb (Py.truthy_list image_urls));
    [apply Hfail|].
  apply (triple_bind _ _ _ (fun _ => listing_fresh)).
  { apply (triple_weaken _ _ _ _ _ _ _
             (triple_scraper_fresh _ (create_folder_bound_frames title_text)));
      auto using fresh_open. }
  intros folder_path.
  apply (triple_bind _ _ _ (fun _ => listing_fresh)).
  { apply (triple_weaken _ _ _ _ _ _ _
             (triple_scraper_fresh _ (write_text_frames env _ _)));
      auto using fresh_open. }
  intros _.
  apply (triple_bind _ _ _ (fun _ => listing_open)).
  { apply triple_update. intros u [Hu _]. exact Hu. }
  intros _. cbv zeta.
  apply (triple_bind _ _ _ (fun _ => listing_open)).
  { apply triple_for_each. intros [i img_url].
    apply (triple_bind _ _ _ (fun _ => listing_open)).
    - apply (triple_weaken _ _ _ _ _ _ _ (custom_download_image_open _ _ _ _));
        auto; contradiction.
    - intros _. now apply triple_ret. }
  intros _.
  apply (triple_weaken _ _ _ _ _ _ _ (complete_listing_recorded _ _));
    auto; contradiction.
Qed.

Lemma custom_process_listing_triple :
  ui_triple (eq u0) (custom_process_listing env output_dir url) recorded (fun _ => False).
Proof.
  unfold custom_process_listing.
  apply (triple_try_except _ _ _ _ listing_open).
  - apply (triple_bind _ _ _ (fun _ => listing_fresh)).
    { apply triple_update. intros u <-. unfold listing_fresh, listing_open.
      simpl. repeat split; lia. }
    intros _.
    apply (triple_bind _ _ _ (fun _ => listing_fresh)).
    { apply (triple_weaken _ _ _ _ _ _ _
               (triple_scraper_fresh (lift (url_netloc env url))
                  ltac:(apply frames_lift; reflexivity)));
        auto using fresh_open. }
    intros netloc. cbv zeta.
    destruct (Py.contains "ebay" (Py.lower netloc));
      [|destruct (Py.contains "swappa" (Py.lower netloc))].
    + apply (triple_bind _ _ _ (fun _ => listing_fresh)).
      { apply (triple_weaken _ _ _ _ _ _ _
                 (triple_scraper_fresh _ (scrape_ebay_listing_frames env url)));
          auto using fresh_open. }
      intros extracted. apply custom_process_extracted_recorded.
    + apply (triple_bind _ _ _ (fun _ => listing_fresh)).
      { apply (triple_weaken _ _ _ _ _ _ _
                 (triple_scraper_fresh _ (scrape_swappa_listing_frames env url)));
          auto using fresh_open. }
      intros extracted. apply custom_process_extracted_recorded.
    + apply (triple_weaken _ _ _ _ _ _ _
               (fail_listing_recorded
                  (fun _ => mkEntry url None "failed" 0 0
                              (Some ("Unsupported site: " ++ Py.lower netloc)))
                  (fun _ => conj eq_refl eq_refl))).
      * intros u [Ho Hz]. split; [exact Ho|]. intros s _. simpl. now rewrite Hz.
      * auto.
      * contradiction.
  - intros [msg].
    apply (triple_weaken _ _ _ _ _ _ _
             (fail_listing_recorded
                (fun s => mkEntry url (current_title s) "failed" (current_images_found s)
                            (current_images_downloaded s) (Some msg))
                (fun _ => conj eq_refl eq_refl))).
    + intros u Ho. split; [exact Ho|]. intros s Hs. exact Hs.
    + auto.
    + auto.
Qed.

End UIListing.

(** The front end's [process_listing] returns a boolean and records the
    listing. *)
Lemma custom_process_listing_run
    (env : Env) {Soup Tag : Type} {bs : BS4 Soup Tag}
    (output_dir : option string) (url : string) (u : UIState) :
  exists (ok : bool) (u' : UIState),
    custom_process_listing env output_dir url u = (Ok ok, u')
    /\ listing_recorded url ok u u'.
Proof.
  exact (triple_run _ _ _ u (custom_process_listing_triple env output_dir url u) eq_refl).
Qed.

(** X23.  In the front end every listing leaves one entry.  Whatever the
    address, the output directory and the answers of the outside world,
    [custom_process_listing] raises nothing and returns a boolean; it has
    added one entry for the address to [processed_listings], with status
    [completed] when it returns [True] and [failed] when it returns
    [False]; the number of downloaded images of the entry is the number
    of successful images the session has counted during the call; and the
    session and the scraper have each counted one listing, successful or
    failed as the result says.  The progress counters and the flags of
    the run are left as they are. *)
Theorem custom_process_listing_records_listing
    (env : Env) {Soup Tag : Type} {bs : BS4 Soup Tag}
    (output_dir : option string) (url : string) (u : UIState) :
  exists (ok : bool) (u' : UIState) (entry : Entry),
    custom_process_listing env output_dir url u = (Ok ok, u')
    /\ processed_listings (session u') = (processed_listings (session u) ++ [entry])%list
    /\ entry_url entry = url
    /\ entry_status entry = (if ok then "completed" else "failed")
    /\ entry_images_downloaded entry
       = successful_images (session_stats (session u'))
         - successful_images (session_stats (session u))
    /\ listing_counted ok (session_stats (session u)) (session_stats (session u'))
    /\ listing_counted ok (stats (scraper u)) (stats (scraper u'))
    /\ run_fields_kept (session u) (session u').
Proof.
  destruct (custom_process_listing_run env output_dir url u)
    as (ok & u' & Hrun & entry & H).
  now exists ok, u', entry.
Qed.

(** ** A run of the front end *)

Lemma count_status_snoc (status : string) (entries : list Entry) (entry : Entry) :
  count_status status (entries ++ [entry])
  = count_status status entries
    + (if String.eqb (entry_status entry) status then 1 else 0).
Proof.
  unfold count_status. rewrite List.filter_app, length_app. cbn [List.filter].
  destruct (String.eqb (entry_status entry) status); simpl; lia.
Qed.

Section UIRun.
Context (env : Env) {Soup Tag : Type} {bs : BS4 Soup Tag}.
Context (output_dir : option string).

(** The listing counters of the session when the run starts, and the
    number of addresses of the run. *)
Context (successful0 failed0 total : Z).

(** After the addresses [done]: one entry for each, in their order; the
    scraper has counted the listings of this run, the session these
    beside what it had counted before. *)
Let run_state (done : list string) (u : UIState) : Prop :=
  let entries := processed_listings (session u) in
  map entry_url entries = done
  /\ processed_urls (session u) = Z.of_nat (length done)
  /\ total_urls (session u) = total
  /\ scraping_in_progress (session u) = true
  /\ successful_listings (stats (scraper u)) = count_status "completed" entries
  /\ failed_listings (stats (scraper u)) = count_status "failed" entries
  /\ successful_listings (session_stats (session u))
     = successful0 + count_status "completed" entries
  /\ failed_listings (session_stats (session u))
     = failed0 + count_status "failed" entries
  /\ count_status "completed" entries + count_status "failed" entries
     = Z.of_nat (length done).

Lemma run_listing (done : list string) (url : string) (u : UIState) :
  run_state done u ->
  exists u',
    ui_bind (custom_process_listing env output_dir url)
      (fun _ => update_session count_processed) u = (Ok tt, u')
    /\ run_state (done ++ [url]) u'.
Proof.
  intros (Hurls & Hproc & Htotal & Hbusy & Hcs & Hcf & Hss & Hsf & Hsum).
  destruct (custom_process_listing_run env output_dir url u)
    as (ok & u1 & Hrun & entry & Hentries & Hurl & Hstatus & _
        & Hsession & Hscraper & Ht1 & Hp1 & Hb1 & _).
  unfold ui_bind. rewrite Hrun. eexists. split; [reflexivity|].
  unfold run_state.
  cbn [session scraper update_session count_processed processed_listings
       processed_urls total_urls session_stats scraping_in_progress snd].
  rewrite Hentries, map_app, !count_status_snoc, Hstatus, length_app, Hurls.
  cbn [map length]. rewrite Hurl, Ht1, Hp1, Hb1, Hproc.
  unfold listing_counted in Hsession, Hscraper.
  destruct ok; destruct Hsession as [Hs1 Hs2]; destruct Hscraper as [Hw1 Hw2];
    rewrite Hs1, Hs2, Hw1, Hw2;
    change (String.eqb "completed" "completed") with true;
    change (String.eqb "failed" "failed") with true;
    change (String.eqb "completed" "failed") with false;
    change (String.eqb "failed" "completed") with false;
    repeat split; try reflexivity; try assumption; lia.
Qed.

Lemma run_loop (urls done : list string) (u : UIState) :
  run_state done u ->
  exists u',
    ui_for_each urls
      (fun url =>
         ui_bind (custom_process_listing env output_dir url)
           (fun _ => update_session count_processed)) u = (Ok tt, u')
    /\ run_state (done ++ urls) u'.
Proof.
  revert done u. induction urls as [|url urls IH]; intros done u Hu.
  - exists u. rewrite app_nil_r. now split.
  - destruct (run_listing done url u Hu) as (u1 & Hrun & Hu1).
    destruct (IH (done ++ [url])%list u1 Hu1) as (u' & Hloop & Hu').
    exists u'. rewrite <- app_assoc in Hu'. split; [|exact Hu'].
    cbn [ui_for_each]. unfold ui_bind at 1. now rewrite Hrun.
Qed.

End UIRun.

(** X24.  A run of the front end.  [process_urls_thread] raises nothing.
    When it ends the session holds one entry for each address, in the
    order of the addresses; the progress counter has reached the total,
    which is the number of addresses; the run is marked complete and no
    longer in progress.  The scraper's listing counters, set to zero at
    the start, are the numbers of completed and of failed entries of this
    run and add up to the number of addresses; the session's listing
    counters are not set back: they have grown by these numbers from
    what earlier runs had left. *)
Theorem process_urls_thread_records_run
    (env : Env) {Soup Tag : Type} {bs : BS4 Soup Tag}
    (urls : list string) (output_dir : option string) (u : UIState) :
  exists u',
    process_urls_thread env urls output_dir u = (Ok tt, u')
    /\ map entry_url (processed_listings (session u')) = urls
    /\ processed_urls (session u') = Z.of_nat (length urls)
    /\ total_urls (session u') = Z.of_nat (length urls)
    /\ scraping_complete (session u') = true
    /\ scraping_in_progress (session u') = false
    /\ successful_listings (stats (scraper u'))
       = count_status "completed" (processed_listings (session u'))
    /\ failed_listings (stats (scraper u'))
       = count_status "failed" (processed_listings (session u'))
    /\ successful_listings (stats (scraper u')) + failed_listings (stats (scraper u'))
       = Z.of_nat (length urls)
    /\ successful_listings (session_stats (session u'))
       = successful_listings (session_stats (session u))
         + count_status "completed" (processed_listings (session u'))
    /\ failed_listings (session_stats (session u'))
       = failed_listings (session_stats (session u))
         + count_status "failed" (processed_listings (session u')).
Proof.
  unfold process_urls_thread.
  unfold ui_bind at 1. unfold in_scraper at 1. cbn [update_stats].
  unfold ui_bind at 1. unfold update_session at 1. cbn [session scraper].
  set (u1 := mkUIState (start_run (Z.of_nat (length urls)) (session u))
               (mkWorld (files (scraper u)) (mkStats 0 0 0 0) (trace (scraper u)))).
  destruct (run_loop env output_dir
              (successful_listings (session_stats (session u)))
              (failed_listings (session_stats (session u)))
              (Z.of_nat (length urls)) urls [] u1)
    as (u2 & Hloop & Hurls & Hproc & Htotal & Hbusy & Hcs & Hcf & Hss & Hsf & Hsum).
  { subst u1. cbv zeta. simpl. unfold count_status. simpl. repeat split; lia. }
  unfold ui_bind at 1. unfold ui_try_except. unfold ui_bind at 1. rewrite Hloop.
  eexists. split; [reflexivity|].
  simpl in Hurls, Hproc. simpl. rewrite Hcs, Hcf in *.
  repeat split; try assumption; try reflexivity; lia.
Qed.

(** ** The front end's copy of [process_listing] *)

Section Follows.

Lemma follows_ret {A} (a : A) : follows (ui_ret a) (ret a).
Proof. intros u. now split. Qed.

Lemma follows_in_scraper {A} (m : M A) : follows (in_scraper m) m.
Proof. intros u. unfold in_scraper. now destruct (m (scraper u)). Qed.

Lemma follows_bind {A B} (m : UI A) (k : A -> UI B) (c : M A) (kc : A -> M B) :
  follows m c -> (forall a, follows (k a) (kc a)) -> follows (ui_bind m k) (bind c kc).
Proof.
  intros Hm Hk u. unfold ui_bind, bind. destruct (Hm u) as [Hr Hw].
  destruct (m u) as [r u1]. destruct (c (scraper u)) as [rc w1].
  simpl in Hr, Hw. subst rc w1.
  destruct r as [a|e]; [apply Hk | now split].
Qed.

Lemma follows_try_except {A} (body : UI A) (handler : Exn -> UI A)
    (c : M A) (hc : Exn -> M A) :
  follows body c -> (forall e, follows (handler e) (hc e)) ->
  follows (ui_try_except body handler) (try_except c hc).
Proof.
  intros Hm Hk u. unfold ui_try_except, try_except. destruct (Hm u) as [Hr Hw].
  destruct (body u) as [r u1]. destruct (c (scraper u)) as [rc w1].
  simpl in Hr, Hw. subst rc w1.
  destruct r as [a|e]; [now split | apply Hk].
Qed.

(** An assignment to the session is no step of the scraper. *)
Lemma follows_update {A} (f : Session -> Session) (k : UI A) (c : M A) :
  follows k c -> follows (ui_bind (update_session f) (fun _ => k)) c.
Proof. intros Hk u. apply (Hk (mkUIState (f (session u)) (scraper u))). Qed.

Lemma follows_for_each {A} (xs : list A) (body : A -> UI unit) (cbody : A -> M unit) :
  (forall x, follows (body x) (cbody x)) ->
  follows (ui_for_each xs body) (for_each xs cbody).
Proof.
  intros Hbody. induction xs as [|x xs IH]; simpl.
  - apply follows_ret.
  - apply follows_bind; [apply Hbody | intros _; exact IH].
Qed.

Context (env : Env) {Soup Tag : Type} {bs : BS4 Soup Tag}.

Lemma custom_download_image_follows (url folder_path filename : string) (index : Z) :
  follows (custom_download_image env url folder_path filename index)
    (download_image env url folder_path filename index).
Proof.
  intros u.
  destruct (custom_download_image_run env url folder_path filename index u)
    as (result & w' & -> & ->).
  now split.
Qed.

Lemma fail_listing_follows (entry : Session -> Entry) :
  follows (fail_listing entry) (bind incr_failed_listings (fun _ => ret false)).
Proof.
  unfold fail_listing.
  apply follows_bind; [apply follows_in_scraper | intros _].
  do 2 apply follows_update. apply follows_ret.
Qed.

(** Without an output directory [create_folder] is the scraper's. *)
Context (output_dir : option string).
Hypothesis scraper_folder : create_folder_bound env output_dir = create_folder env.

Lemma custom_process_extracted_follows (url : string)
    (extracted : option string * list string) :
  follows (custom_process_extracted env output_dir url extracted)
    (process_extracted env url extracted).
Proof.
  destruct extracted as [title image_urls].
  unfold custom_process_extracted, process_extracted.
  apply follows_update.
  destruct title as [title_text|]; [|apply fail_listing_follows].
  destruct (negb (Py.truthy_str title_text) || negb (Py.truthy_list image_urls));
    [apply fail_listing_follows|].
  rewrite scraper_folder.
  apply follows_bind; [apply follows_in_scraper | intros folder_path].
  apply follows_bind; [apply follows_in_scraper | intros _].
  apply follows_update. cbv zeta. unfold download_all.
  apply follows_bind.
  { apply follows_for_each. intros [i img_url].
    apply follows_bind; [apply custom_download_image_follows | intros _].
    apply follows_ret. }
  intros _.
  apply follows_bind; [apply follows_in_scraper | intros _].
  do 2 apply follows_update. apply follows_ret.
Qed.

Lemma custom_process_listing_follows_scraper (url : string) :
  follows (custom_process_listing env output_dir url) (process_listing env url).
Proof.
  unfold custom_process_listing, process_listing.
  apply follows_try_except; [|intros [msg]; apply fail_listing_follows].
  apply follows_update.
  apply follows_bind; [apply follows_in_scraper | intros netloc]. cbv zeta.
  destruct (Py.contains "ebay" (Py.lower netloc));
    [|destruct (Py.contains "swappa" (Py.lower netloc))].
  - apply follows_bind; [apply follows_in_scraper | intros extracted].
    apply custom_process_extracted_follows.
  - apply follows_bind; [apply follows_in_scraper | intros extracted].
    apply custom_process_extracted_follows.
  - apply fail_listing_follows.
Qed.

End Follows.

(** X25.  The front end's copy of [process_listing] does what the original
    does.  When no output directory is given, or an empty one,
    [custom_process_listing] returns what [process_listing] returns from
    the same world of the scraper, and leaves that world (the files, the
    requests and file operations in their order, and the four counters of
    the scraper) exactly as [process_listing] leaves it. *)
Theorem custom_process_listing_follows
    (env : Env) {Soup Tag : Type} {bs : BS4 Soup Tag} (url : string) (u : UIState) :
  (fst (custom_process_listing env None url u) = fst (process_listing env url (scraper u))
   /\ scraper (snd (custom_process_listing env None url u))
      = snd (process_listing env url (scraper u)))
  /\ (fst (custom_process_listing env (Some "") url u)
      = fst (process_listing env url (scraper u))
      /\ scraper (snd (custom_process_listing env (Some "") url u))
         = snd (process_listing env url (scraper u))).
Proof.
  split.
  - exact (custom_process_listing_follows_scraper env None eq_refl url u).
  - exact (custom_process_listing_follows_scraper env (Some "") eq_refl url u).
Qed.

(** ** The output directory of the front end *)

Lemma grown_under_refl (dir : string) (tr : list Event) : grown_under dir tr tr.
Proof. exists []. now rewrite app_nil_r. Qed.

Lemma grown_under_trans (dir : string) (tr1 tr2 tr3 : list Event) :
  grown_under dir tr1 tr2 -> grown_under dir tr2 tr3 -> grown_under dir tr1 tr3.
Proof.
  intros (evs & -> & H) (evs' & -> & H').
  exists (evs ++ evs')%list. rewrite app_assoc. split; [reflexivity|].
  now apply Forall_app.
Qed.

Section OutputDir.
Context (env : Env) {Soup Tag : Type} {bs : BS4 Soup Tag}.
Context (dir url : string) (dir_given : Py.truthy_str dir = true).
Context (u0 : UIState).

Let within (u : UIState) : Prop :=
  grown_under dir (trace (scraper u0)) (trace (scraper u)).

(** A call into the scraper that keeps to the directory, with what is
    known of its result. *)
Lemma triple_scraper_within {A} (m : M A) (P : A -> Prop) :
  frames any_stats (under dir) m ->
  (forall w a, fst (m w) = Ok a -> P a) ->
  ui_triple within (in_scraper m) (fun a u => within u /\ P a) within.
Proof.
  intros Hm HP u Hu. unfold in_scraper.
  destruct (Hm (scraper u)) as (evs & Ht & Hq & _).
  pose proof (HP (scraper u)) as Hres.
  destruct (m (scraper u)) as [[a|e] w']; simpl in *;
    (assert (Hw : grown_under dir (trace (scraper u0)) (trace w'))
      by (apply (grown_under_trans _ _ _ _ Hu); now exists evs));
    auto.
Qed.

Lemma custom_create_folder_within (title : string) :
  frames any_stats (under dir) (custom_create_folder env dir title)
  /\ forall w a, fst (custom_create_folder env dir title w) = Ok a ->
                 a = Py.path_join dir (sanitize_filename title).
Proof.
  assert (Hunder : Py.startswith (Py.path_join dir (sanitize_filename title)) dir = true).
  { apply path_join_under.
    rewrite <- (append_nil_r (sanitize_filename title)).
    now apply sanitize_filename_no_slash_head. }
  unfold custom_create_folder, os_makedirs. split.
  - repeat frames_any. exact Hunder.
  - intros w a. unfold bind, io, ret.
    destruct (io_fault env (trace w) _); simpl; intros H;
      [discriminate H | now injection H as <-].
Qed.

Lemma folder_within (title : string) :
  Py.startswith (Py.path_join dir (sanitize_filename title)) dir = true.
Proof.
  apply path_join_under.
  rewrite <- (append_nil_r (sanitize_filename title)).
  now apply sanitize_filename_no_slash_head.
Qed.

Lemma custom_download_image_within (img_url folder_path title : string) (index : Z) :
  Py.startswith folder_path dir = true ->
  ui_triple within
    (custom_download_image env img_url folder_path (sanitize_filename title) index)
    (fun _ => within) within.
Proof.
  intros Hfolder u Hu.
  destruct (custom_download_image_run env img_url folder_path
              (sanitize_filename title) index u) as (result & w' & Hcore & ->).
  destruct (download_image_under env dir img_url folder_path title index Hfolder
              (scraper u)) as (evs & Ht & Hq & _).
  rewrite Hcore in Ht. simpl in Ht.
  apply (grown_under_trans _ _ _ _ Hu). now exists evs.
Qed.

Lemma fail_listing_within (entry : Session -> Entry) :
  ui_triple within (fail_listing entry) (fun _ => within) within.
Proof. intros u Hu. exact Hu. Qed.

Lemma triple_update_within (f : Session -> Session) :
  ui_triple within (update_session f) (fun _ => within) within.
Proof. intros u Hu. exact Hu. Qed.

Lemma custom_process_extracted_within (extracted : option string * list string) :
  ui_triple within (custom_process_extracted env (Some dir) url extracted)
    (fun _ => within) within.
Proof.
  destruct extracted as [title image_urls]. unfold custom_process_extracted.
  apply (triple_bind _ _ _ (fun _ => within)); [apply triple_update_within | intros _].
  destruct title as [title_text|]; [|apply fail_listing_within].
  destruct (negb (Py.truthy_str title_text) || negb (Py.truthy_list image_urls));
    [apply fail_listing_within|].
  unfold create_folder_bound. rewrite dir_given.
  destruct (custom_create_folder_within title_text) as [Hframes Hreturns].
  apply (triple_bind _ _ _
           (fun a u => within u
                       /\ a = Py.path_join dir (sanitize_filename title_text)));
    [now apply triple_scraper_within | intros folder_path].
  apply (triple_bind _ _ _ (fun _ u => within u /\ folder_path
                                        = Py.path_join dir (sanitize_filename title_text))).
  { intros u [Hu ->].
    assert (Hw : frames any_stats (under dir)
                   (write_text env
                      (Py.path_join (Py.path_join dir (sanitize_filename title_text))
                         "source_url.txt") url)).
    { unfold write_text. frames_any. unfold under. simpl.
      apply (startswith_trans _ (Py.path_join dir (sanitize_filename title_text)));
        [now apply path_join_under | apply folder_within]. }
    pose proof (triple_scraper_within _ (fun _ => True) Hw (fun _ _ _ => I) u Hu) as H.
    destruct (in_scraper _ u) as [[a|e] u1]; [now destruct H | exact H]. }
  intros _.
  apply (triple_bind _ _ _ (fun _ u => within u /\ folder_path
                                        = Py.path_join dir (sanitize_filename title_text))).
  { apply triple_update. intros u Hu. exact Hu. }
  intros _. cbv zeta.
  apply (triple_weaken _ (fun u => within u /\ folder_path
                                   = Py.path_join dir (sanitize_filename title_text))
           _ (fun _ => within) _ within);
    [| auto | auto | auto ].
  intros u [Hu ->]. revert u Hu.
  change (ui_triple within
            (ui_bind
               (ui_for_each (enumerate image_urls)
                  (fun '(i, img_url) =>
                     ui_bind
                       (custom_download_image env img_url
                          (Py.path_join dir (sanitize_filename title_text))
                          (sanitize_filename title_text) (i + 1))
                       (fun _ => ui_ret tt)))
               (fun _ =>
                  ui_bind (in_scraper incr_successful_listings)
                    (fun _ =>
                       ui_bind (update_session count_successful_listing)
                         (fun _ =>
                            ui_bind
                              (update_session
                                 (fun s =>
                                    append_listing
                                      (mkEntry url (Some title_text) "completed"
                                         (Z.of_nat (length image_urls))
                                         (current_images_downloaded s) None) s))
                              (fun _ => ui_ret true)))))
            (fun _ => within) within).
  apply (triple_bind _ _ _ (fun _ => within)).
  { apply triple_for_each. intros [i img_url].
    apply (triple_bind _ _ _ (fun _ => within)).
    - apply custom_download_image_within, folder_within.
    - intros _. now apply triple_ret. }
  intros _ u Hu. exact Hu.
Qed.

Lemma custom_process_listing_within :
  ui_triple (eq u0) (custom_process_listing env (Some dir) url) (fun _ => within) within.
Proof.
  unfold custom_process_listing.
  apply (triple_try_except _ _ _ _ within);
    [|intros [msg]; apply fail_listing_within].
  apply (triple_bind _ _ _ (fun _ => within)).
  { apply triple_update. intros u <-. apply grown_under_refl. }
  intros _.
  apply (triple_bind _ _ _ (fun _ => within)).
  { apply (triple_weaken _ _ _ _ _ _ _
             (triple_scraper_within (lift (url_netloc env url)) (fun _ => True)
                ltac:(apply frames_lift; exact any_stats_refl) (fun _ _ _ => I)));
      auto. now intros a u [H _]. }
  intros netloc. cbv zeta.
  destruct (Py.contains "ebay" (Py.lower netloc));
    [|destruct (Py.contains "swappa" (Py.lower netloc))].
  - apply (triple_bind _ _ _ (fun _ => within)).
    { apply (triple_weaken _ _ _ _ _ _ _
               (triple_scraper_within _ (fun _ => True)
                  (scrape_ebay_listing_under env url dir) (fun _ _ _ => I)));
        auto. now intros a u [H _]. }
    intros extracted. apply custom_process_extracted_within.
  - apply (triple_bind _ _ _ (fun _ => within)).
    { apply (triple_weaken _ _ _ _ _ _ _
               (triple_scraper_within _ (fun _ => True)
                  (scrape_swappa_listing_under env url dir) (fun _ _ _ => I)));
        auto. now intros a u [H _]. }
    intros extracted. apply custom_process_extracted_within.
  - apply fail_listing_within.
Qed.

End OutputDir.

(** X26.  The output directory is kept to.  When the front end runs a
    listing with an output directory, the path of every file-system and
    image call starts with the text of that directory; in particular the
    directory [listing_images] of the home directory is neither looked
    for nor made. *)
Theorem custom_process_listing_output_dir
    (env : Env) {Soup Tag : Type} {bs : BS4 Soup Tag}
    (dir url : string) (u : UIState) :
  Py.truthy_str dir = true ->
  exists evs,
    trace (scraper (snd (custom_process_listing env (Some dir) url u)))
    = (trace (scraper u) ++ evs)%list
    /\ Forall (under dir) evs.
Proof.
  intros Hdir.
  pose proof (custom_process_listing_within env dir url Hdir u u eq_refl) as H.
  destruct (custom_process_listing env (Some dir) url u) as [[ok|e] u']; exact H.
Qed.

Lemma custom_process_listing_output_dir_witness :
  exists evs,
    trace (scraper (snd (custom_process_listing Fixture.run_env (bs := Fixture.run_bs)
                           (Some "out") Fixture.listing_url FrontEndFixture.state0)))
    = (trace (scraper FrontEndFixture.state0) ++ evs)%list
    /\ Forall (under "out") evs.
Proof.
  apply (custom_process_listing_output_dir Fixture.run_env (bs := Fixture.run_bs)
           "out" Fixture.listing_url FrontEndFixture.state0).
  reflexivity.
Defined.

(** The run of the example listing in the front end, with an output
    directory: the folder and the files are under it, the session counts
    both downloads by their results and holds one completed entry. *)
Example front_end_run :
  let run := process_urls_thread Fixture.run_env (bs := Fixture.run_bs)
               [Fixture.listing_url] (Some "out") FrontEndFixture.state0 in
  fst run = Ok tt
  /\ session_stats (session (snd run)) = mkStats 1 0 1 1
  /\ stats (scraper (snd run)) = mkStats 1 0 1 1
  /\ map entry_status (processed_listings (session (snd run))) = ["completed"]
  /\ map entry_images_downloaded (processed_listings (session (snd run))) = [1].
Proof. vm_compute. auto 10. Qed.

(** ** The images the session counts *)

Lemma image_requests_none (evs : list Event) :
  Forall not_image_request evs -> image_requests evs = 0.
Proof.
  induction 1 as [|ev evs Hev _ IH]; [reflexivity|].
  change (ev :: evs) with ([ev] ++ evs)%list.
  rewrite image_requests_app, Hev, IH. reflexivity.
Qed.

Section SessionImages.
Context (env : Env) {Soup Tag : Type} {bs : BS4 Soup Tag}.
Context (output_dir : option string) (url : string).
Context (u0 : UIState).

(** Since the call started the session has counted one image for each
    image request. *)
Let counted (u : UIState) : Prop :=
  exists evs,
    trace (scraper u) = (trace (scraper u0) ++ evs)%list
    /\ session_images (session u) = session_images (session u0) + image_requests evs.

Lemma triple_scraper_counted {A} (m : M A) :
  frames any_stats not_image_request m ->
  ui_triple counted (in_scraper m) (fun _ => counted) counted.
Proof.
  intros Hm u (evs & Ht & Hs). unfold in_scraper.
  destruct (Hm (scraper u)) as (evs' & Ht' & Hq & _).
  assert (Hc : counted (mkUIState (session u) (snd (m (scraper u))))).
  { exists (evs ++ evs')%list. simpl.
    rewrite Ht', Ht, app_assoc, image_requests_app, (image_requests_none evs' Hq).
    split; [reflexivity | lia]. }
  destruct (m (scraper u)) as [[a|e] w']; exact Hc.
Qed.

(** An assignment that leaves the image counters of the session. *)
Lemma triple_update_counted (f : Session -> Session) :
  (forall s, session_images (f s) = session_images s) ->
  ui_triple counted (update_session f) (fun _ => counted) counted.
Proof.
  intros Hf u (evs & Ht & Hs). exists evs. simpl. rewrite Hf. now split.
Qed.

Lemma fail_listing_counted (entry : Session -> Entry) :
  ui_triple counted (fail_listing entry) (fun _ => counted) counted.
Proof. intros u (evs & Ht & Hs). exists evs. simpl. now split. Qed.

Lemma custom_download_image_counted (img_url folder_path filename : string) (index : Z) :
  ui_triple counted (custom_download_image env img_url folder_path filename index)
    (fun _ => counted) counted.
Proof.
  intros u (evs & Ht & Hs).
  destruct (custom_download_image_run env img_url folder_path filename index u)
    as (result & w' & Hcore & ->).
  destruct (download_image_events env img_url folder_path filename index (scraper u))
    as (evs' & Ht' & (rest & -> & Hrest) & _).
  rewrite Hcore in Ht'. simpl in Ht'.
  exists (evs ++ EvGet img_url true :: rest)%list. simpl.
  rewrite Ht', Ht, app_assoc, image_requests_app. split; [reflexivity|].
  cbn [image_requests]. rewrite (image_requests_on_target _ _ _ _ Hrest).
  unfold session_images in *. destruct result; simpl; lia.
Qed.

Lemma create_folder_bound_quiet (title : string) :
  frames any_stats not_image_request (create_folder_bound env output_dir title).
Proof.
  unfold create_folder_bound.
  destruct output_dir as [dir|]; [destruct (Py.truthy_str dir)|];
    unfold custom_create_folder, create_folder, os_makedirs;
    repeat frames_any; reflexivity.
Qed.

Lemma custom_process_extracted_counted (extracted : option string * list string) :
  ui_triple counted (custom_process_extracted env output_dir url extracted)
    (fun _ => counted) counted.
Proof.
  destruct extracted as [title image_urls]. unfold custom_process_extracted.
  apply (triple_bind _ _ _ (fun _ => counted));
    [now apply triple_update_counted | intros _].
  destruct title as [title_text|]; [|apply fail_listing_counted].
  destruct (negb (Py.truthy_str title_text) || negb (Py.truthy_list image_urls));
    [apply fail_listing_counted|].
  apply (triple_bind _ _ _ (fun _ => counted));
    [apply triple_scraper_counted, create_folder_bound_quiet | intros folder_path].
  apply (triple_bind _ _ _ (fun _ => counted)).
  { apply triple_scraper_counted. unfold write_text. frames_any. reflexivity. }
  intros _.
  apply (triple_bind _ _ _ (fun _ => counted));
    [now apply triple_update_counted | intros _].
  cbv zeta.
  apply (triple_bind _ _ _ (fun _ => counted)).
  { apply triple_for_each. intros [i img_url].
    apply (triple_bind _ _ _ (fun _ => counted));
      [apply custom_download_image_counted | intros _; now apply triple_ret]. }
  intros _ u (evs & Ht & Hs). exists evs. simpl. now split.
Qed.

Lemma custom_process_listing_counted :
  ui_triple (eq u0) (custom_process_listing env output_dir url)
    (fun _ => counted) counted.
Proof.
  unfold custom_process_listing.
  apply (triple_try_except _ _ _ _ counted);
    [|intros [msg]; apply fail_listing_counted].
  apply (triple_bind _ _ _ (fun _ => counted)).
  { apply triple_update. intros u <-. exists []. simpl.
    rewrite app_nil_r. split; [reflexivity | unfold session_images; simpl; lia]. }
  intros _.
  apply (triple_bind _ _ _ (fun _ => counted)).
  { apply triple_scraper_counted, frames_lift. exact any_stats_refl. }
  intros netloc. cbv zeta.
  destruct (Py.contains "ebay" (Py.lower netloc));
    [|destruct (Py.contains "swappa" (Py.lower netloc))].
  - apply (triple_bind _ _ _ (fun _ => counted)).
    { apply triple_scraper_counted. unfold scrape_ebay_listing.
      repeat frames_any. reflexivity. }
    intros extracted. apply custom_process_extracted_counted.
  - apply (triple_bind _ _ _ (fun _ => counted)).
    { apply triple_scraper_counted. unfold scrape_swappa_listing.
      repeat frames_any. reflexivity. }
    intros extracted. apply custom_process_extracted_counted.
  - apply fail_listing_counted.
Qed.

End SessionImages.

(** X27.  In the front end every image request is counted.  Over a call of
    [custom_process_listing], whatever its outcome, the images the session
    has counted, successful and failed together, have grown by exactly
    the number of image requests made; the scraper's own counters may
    fall short of it. *)
Theorem custom_process_listing_counts_requests
    (env : Env) {Soup Tag : Type} {bs : BS4 Soup Tag}
    (output_dir : option string) (url : string) (u : UIState) :
  exists evs,
    trace (scraper (snd (custom_process_listing env output_dir url u)))
    = (trace (scraper u) ++ evs)%list
    /\ session_images (session (snd (custom_process_listing env output_dir url u)))
       = session_images (session u) + image_requests evs.
Proof.
  pose proof (custom_process_listing_counted env output_dir url u u eq_refl) as H.
  destruct (custom_process_listing env output_dir url u) as [[ok|e] u']; exact H.
Qed.

(** ** One request for each extraction *)

(** X28.  An extractor makes one request and does nothing else to the
    world: after [scrape_ebay_listing] or [scrape_swappa_listing] the
    files and the counters are as before and the trace has one event
    more, the request for the page, not streamed.  When no title is
    returned no address is returned either. *)
Theorem scrape_listing_single_request
    (env : Env) {Soup Tag : Type} {bs : BS4 Soup Tag} (url : string) (w : World) :
  (exists title image_urls,
     scrape_ebay_listing env url w
     = (Ok (title, image_urls), record (EvGet url false) w)
     /\ (title = None -> image_urls = []))
  /\ (exists title image_urls,
        scrape_swappa_listing env url w
        = (Ok (title, image_urls), record (EvGet url false) w)
        /\ (title = None -> image_urls = [])).
Proof.
  split.
  - destruct (scrape_ebay_listing_cases env url w)
      as [-> | (response & soup & _ & _ & ->)].
    + now exists None, [].
    + eexists. eexists. split; [reflexivity | discriminate].
  - destruct (scrape_swappa_listing_cases env url w)
      as [-> | (response & soup & base & urls & _ & _ & _ & ->)].
    + now exists None, [].
    + eexists. eexists. split; [reflexivity | discriminate].
Qed.
